(** * Voltorb Flip solver: board enumeration, posteriors and recommendation

    A shallow embedding of [voltorb.py].  Python integers are [Z], the
    [opened] dictionary is a finite map from coordinates to values, Python
    lists are lists read with [!!], and a raised exception ([IndexError],
    [KeyError], [TypeError]) is the [None] of the option monad.  A cell of
    the working grid is an [option Z]: Python's [None] or a value.  The
    objects that [dfs_row] mutates and rolls back live in a store that is
    passed along, together with the caller's dictionary.  Dictionaries whose
    order of insertion matters are association lists.  The arithmetic of
    floats is a parameter of the embedding. *)

From stdpp Require Import gmap list fin_maps sorting strings.
From Stdlib Require Import ZArith Lia.
From Stdlib Require QArith Lqa Qabs Qfield.
From Stdlib Require Import Field.

Local Open Scope Z_scope.
#[local] Set Warnings "-clear-no-such-hyp".

(** ** Data model *)

Definition N : nat := 5.

Abbreviation Grid := (list (list Z)).

(** The dictionary key [(r, c)] for loop indices [r], [c] of [range(N)]. *)
Definition coord (r c : nat) : Z * Z := (Z.of_nat r, Z.of_nat c).

(** [range(lo, hi)] *)
Definition range (lo hi : nat) : list nat := seq lo (hi - lo).

(** ** Loops

    A [for] loop threads a state through its body; the body answers [Next]
    to go on, [Break] to leave the loop, and [None] when it raises. *)

Inductive flow (S : Type) : Type :=
  | Next (s : S)
  | Break (s : S).
Arguments Next {S} s.
Arguments Break {S} s.

Fixpoint for_in {A S : Type} (xs : list A) (body : A → S → option (flow S)) (s : S)
    : option S :=
  match xs with
  | [] => Some s
  | x :: xs' =>
      match body x s with
      | None => None
      | Some (Break s') => Some s'
      | Some (Next s') => for_in xs' body s'
      end
  end.

(** [l[i] = x]: an [IndexError] out of range. *)
Definition list_set {A} (l : list A) (i : nat) (x : A) : option (list A) :=
  if decide (i < length l)%nat then Some (<[i := x]> l) else None.

(** [grid[r][c]] on the working grid: the outer option is the [IndexError]. *)
Definition grid_get (g : list (list (option Z))) (r c : nat) : option (option Z) :=
  row ← g !! r; row !! c.

(** [grid[r][c] = x] *)
Definition grid_set (g : list (list (option Z))) (r c : nat) (x : option Z)
    : option (list (list (option Z))) :=
  row ← g !! r; row' ← list_set row c x; list_set g r row'.

(** [g[r][c]] on a finished board. *)
Definition grid_val (g : Grid) (r c : nat) : option Z := row ← g !! r; row !! c.

(** ** Column bound checker *)

Definition _col_bounds_so_far
    (target_sum target_bombs partial_sum partial_bombs rows_left : Z)
    : option (Z * Z) :=
  let bombs_left := target_bombs - partial_bombs in
  if (bombs_left <? 0) || (bombs_left >? rows_left) then None
  else
    let nonbomb_left := rows_left - bombs_left in
    let min_add := nonbomb_left * 1 in
    let max_add := nonbomb_left * 3 in
    let min_possible := partial_sum + min_add in
    let max_possible := partial_sum + max_add in
    Some (min_possible, max_possible).

(** ** Row pattern enumeration *)

(** [sum(v for (rr, cc), v in opened.items() if rr == r)] *)
Definition opened_row_sum (r : nat) (opened : gmap (Z * Z) Z) : Z :=
  map_fold (λ k v acc, if decide (k.1 = Z.of_nat r) then acc + v else acc) 0 opened.

(** [sum(1 for (rr, cc), v in opened.items() if rr == r and v == 0)] *)
Definition opened_row_bombs (r : nat) (opened : gmap (Z * Z) Z) : Z :=
  map_fold (λ k v acc, if decide (k.1 = Z.of_nat r ∧ v = 0) then acc + 1 else acc)
           0 opened.

Definition _row_remaining (r : nat) (row_sums row_bombs : list Z)
    (opened : gmap (Z * Z) Z) : option (Z * Z * nat * list nat) :=
  let S := opened_row_sum r opened in
  let Z_open := opened_row_bombs r opened in
  rs ← row_sums !! r;
  rb ← row_bombs !! r;
  let R := rs - S in
  let Z := rb - Z_open in
  let cs := filter (λ c, opened !! coord r c = None) (range 0 N) in
  Some (R, Z, length cs, cs).

(** [sum(1 for i in range(c, N) if row_fixed[i] is None)], on the cells
    [row_fixed[c:]] *)
Definition count_unfixed (rest : list (option Z)) : Z :=
  Z.of_nat (length (filter (λ x, x = None) rest)).

(** The inner [dfs(c, rem_sum, rem_bombs, acc)] of [_enumerate_row_patterns].
    The column index [c] is carried as the cells still ahead,
    [rest = row_fixed[c:]], so that [c == N] is [rest = []] and [row_fixed[c]]
    is the head of [rest].  The result is the list of patterns that the call
    appends to [patterns], in the order it appends them. *)
Fixpoint dfs (rest : list (option Z)) (rem_sum rem_bombs : Z) (acc : list Z)
    : list (list Z) :=
  let cols_unfixed_left := count_unfixed rest in
  if (rem_bombs <? 0) || (rem_bombs >? cols_unfixed_left) then []
  else
    let nonbomb_slots := cols_unfixed_left - rem_bombs in
    let min_possible := nonbomb_slots * 1 in
    let max_possible := nonbomb_slots * 3 in
    if (rem_sum <? min_possible) || (rem_sum >? max_possible) then []
    else
      match rest with
      | [] => if (rem_sum =? 0) && (rem_bombs =? 0) then [acc] else []
      | Some v :: rest' => dfs rest' rem_sum rem_bombs (acc ++ [v])
      | None :: rest' =>
          (if rem_bombs >? 0 then dfs rest' rem_sum (rem_bombs - 1) (acc ++ [0])
           else [])
          ++ ([1; 2; 3] ≫= λ v,
                let new_rem_sum := rem_sum - v in
                let new_cols_unfixed := cols_unfixed_left - 1 in
                let b_left := rem_bombs in
                let nonbomb_slots_after := new_cols_unfixed - b_left in
                let min_p := Z.max 0 nonbomb_slots_after * 1 in
                let max_p := Z.max 0 nonbomb_slots_after * 3 in
                if (new_rem_sum <? min_p) || (new_rem_sum >? max_p) then []
                else dfs rest' new_rem_sum b_left (acc ++ [v]))
      end.

(** [[opened.get((r, c)) for c in range(N)]] *)
Definition row_fixed_of (r : nat) (opened : gmap (Z * Z) Z) : list (option Z) :=
  (λ c, opened !! coord r c) <$> range 0 N.

Definition _enumerate_row_patterns (r : nat)
    (row_sums row_bombs col_sums col_bombs : list Z) (opened : gmap (Z * Z) Z)
    : option (list (list Z)) :=
  '(R, Z, k, cs) ← _row_remaining r row_sums row_bombs opened;
  let row_fixed := row_fixed_of r opened in
  Some (dfs row_fixed R Z []).

(** ** Board assembly

    The objects that [dfs_row] mutates, together with the caller's [opened]
    dictionary that it reads. *)

Record Store := MkStore {
  st_opened : gmap (Z * Z) Z;
  grid : list (list (option Z));
  col_sum : list Z;
  col_bz : list Z;
  solutions : list Grid
}.

Definition set_grid (g : list (list (option Z))) (st : Store) : Store :=
  MkStore (st_opened st) g (col_sum st) (col_bz st) (solutions st).
Definition set_col_sum (x : list Z) (st : Store) : Store :=
  MkStore (st_opened st) (grid st) x (col_bz st) (solutions st).
Definition set_col_bz (x : list Z) (st : Store) : Store :=
  MkStore (st_opened st) (grid st) (col_sum st) x (solutions st).
Definition set_solutions (x : list Grid) (st : Store) : Store :=
  MkStore (st_opened st) (grid st) (col_sum st) (col_bz st) x.

Section dfs_row.
Variables col_sums col_bombs : list Z.

(** The check at [r == N]: [false] is the early [return]. *)
Definition final_check (st : Store) : option bool :=
  for_in (range 0 N) (λ (c : nat) (ok : bool),
    s ← col_sum st !! c;
    ts ← col_sums !! c;
    if negb (s =? ts) then Some (Break false)
    else
      b ← col_bz st !! c;
      tb ← col_bombs !! c;
      if negb (b =? tb) then Some (Break false) else Some (Next ok)) true.

(** [[[int(x) for x in row] for row in grid]]: [int(None)] raises. *)
Definition copy_grid (g : list (list (option Z))) : option Grid :=
  mapM (mapM (λ x : option Z, x)) g.

(** The first loop of the body: does [row_pat] agree with the cells already
    fixed in row [r], and by how much does it move the column totals. *)
Definition check_pattern (r : nat) (row_pat : list Z) (st : Store)
    : option (bool * list Z * list Z) :=
  for_in (range 0 N) (λ (c : nat) '(ok, incr_sum, incr_bz),
    v ← row_pat !! c;
    prev ← grid_get (grid st) r c;
    if bool_decide (prev ≠ None ∧ prev ≠ Some v)
    then Some (Break (false, incr_sum, incr_bz))
    else
      incr_sum' ← list_set incr_sum c (v - default 0 prev);
      incr_bz' ← list_set incr_bz c
                   ((if v =? 0 then 1 else 0)
                    - (if bool_decide (prev = Some 0) then 1 else 0));
      Some (Next (ok, incr_sum', incr_bz')))
    (true, replicate N 0, replicate N 0).

(** The second loop: write the pattern and move the column totals. *)
Definition apply_pattern (r : nat) (row_pat incr_sum incr_bz : list Z) (st : Store)
    : option Store :=
  for_in (range 0 N) (λ (c : nat) (st : Store),
    v ← row_pat !! c;
    g' ← grid_set (grid st) r c (Some v);
    s ← col_sum st !! c;
    i ← incr_sum !! c;
    col_sum' ← list_set (col_sum st) c (s + i);
    b ← col_bz st !! c;
    j ← incr_bz !! c;
    col_bz' ← list_set (col_bz st) c (b + j);
    Some (Next (set_col_bz col_bz' (set_col_sum col_sum' (set_grid g' st))))) st.

(** [sum(1 for rr in range(r+1, N) if grid[rr][c] is None)] *)
Definition rows_left_of (g : list (list (option Z))) (r c : nat) : option Z :=
  cells ← mapM (λ rr, grid_get g rr c) (range (r + 1) N);
  Some (Z.of_nat (length (filter (λ x, x = None) cells))).

(** The third loop: the column pruning. *)
Definition prune_columns (r : nat) (st : Store) : option bool :=
  for_in (range 0 N) (λ (c : nat) (ok : bool),
    rows_left ← rows_left_of (grid st) r c;
    ts ← col_sums !! c;
    tb ← col_bombs !! c;
    s ← col_sum st !! c;
    b ← col_bz st !! c;
    match _col_bounds_so_far ts tb s b rows_left with
    | None => Some (Break false)
    | Some (lo, hi) =>
        if negb ((lo <=? ts) && (ts <=? hi)) then Some (Break false)
        else Some (Next ok)
    end) true.

(** The last loop: the rollback. *)
Definition rollback (r : nat) (incr_sum incr_bz : list Z) (st : Store) : option Store :=
  for_in (range 0 N) (λ (c : nat) (st : Store),
    s ← col_sum st !! c;
    i ← incr_sum !! c;
    col_sum' ← list_set (col_sum st) c (s - i);
    b ← col_bz st !! c;
    j ← incr_bz !! c;
    col_bz' ← list_set (col_bz st) c (b - j);
    g' ← grid_set (grid st) r c (st_opened st !! coord r c);
    Some (Next (set_grid g' (set_col_bz col_bz' (set_col_sum col_sum' st))))) st.

(** [dfs_row(r)], with [rows = all_row_patterns[r:]]: the list
    [all_row_patterns] has [N] entries when [dfs_row] runs, so [r == N] is
    [rows = []]. *)
Fixpoint dfs_row (rows : list (list (list Z))) (r : nat) (st : Store) : option Store :=
  match rows with
  | [] =>
      ok ← final_check st;
      if (ok : bool) then
        g ← copy_grid (grid st);
        Some (set_solutions (solutions st ++ [g]) st)
      else Some st
  | pats :: rows' =>
      for_in pats (λ (row_pat : list Z) (st : Store),
        '(ok, incr_sum, incr_bz) ← check_pattern r row_pat st;
        if negb (ok : bool) then Some (Next st)
        else
          st1 ← apply_pattern r row_pat incr_sum incr_bz st;
          ok ← prune_columns r st1;
          st2 ← (if (ok : bool) then dfs_row rows' (r + 1) st1 else Some st1);
          st3 ← rollback r incr_sum incr_bz st2;
          Some (Next st3)) st
  end.

End dfs_row.

(** The loop that collects the patterns of every row; the inner [None] is
    the early [return []] at a row without patterns. *)
Definition collect_row_patterns (row_sums row_bombs col_sums col_bombs : list Z)
    (opened : gmap (Z * Z) Z) : option (option (list (list (list Z)))) :=
  for_in (range 0 N) (λ (r : nat) (acc : option (list (list (list Z)))),
    pats ← _enumerate_row_patterns r row_sums row_bombs col_sums col_bombs opened;
    match pats with
    | [] => Some (Break None)
    | _ => Some (Next ((λ a, a ++ [pats]) <$> acc))
    end) (Some []).

(** The store when [dfs_row(0)] is called. *)
Definition init_store (opened : gmap (Z * Z) Z) : Store :=
  let col_sum :=
    (λ c, foldr Z.add 0 ((λ r, default 0 (opened !! coord r c)) <$> range 0 N))
      <$> range 0 N in
  let col_bz :=
    (λ c, Z.of_nat (length (filter (λ r, opened !! coord r c = Some 0) (range 0 N))))
      <$> range 0 N in
  let grid := (λ r, (λ c, opened !! coord r c) <$> range 0 N) <$> range 0 N in
  MkStore opened grid col_sum col_bz [].

(** [_enumerate_all_boards], returning the boards together with the content
    of the caller's [opened] dictionary when the call returns. *)
Definition enumerate_all_boards_run (row_sums row_bombs col_sums col_bombs : list Z)
    (opened : gmap (Z * Z) Z) : option (list Grid * gmap (Z * Z) Z) :=
  arp ← collect_row_patterns row_sums row_bombs col_sums col_bombs opened;
  match arp with
  | None => Some ([], opened)
  | Some all_row_patterns =>
      st ← dfs_row col_sums col_bombs all_row_patterns 0 (init_store opened);
      Some (solutions st, st_opened st)
  end.

Definition _enumerate_all_boards (row_sums row_bombs col_sums col_bombs : list Z)
    (opened : gmap (Z * Z) Z) : option (list Grid) :=
  fst <$> enumerate_all_boards_run row_sums row_bombs col_sums col_bombs opened.

(** ** Posteriors

    The arithmetic of Python's floats is a parameter: [fdiv_int] is the true
    division of two integers, [of_int] the conversion of an integer, and
    [fltb], [feqb] the comparisons [<] and [==]. *)

Class FloatOps (F : Type) := {
  fdiv_int : Z → Z → F;
  of_int : Z → F;
  fmul : F → F → F;
  fadd : F → F → F;
  fneg : F → F;
  fltb : F → F → bool;
  feqb : F → F → bool
}.

(** The dictionary [{0: _, 1: _, 2: _, 3: _}] of one coordinate. *)
Record Tally := MkTally { t0 : Z; t1 : Z; t2 : Z; t3 : Z }.

(** [d[v] += 1]: a [KeyError] for a key other than 0, 1, 2, 3. *)
Definition tally_bump (v : Z) (d : Tally) : option Tally :=
  if v =? 0 then Some (MkTally (t0 d + 1) (t1 d) (t2 d) (t3 d))
  else if v =? 1 then Some (MkTally (t0 d) (t1 d + 1) (t2 d) (t3 d))
  else if v =? 2 then Some (MkTally (t0 d) (t1 d) (t2 d + 1) (t3 d))
  else if v =? 3 then Some (MkTally (t0 d) (t1 d) (t2 d) (t3 d + 1))
  else None.

(** [sum(d.values())] *)
Definition tally_sum (d : Tally) : Z := 0 + t0 d + t1 d + t2 d + t3 d.

(** A dictionary keyed by coordinates, in insertion order. *)
Fixpoint dict_get {V} (k : nat * nat) (d : list (nat * nat * V)) : option V :=
  match d with
  | [] => None
  | (k', v) :: d' => if decide (k' = k) then Some v else dict_get k d'
  end.

Fixpoint dict_set {V} (k : nat * nat) (v : V) (d : list (nat * nat * V))
    : list (nat * nat * V) :=
  match d with
  | [] => [(k, v)]
  | (k', v') :: d' =>
      if decide (k' = k) then (k, v) :: d' else (k', v') :: dict_set k v d'
  end.

(** [[(r, c) for r in range(N) for c in range(N) if (r, c) not in opened]] *)
Definition targets_of (opened : gmap (Z * Z) Z) : list (nat * nat) :=
  r ← range 0 N; c ← range 0 N;
  if decide (opened !! coord r c = None) then [(r, c)] else [].

Record Posterior (F : Type) := MkPosterior {
  total : Z;
  p0 : F; p1 : F; p2 : F; p3 : F;
  ev : F
}.
Arguments MkPosterior {F}.
Arguments total {F}.
Arguments p0 {F}.
Arguments p1 {F}.
Arguments p2 {F}.
Arguments p3 {F}.
Arguments ev {F}.

Section posteriors.
Context {F : Type} `{FloatOps F}.

Definition posterior_of (tot : Z) (d : Tally) : Posterior F :=
  let p0 := fdiv_int (t0 d) tot in
  let p1 := fdiv_int (t1 d) tot in
  let p2 := fdiv_int (t2 d) tot in
  let p3 := fdiv_int (t3 d) tot in
  let ev := fadd (fadd (fmul (of_int 1) p1) (fmul (of_int 2) p2)) (fmul (of_int 3) p3) in
  MkPosterior tot p0 p1 p2 p3 ev.

(** [for g in sols: for (r, c) in targets: counts[(r, c)][g[r][c]] += 1] *)
Definition count_boards (targets : list (nat * nat)) (sols : list Grid)
    (counts : list (nat * nat * Tally)) : option (list (nat * nat * Tally)) :=
  for_in sols (λ (g : Grid) (counts : list (nat * nat * Tally)),
    counts' ← for_in targets (λ '(r, c) (counts : list (nat * nat * Tally)),
                 v ← grid_val g r c;
                 d ← dict_get (r, c) counts;
                 d' ← tally_bump v d;
                 Some (Next (dict_set (r, c) d' counts))) counts;
    Some (Next counts')) counts.

(** [for rc, d in counts.items(): ...] *)
Definition build_post (counts : list (nat * nat * Tally))
    : option (list (nat * nat * Posterior F)) :=
  for_in counts (λ '(rc, d) (post : list (nat * nat * Posterior F)),
    let tot := tally_sum d in
    if tot =? 0 then Some (Next post)
    else Some (Next (dict_set rc (posterior_of tot d) post))) [].

(** [compute_posteriors], returning also the content of the caller's
    [opened] dictionary when the call returns. *)
Definition compute_posteriors_run (row_sums row_bombs col_sums col_bombs : list Z)
    (opened : gmap (Z * Z) Z)
    : option (list (nat * nat * Posterior F) * Z * gmap (Z * Z) Z) :=
  '(sols, opened) ← enumerate_all_boards_run row_sums row_bombs col_sums col_bombs opened;
  match sols with
  | [] => Some ([], 0, opened)
  | _ =>
      let targets := targets_of opened in
      let counts := (λ rc, (rc, MkTally 0 0 0 0)) <$> targets in
      counts ← count_boards targets sols counts;
      post ← build_post counts;
      Some (post, Z.of_nat (length sols), opened)
  end.

Definition compute_posteriors (row_sums row_bombs col_sums col_bombs : list Z)
    (opened : gmap (Z * Z) Z) : option (list (nat * nat * Posterior F) * Z) :=
  fst <$> compute_posteriors_run row_sums row_bombs col_sums col_bombs opened.

(** ** Recommender *)

(** The key [(kv[1]["p"][0], -kv[1]["ev"])] *)
Definition sort_key (kv : nat * nat * Posterior F) : F * F :=
  (p0 kv.2, fneg (ev kv.2)).

(** [a < b] on pairs: the first components that differ decide. *)
Definition key_lt (a b : F * F) : bool :=
  if negb (feqb a.1 b.1) then fltb a.1 b.1
  else if negb (feqb a.2 b.2) then fltb a.2 b.2
  else false.

(** [min(posteriors.items(), key=...)]: the first entry with a minimal key. *)
Definition choose_next_safest (posteriors : list (nat * nat * Posterior F))
    : option (nat * nat * Posterior F) :=
  match posteriors with
  | [] => None
  | kv :: rest =>
      Some (foldl (λ best kv, if key_lt (sort_key kv) (sort_key best) then kv else best)
                  kv rest)
  end.

End posteriors.

(** ** Exact rational arithmetic

    The instance of the float operations in which no operation rounds. *)

Definition Q_ops : FloatOps QArith_base.Q := {|
  fdiv_int a b := Qreduction.Qred (QArith_base.Qdiv (QArith_base.inject_Z a)
                                                     (QArith_base.inject_Z b));
  of_int := QArith_base.inject_Z;
  fmul a b := Qreduction.Qred (QArith_base.Qmult a b);
  fadd a b := Qreduction.Qred (QArith_base.Qplus a b);
  fneg := QArith_base.Qopp;
  fltb a b := match QArith_base.Qcompare a b with Lt => true | _ => false end;
  feqb := QArith_base.Qeq_bool
|}.

(** ** Input validation

    [sanity_check] returns a message or [None].  The message is one of six
    f-strings; a value of [SanityError] names the f-string and carries the
    numbers that it prints.  The outer option is the [IndexError] of a list
    that is too short. *)

Inductive SanityError : Type :=
  | RowColSumMismatch (rows cols : Z)
  | RowColBombMismatch (rows cols : Z)
  | RowBombsOutOfRange (i : nat)
  | RowSumImpossible (i : nat) (nb : Z)
  | ColBombsOutOfRange (j : nat)
  | ColSumImpossible (j : nat) (nb : Z).

(** [sum(l)] on a list of integers *)
Definition py_sum (l : list Z) : Z := foldl Z.add 0 l.

Definition sanity_check (row_sums row_bombs col_sums col_bombs : list Z)
    : option (option SanityError) :=
  if negb (py_sum row_sums =? py_sum col_sums)
  then Some (Some (RowColSumMismatch (py_sum row_sums) (py_sum col_sums)))
  else if negb (py_sum row_bombs =? py_sum col_bombs)
  then Some (Some (RowColBombMismatch (py_sum row_bombs) (py_sum col_bombs)))
  else
    res ← for_in (range 0 N) (λ (i : nat) (res : option SanityError),
             b ← row_bombs !! i;
             if negb ((0 <=? b) && (b <=? Z.of_nat N))
             then Some (Break (Some (RowBombsOutOfRange i)))
             else
               let nb := Z.of_nat N - b in
               s ← row_sums !! i;
               if negb ((nb * 1 <=? s) && (s <=? nb * 3))
               then Some (Break (Some (RowSumImpossible i nb)))
               else Some (Next res)) None;
    match res with
    | Some e => Some (Some e)
    | None =>
        for_in (range 0 N) (λ (j : nat) (res : option SanityError),
          b ← col_bombs !! j;
          if negb ((0 <=? b) && (b <=? Z.of_nat N))
          then Some (Break (Some (ColBombsOutOfRange j)))
          else
            let nb := Z.of_nat N - b in
            s ← col_sums !! j;
            if negb ((nb * 1 <=? s) && (s <=? nb * 3))
            then Some (Break (Some (ColSumImpossible j nb)))
            else Some (Next res)) None
    end.

(** ** The interactive loop

    [interactive_game] reads lines with [input] and writes with [print].
    The lines that the user types are a list; [input] at the end of the
    list raises [EOFError].  What the game prints is a list of [Output]
    values, one for each call of [print] (the five lines of [print_board]
    are one value, and the prints under [DEBUG], which is [False], are
    left out); a value carries the data that the text is formatted from.
    The conversions of text are builtins of Python and are parameters:
    [parse_ints s] is [list(map(int, s.split()))], [strip], [lower] and
    [int_of_string] are [str.strip], [str.lower] and [int]; their [None] is
    the [ValueError]. *)

Inductive Output (F : Type) : Type :=
  | OutBanner
  | OutAskConstraints
  | OutContradiction (err : SanityError)
  | OutBoard (opened : gmap (Z * Z) Z)
  | OutNoSolution
  | OutBoardCount (nsol : Z)
  | OutRecommend (step : Z) (best_rc : nat * nat) (st : Posterior F)
  | OutNoRecommendation
  | OutUserQuit
  | OutBadValue
  | OutGameOver.
Arguments OutBanner {F}.
Arguments OutAskConstraints {F}.
Arguments OutContradiction {F} err.
Arguments OutBoard {F} opened.
Arguments OutNoSolution {F}.
Arguments OutBoardCount {F} nsol.
Arguments OutRecommend {F} step best_rc st.
Arguments OutNoRecommendation {F}.
Arguments OutUserQuit {F}.
Arguments OutBadValue {F}.
Arguments OutGameOver {F}.

(** [input()] *)
Definition read_line (inputs : list string) : option (string * list string) :=
  match inputs with
  | [] => None
  | line :: inputs' => Some (line, inputs')
  end.

Section interactive_game.
Context {F : Type} `{FloatOps F}.
Variable parse_ints : string → option (list Z).
Variables strip lower : string → string.
Variable int_of_string : string → option Z.

Section game_loop.
Variables row_sums row_bombs col_sums col_bombs : list Z.

(** The [while True] loop, from its head, with the lines still to be read,
    the dictionary [opened], the counter [step] and what was printed so
    far.  The list [top_safe] is only read under [DEBUG].  Every turn that
    goes back to the head of the loop has read one line. *)
Fixpoint game_loop (inputs : list string) (opened : gmap (Z * Z) Z) (step : Z)
    (out : list (Output F)) : option (gmap (Z * Z) Z * Z * list (Output F)) :=
  let out := out ++ [OutBoard opened] in
  '(post, nsol) ← compute_posteriors row_sums row_bombs col_sums col_bombs opened;
  match post with
  | [] => Some (opened, step, out ++ [OutNoSolution])
  | _ =>
      let out := out ++ [OutBoardCount nsol] in
      match choose_next_safest post with
      | None => Some (opened, step, out ++ [OutNoRecommendation])
      | Some (best_rc, st) =>
          let out := out ++ [OutRecommend (step + 1) best_rc st] in
          match inputs with
          | [] => None
          | line :: inputs' =>
              let s := lower (strip line) in
              if decide (lower s = "q") then Some (opened, step, out ++ [OutUserQuit])
              else
                match int_of_string s with
                | None => game_loop inputs' opened step (out ++ [OutBadValue])
                | Some v =>
                    if negb (bool_decide (v ∈ [0; 1; 2; 3]))
                    then game_loop inputs' opened step (out ++ [OutBadValue])
                    else
                      let opened := <[coord best_rc.1 best_rc.2 := v]> opened in
                      let step := step + 1 in
                      if v =? 0 then Some (opened, step, out ++ [OutGameOver])
                      else game_loop inputs' opened step out
                end
          end
      end
  end.

End game_loop.

Definition interactive_game (inputs : list string)
    : option (gmap (Z * Z) Z * Z * list (Output F)) :=
  let out := [OutBanner; OutAskConstraints] in
  '(line, inputs) ← read_line inputs;
  row_sums ← parse_ints line;
  '(line, inputs) ← read_line inputs;
  row_bombs ← parse_ints line;
  '(line, inputs) ← read_line inputs;
  col_sums ← parse_ints line;
  '(line, inputs) ← read_line inputs;
  col_bombs ← parse_ints line;
  err ← sanity_check row_sums row_bombs col_sums col_bombs;
  match err with
  | Some e => Some (∅, 0, out ++ [OutContradiction e])
  | None => game_loop row_sums row_bombs col_sums col_bombs inputs ∅ 0 out
  end.

End interactive_game.

(** ** Specification vocabulary *)

(** [q] is a way to fill the cells [rest]: a fixed cell keeps its value, a
    free cell takes one of 0, 1, 2, 3. *)
Fixpoint fits (rest : list (option Z)) (q : list Z) : Prop :=
  match rest, q with
  | [], [] => True
  | Some v :: rest', x :: q' => x = v ∧ fits rest' q'
  | None :: rest', x :: q' => (0 ≤ x ≤ 3) ∧ fits rest' q'
  | _, _ => False
  end.

(** The sum of the values that [q] gives to the free cells of [rest]. *)
Fixpoint free_sum (rest : list (option Z)) (q : list Z) : Z :=
  match rest, q with
  | None :: rest', x :: q' => x + free_sum rest' q'
  | Some _ :: rest', _ :: q' => free_sum rest' q'
  | _, _ => 0
  end.

(** The number of bombs that [q] puts on the free cells of [rest]. *)
Fixpoint free_bombs (rest : list (option Z)) (q : list Z) : Z :=
  match rest, q with
  | None :: rest', x :: q' => (if x =? 0 then 1 else 0) + free_bombs rest' q'
  | Some _ :: rest', _ :: q' => free_bombs rest' q'
  | _, _ => 0
  end.

(** Sum and bomb count of the fixed cells of a line of the working grid. *)
Definition cell_sum (cells : list (option Z)) : Z :=
  foldr Z.add 0 (default 0 <$> cells).

Definition cell_zeros (cells : list (option Z)) : Z :=
  Z.of_nat (length (filter (λ x, x = Some 0) cells)).

(** Bomb count and non-bomb sum of a line of a board. *)
Definition bomb_count (l : list Z) : Z :=
  Z.of_nat (length (filter (λ v, v = 0) l)).

Definition nonbomb_sum (l : list Z) : Z :=
  foldr Z.add 0 (filter (λ v, v ≠ 0) l).

Definition line_sum (l : list Z) : Z := foldr Z.add 0 l.

(** Column [c] of a board, and of the working grid. *)
Definition column (g : Grid) (c : nat) : list Z :=
  (λ row, default 0 (row !! c)) <$> g.

Definition wcolumn (g : list (list (option Z))) (c : nat) : list (option Z) :=
  (λ row, mjoin (row !! c)) <$> g.

(** The revealed map of the data model: coordinates in the grid, values in
    0..3. *)
Definition wf_opened (opened : gmap (Z * Z) Z) : Prop :=
  ∀ i j v, opened !! (i, j) = Some v →
    (0 ≤ i < Z.of_nat N) ∧ (0 ≤ j < Z.of_nat N) ∧ (0 ≤ v ≤ 3).

(** A board of the data model. *)
Definition valid_board (row_sums row_bombs col_sums col_bombs : list Z)
    (opened : gmap (Z * Z) Z) (g : Grid) : Prop :=
  length g = N
  ∧ (∀ row, row ∈ g → length row = N ∧ ∀ v, v ∈ row → 0 ≤ v ≤ 3)
  ∧ (∀ r row, g !! r = Some row →
       row_bombs !! r = Some (bomb_count row)
       ∧ row_sums !! r = Some (nonbomb_sum row))
  ∧ (∀ c, (c < N)%nat →
       col_bombs !! c = Some (bomb_count (column g c))
       ∧ col_sums !! c = Some (nonbomb_sum (column g c)))
  ∧ (∀ k v, opened !! k = Some v →
       ∃ r c, k = coord r c ∧ grid_val g r c = Some v).

(** ** Closed forms of the loops of [dfs_row] *)

Definition shape5 {A} (g : list (list A)) : Prop :=
  length g = N ∧ Forall (λ row, length row = N) g.

Definition wf_store (st : Store) : Prop :=
  shape5 (grid st) ∧ length (col_sum st) = N ∧ length (col_bz st) = N.

Definition agrees (row_pat : list Z) (grow : list (option Z)) : bool :=
  forallb (λ vp : Z * option Z, negb (bool_decide (vp.2 ≠ None ∧ vp.2 ≠ Some vp.1)))
          (zip row_pat grow).

Definition incr_sum_of (row_pat : list Z) (grow : list (option Z)) : list Z :=
  zip_with (λ v prev, v - default 0 prev) row_pat grow.

Definition incr_bz_of (row_pat : list Z) (grow : list (option Z)) : list Z :=
  zip_with (λ v prev, (if v =? 0 then 1 else 0)
                      - (if bool_decide (prev = Some 0) then 1 else 0))
           row_pat grow.

(** A row of the working grid once a pattern is written into it. *)
Definition fixed_row (p : list Z) : list (option Z) := Some <$> p.

Definition placed (r : nat) (row_pat incr_sum incr_bz : list Z) (st : Store) : Store :=
  MkStore (st_opened st) (<[r := fixed_row row_pat]> (grid st))
          (zip_with Z.add (col_sum st) incr_sum)
          (zip_with Z.add (col_bz st) incr_bz)
          (solutions st).

Definition unplaced (r : nat) (incr_sum incr_bz : list Z) (st : Store) : Store :=
  MkStore (st_opened st) (<[r := row_fixed_of r (st_opened st)]> (grid st))
          (zip_with Z.sub (col_sum st) incr_sum)
          (zip_with Z.sub (col_bz st) incr_bz)
          (solutions st).

Definition col_feasible (col_sums col_bombs : list Z) (r : nat) (st : Store) (c : nat)
    : bool :=
  match _col_bounds_so_far (col_sums !!! c) (col_bombs !!! c)
          (col_sum st !!! c) (col_bz st !!! c)
          (count_unfixed (drop (r + 1) (wcolumn (grid st) c))) with
  | None => false
  | Some (lo, hi) => (lo <=? col_sums !!! c) && (col_sums !!! c <=? hi)
  end.

Definition prune_ok (col_sums col_bombs : list Z) (r : nat) (st : Store) : bool :=
  forallb (col_feasible col_sums col_bombs r st) (range 0 N).

Definition final_ok (col_sums col_bombs : list Z) (st : Store) : bool :=
  forallb (λ c, (col_sum st !!! c =? col_sums !!! c)
                && (col_bz st !!! c =? col_bombs !!! c)) (range 0 N).

(** The column totals kept in [col_sum] and [col_bz]. *)
Definition col_totals (g : list (list (option Z))) : list Z :=
  (λ c, cell_sum (wcolumn g c)) <$> range 0 N.

Definition col_zeros (g : list (list (option Z))) : list Z :=
  (λ c, cell_zeros (wcolumn g c)) <$> range 0 N.

(** The store of [dfs_row] once the rows of [prefix] are placed. *)
Definition grid_at (opened : gmap (Z * Z) Z) (prefix : list (list Z))
    : list (list (option Z)) :=
  (fixed_row <$> prefix) ++ drop (length prefix) (grid (init_store opened)).

Definition store_at (opened : gmap (Z * Z) Z) (prefix : list (list Z))
    (sols : list Grid) : Store :=
  MkStore opened (grid_at opened prefix) (col_totals (grid_at opened prefix))
          (col_zeros (grid_at opened prefix)) sols.

(** The column constraints, met exactly. *)
Definition cols_exact (col_sums col_bombs : list Z) (b : Grid) : Prop :=
  ∀ c, (c < N)%nat →
    col_sums !! c = Some (line_sum (column b c))
    ∧ col_bombs !! c = Some (bomb_count (column b c)).

(** The patterns of row [r], as [_enumerate_row_patterns] returns them when
    the constraint lists are long enough. *)
Definition row_patterns_of (row_sums row_bombs : list Z) (opened : gmap (Z * Z) Z)
    (r : nat) : list (list Z) :=
  dfs (row_fixed_of r opened)
      (row_sums !!! r - opened_row_sum r opened)
      (row_bombs !!! r - opened_row_bombs r opened) [].

(** The number of boards of [sols] that hold [v] at the coordinate [rc], and
    the tallies that the counting loop reaches. *)
Definition count_val (sols : list Grid) (rc : nat * nat) (v : Z) : Z :=
  Z.of_nat (length (filter (λ g, grid_val g rc.1 rc.2 = Some v) sols)).

Definition tally_of (sols : list Grid) (rc : nat * nat) : Tally :=
  MkTally (count_val sols rc 0) (count_val sols rc 1)
          (count_val sols rc 2) (count_val sols rc 3).

(** Row-major order on coordinates. *)
Definition row_major_lt (a b : nat * nat) : Prop :=
  (a.1 < b.1)%nat ∨ (a.1 = b.1 ∧ (a.2 < b.2)%nat).

(** The posterior map that [compute_posteriors] builds from the boards. *)
Definition posteriors_of {F : Type} `{FloatOps F} (opened : gmap (Z * Z) Z)
    (sols : list Grid) : list (nat * nat * Posterior F) :=
  (λ rc, (rc, posterior_of (tally_sum (tally_of sols rc)) (tally_of sols rc)))
    <$> targets_of opened.

(** The comparisons of floats that are no NaN: [fltb] is a strict order
    that is total up to [feqb], and [fneg] reverses it. *)
Class FloatOrder (F : Type) `{FloatOps F} : Prop := {
  feqb_refl : ∀ a : F, feqb a a = true;
  feqb_sym : ∀ a b : F, feqb a b = true → feqb b a = true;
  feqb_trans : ∀ a b c : F, feqb a b = true → feqb b c = true → feqb a c = true;
  fltb_trans : ∀ a b c : F, fltb a b = true → fltb b c = true → fltb a c = true;
  fltb_not_eq : ∀ a b : F, fltb a b = true → feqb a b = false;
  fltb_total : ∀ a b : F, feqb a b = false → fltb a b = true ∨ fltb b a = true;
  fltb_eq_l : ∀ a a' b : F, feqb a a' = true → fltb a b = fltb a' b;
  fltb_eq_r : ∀ a b b' : F, feqb b b' = true → fltb a b = fltb a b';
  fneg_lt : ∀ a b : F, fltb (fneg a) (fneg b) = fltb b a;
  fneg_eq : ∀ a b : F, feqb (fneg a) (fneg b) = feqb a b
}.

(** The ways to pick one pattern per row. *)
Fixpoint choices (rows : list (list (list Z))) : list Grid :=
  match rows with
  | [] => [[]]
  | pats :: rows' => p ← pats; b ← choices rows'; [p :: b]
  end.

(** ** The values of floats

    [fval] is the rational that a float stands for.  A correctly rounded
    operation of binary64 arithmetic whose exact result is a normal number
    has a relative error of at most [float_u], that is 2^-53: this holds for
    the true division of two integers up to 4^25 whose quotient is at most
    1, and for the sum of two floats between 0 and 2. *)

Section float_values.
Import QArith_base.
Local Open Scope Z_scope.

Definition float_u : Q := Qmake 1 9007199254740992.

Definition tolerance : Q := Qmake 1 1000000000.

Definition ratio (a b : Z) : Q := (inject_Z a / inject_Z b)%Q.

Definition rounds_to (x exact : Q) : Prop :=
  ((1 - float_u) * exact <= x)%Q ∧ (x <= (1 + float_u) * exact)%Q.

Class FloatValue (F : Type) := { fval : F → Q }.

Class FloatRounding (F : Type) `{FloatOps F} `{FloatValue F} : Prop := {
  fdiv_int_rounds : ∀ a b : Z,
    0 ≤ a ≤ b → 0 < b ≤ 1125899906842624 →
    rounds_to (fval (fdiv_int a b)) (ratio a b);
  fadd_rounds : ∀ x y : F,
    (0 <= fval x)%Q ∧ (fval x <= 2)%Q → (0 <= fval y)%Q ∧ (fval y <= 2)%Q →
    rounds_to (fval (fadd x y)) (fval x + fval y)%Q
}.

Definition Q_value : FloatValue Q := {| fval := λ q, q |}.

(** The sum of four values, and a value within 1e-9 of 1. *)
Definition sum4 (a b c d : Q) : Q := (a + b + c + d)%Q.

Definition within_tolerance (x : Q) : Prop := (Qabs.Qabs (x - 1) <= tolerance)%Q.

End float_values.

(** ** Vocabulary of the further properties *)

(** A line of [N] cells with [b] bombs can have the sum [s]. *)
Definition line_ok (b s : Z) : Prop :=
  0 ≤ b ≤ Z.of_nat N ∧ (Z.of_nat N - b) * 1 ≤ s ≤ (Z.of_nat N - b) * 3.

(** The order [<] of Python on lists: the first items that differ decide,
    and a proper prefix comes first. *)
Fixpoint lex_lt {A} (lt : relation A) (l1 l2 : list A) : Prop :=
  match l1, l2 with
  | [], _ :: _ => True
  | x1 :: l1', x2 :: l2' => lt x1 x2 ∨ (x1 = x2 ∧ lex_lt lt l1' l2')
  | _, _ => False
  end.

(** Rows as lists of integers, boards as lists of rows. *)
Definition row_lt : relation (list Z) := lex_lt Z.lt.

Definition board_lt : relation Grid := lex_lt row_lt.

(** The first test of [dfs]: [rem_bombs] bombs and the sum [rem_sum] can
    be put on [k] free cells. *)
Definition feasible (k rem_sum rem_bombs : Z) : Prop :=
  0 ≤ rem_bombs ≤ k ∧ (k - rem_bombs) * 1 ≤ rem_sum ≤ (k - rem_bombs) * 3.

(** The exact column constraints can be decided. *)
#[global] Instance cols_exact_dec (col_sums col_bombs : list Z) (b : Grid) :
  Decision (cols_exact col_sums col_bombs b).
Proof.
  refine (cast_if (decide (Forall (λ c,
            col_sums !! c = Some (line_sum (column b c))
            ∧ col_bombs !! c = Some (bomb_count (column b c))) (range 0 N))));
    unfold cols_exact; rewrite Forall_forall in *.
  - intros c Hc. apply f. unfold range. apply elem_of_seq. lia.
  - intros Hall. apply n. intros c Hc%elem_of_seq. apply Hall. lia.
Defined.

(** The sum of [f c] over the columns [c] of [cs]. *)
Definition total_over (cs : list nat) (f : nat → Z) : Z :=
  foldr (λ c acc, f c + acc) 0 cs.

(** The comparisons of floats that are no NaN compare the values, and the
    negation of a float is exact. *)
Section float_compare.
Import QArith_base.
Local Open Scope Z_scope.

Class FloatCompare (F : Type) `{FloatOps F} `{FloatValue F} : Prop := {
  fltb_value : ∀ a b : F, fltb a b = true ↔ (fval a < fval b)%Q;
  feqb_value : ∀ a b : F, feqb a b = true ↔ (fval a == fval b)%Q;
  fneg_value : ∀ a : F, (fval (fneg a) == - fval a)%Q
}.

End float_compare.

(** No revealed cell holds a bomb. *)
Definition no_bomb (opened : gmap (Z * Z) Z) : Prop :=
  ∀ k v, opened !! k = Some v → v ≠ 0.

(** Stand-ins for the builtins, for runs of the game on lines of digits
    without blanks: a line of constraints is read digit by digit, an answer
    is one digit, and [strip] and [lower] change nothing. *)
Definition digit_of_ascii (a : Ascii.ascii) : Z := Z.of_nat (Ascii.nat_of_ascii a) - 48.

Definition digits_of (s : string) : option (list Z) :=
  Some (digit_of_ascii <$> String.list_ascii_of_string s).

Definition digit_of (s : string) : option Z :=
  match s with
  | String a EmptyString =>
      if (0 <=? digit_of_ascii a) && (digit_of_ascii a <=? 9)
      then Some (digit_of_ascii a) else None
  | _ => None
  end.

(** ** The embedding on concrete puzzles *)

(** A row of five bombs has the single pattern of five bombs. *)
Example forced_row :
  _enumerate_row_patterns 0 [0; 5; 5; 5; 5] [5; 0; 0; 0; 0] [4; 4; 4; 4; 4]
    [1; 1; 1; 1; 1] ∅ = Some [[0; 0; 0; 0; 0]].
Proof. reflexivity. Qed.

(** A revealed cell is kept and is not counted again: with a revealed 3, a
    sum of 5 and three bombs, the four free cells hold one 2 and three
    bombs.  The patterns come in the order of the search, bombs first. *)
Example revealed_row :
  _enumerate_row_patterns 1 [9; 5; 9; 9; 9] [0; 3; 0; 0; 0] [7; 7; 9; 9; 9]
    [1; 1; 1; 0; 0] {[ (1, 0) := 3 ]}
  = Some [[3; 0; 0; 0; 2]; [3; 0; 0; 2; 0]; [3; 0; 2; 0; 0]; [3; 2; 0; 0; 0]].
Proof. vm_compute. reflexivity. Qed.

(** Two boards: the two 2s of rows 0 and 1 go to columns 0 and 1. *)
Example two_boards :
  _enumerate_all_boards [6; 6; 5; 5; 5] [0; 0; 0; 0; 0] [6; 6; 5; 5; 5] [0; 0; 0; 0; 0] ∅
  = Some [[[1; 2; 1; 1; 1]; [2; 1; 1; 1; 1]; [1; 1; 1; 1; 1]; [1; 1; 1; 1; 1];
           [1; 1; 1; 1; 1]];
          [[2; 1; 1; 1; 1]; [1; 2; 1; 1; 1]; [1; 1; 1; 1; 1]; [1; 1; 1; 1; 1];
           [1; 1; 1; 1; 1]]].
Proof. vm_compute. reflexivity. Qed.

(** Revealing the 2 at [(0, 0)] leaves one of them. *)
Example two_boards_revealed :
  _enumerate_all_boards [6; 6; 5; 5; 5] [0; 0; 0; 0; 0] [6; 6; 5; 5; 5] [0; 0; 0; 0; 0]
    {[ (0, 0) := 2 ]}
  = Some [[[2; 1; 1; 1; 1]; [1; 2; 1; 1; 1]; [1; 1; 1; 1; 1]; [1; 1; 1; 1; 1];
           [1; 1; 1; 1; 1]]].
Proof. vm_compute. reflexivity. Qed.

(** On the two boards every cell has bomb probability 0, and the cells
    [(0, 0)], [(0, 1)], [(1, 0)], [(1, 1)] share the largest expected value
    3/2: the first of them in row-major order is chosen. *)
Example two_boards_choice :
  (λ pn, fst <$> choose_next_safest (H:=Q_ops) pn.1)
    <$> compute_posteriors (H:=Q_ops) [6; 6; 5; 5; 5] [0; 0; 0; 0; 0]
          [6; 6; 5; 5; 5] [0; 0; 0; 0; 0] ∅
  = Some (Some (0%nat, 0%nat)).
Proof. vm_compute. reflexivity. Qed.

(** A constraint list that is too short raises. *)
Example short_list_raises :
  _enumerate_all_boards [6; 6; 5; 5] [0; 0; 0; 0; 0] [6; 6; 5; 5; 5] [0; 0; 0; 0; 0] ∅
  = None.
Proof. reflexivity. Qed.

(** A key outside the grid is no revealed cell of the data model, but
    [_row_remaining] counts its value in the sum of its row: here it turns
    a puzzle without board into one with a board. *)
Example key_outside_grid :
  _enumerate_all_boards [8; 5; 5; 5; 5] [0; 0; 0; 0; 0] [5; 5; 5; 5; 5] [0; 0; 0; 0; 0] ∅
  = Some []
  ∧ _enumerate_all_boards [8; 5; 5; 5; 5] [0; 0; 0; 0; 0] [5; 5; 5; 5; 5] [0; 0; 0; 0; 0]
      {[ (0, 7) := 3 ]}
    = Some [[[1; 1; 1; 1; 1]; [1; 1; 1; 1; 1]; [1; 1; 1; 1; 1]; [1; 1; 1; 1; 1];
             [1; 1; 1; 1; 1]]].
Proof. split; vm_compute; reflexivity. Qed.

(** Constraint lists that [sanity_check] lets pass and that have no board:
    row 0 is all bombs, and so is column 0, but the other columns have no
    bomb. *)
Example sanity_passes_without_board :
  sanity_check [0; 5; 5; 5; 5] [5; 0; 0; 0; 0] [0; 5; 5; 5; 5] [5; 0; 0; 0; 0] = Some None
  ∧ _enumerate_all_boards [0; 5; 5; 5; 5] [5; 0; 0; 0; 0] [0; 5; 5; 5; 5] [5; 0; 0; 0; 0] ∅
    = Some [].
Proof. split; vm_compute; reflexivity. Qed.

(** ** Row patterns *)

Lemma count_unfixed_Some v rest : count_unfixed (Some v :: rest) = count_unfixed rest.
Proof. unfold count_unfixed. rewrite filter_cons_False; [done | discriminate]. Qed.

Lemma count_unfixed_None rest : count_unfixed (None :: rest) = 1 + count_unfixed rest.
Proof.
  unfold count_unfixed. rewrite filter_cons_True by done. simpl length. lia.
Qed.

Lemma fits_bounds rest q :
  fits rest q →
  0 ≤ free_bombs rest q ≤ count_unfixed rest
  ∧ count_unfixed rest - free_bombs rest q ≤ free_sum rest q
  ∧ free_sum rest q ≤ 3 * (count_unfixed rest - free_bombs rest q).
Proof.
  revert q. induction rest as [|[v|] rest IH]; intros [|x q] Hf; simpl in Hf; try done.
  - destruct Hf as [_ Hf]. specialize (IH _ Hf). rewrite count_unfixed_Some. simpl. lia.
  - destruct Hf as [Hx Hf]. specialize (IH _ Hf). rewrite count_unfixed_None. simpl.
    destruct (Z.eqb_spec x 0); lia.
Qed.

Lemma fits_length rest q : fits rest q → length q = length rest.
Proof.
  revert q. induction rest as [|[v|] rest IH]; intros [|x q] Hf; simpl in *; try done;
    destruct Hf as [_ Hf]; f_equal; auto.
Qed.

Lemma dfs_unfold rest rem_sum rem_bombs acc :
  dfs rest rem_sum rem_bombs acc =
  if (rem_bombs <? 0) || (rem_bombs >? count_unfixed rest) then []
  else
    if (rem_sum <? (count_unfixed rest - rem_bombs) * 1)
       || (rem_sum >? (count_unfixed rest - rem_bombs) * 3) then []
    else
      match rest with
      | [] => if (rem_sum =? 0) && (rem_bombs =? 0) then [acc] else []
      | Some v :: rest' => dfs rest' rem_sum rem_bombs (acc ++ [v])
      | None :: rest' =>
          (if rem_bombs >? 0 then dfs rest' rem_sum (rem_bombs - 1) (acc ++ [0])
           else [])
          ++ ([1; 2; 3] ≫= λ v,
                if (rem_sum - v <? Z.max 0 (count_unfixed rest - 1 - rem_bombs) * 1)
                   || (rem_sum - v >? Z.max 0 (count_unfixed rest - 1 - rem_bombs) * 3)
                then []
                else dfs rest' (rem_sum - v) rem_bombs (acc ++ [v]))
      end.
Proof. destruct rest as [|[v|] rest]; reflexivity. Qed.

Lemma dfs_sound rest : ∀ s b acc p,
  p ∈ dfs rest s b acc →
  ∃ q, p = acc ++ q ∧ fits rest q ∧ free_sum rest q = s ∧ free_bombs rest q = b.
Proof.
  induction rest as [|[v|] rest IH]; intros s b acc p; rewrite dfs_unfold;
    (destruct (_ || _); [by intros ?%elem_of_nil|]);
    (destruct (_ || _); [by intros ?%elem_of_nil|]).
  - destruct (_ && _) eqn:E; [|by intros ?%elem_of_nil].
    apply andb_true_iff in E as [Es%Z.eqb_eq Eb%Z.eqb_eq].
    intros ->%list_elem_of_singleton.
    exists []. rewrite app_nil_r. simpl. done.
  - intros (q & -> & Hf & Hs & Hb)%IH. exists (v :: q).
    rewrite <- app_assoc. simpl. done.
  - rewrite elem_of_app. intros [Hp | Hp].
    + destruct (b >? 0) eqn:E; [|by apply elem_of_nil in Hp].
      apply IH in Hp as (q & -> & Hf & Hs & Hb).
      exists (0 :: q). rewrite <- app_assoc. simpl. repeat split; try done; lia.
    + apply list_elem_of_bind in Hp as (v & Hp & Hv).
      destruct (_ || _); [by apply elem_of_nil in Hp|].
      apply IH in Hp as (q & -> & Hf & Hs & Hb).
      exists (v :: q). rewrite <- app_assoc. simpl.
      repeat (apply elem_of_cons in Hv as [-> | Hv]); [| | |by apply elem_of_nil in Hv];
        simpl; repeat split; try done; lia.
Qed.

Lemma range_check_false x lo hi : lo ≤ x ≤ hi → (x <? lo) || (x >? hi) = false.
Proof. intros H. apply orb_false_iff. rewrite Z.gtb_ltb, !Z.ltb_ge. lia. Qed.

Lemma dfs_complete rest : ∀ q acc,
  fits rest q → acc ++ q ∈ dfs rest (free_sum rest q) (free_bombs rest q) acc.
Proof.
  induction rest as [|[v|] rest IH]; intros q acc Hf; rewrite dfs_unfold;
    pose proof (fits_bounds _ _ Hf) as Hb;
    rewrite !range_check_false by lia.
  - destruct q; [|done]. simpl. rewrite app_nil_r. by apply list_elem_of_singleton.
  - destruct q as [|x q]; [done|]. destruct Hf as [-> Hf]. simpl.
    rewrite (cons_middle v acc q), app_assoc. by apply IH.
  - destruct q as [|x q]; [done|]. destruct Hf as [Hx Hf].
    cbn [fits free_sum free_bombs] in *.
    pose proof (fits_bounds _ _ Hf) as Hb'. rewrite count_unfixed_None in *.
    rewrite (cons_middle x acc q), app_assoc. rewrite elem_of_app.
    destruct (Z.eqb_spec x 0) as [-> | Hne].
    + left. rewrite (proj2 (Z.gtb_gt _ _)) by lia.
      replace (1 + free_bombs rest q - 1) with (free_bombs rest q) by lia.
      replace (0 + free_sum rest q) with (free_sum rest q) by lia. by apply IH.
    + right. apply list_elem_of_bind. exists x.
      split; [|assert (x = 1 ∨ x = 2 ∨ x = 3) as [-> | [-> | ->]] by lia;
               repeat constructor].
      replace (x + free_sum rest q - x) with (free_sum rest q) by lia.
      replace (0 + free_bombs rest q) with (free_bombs rest q) by lia.
      rewrite range_check_false by lia.
      by apply IH.
Qed.

Lemma dfs_tag rest s b acc v p :
  p ∈ dfs rest s b (acc ++ [v]) → p !! length acc = Some v.
Proof.
  intros (q & -> & _)%dfs_sound. rewrite <- app_assoc.
  rewrite lookup_app_r by lia. by rewrite Nat.sub_diag.
Qed.

Lemma dfs_NoDup rest : ∀ s b acc, NoDup (dfs rest s b acc).
Proof.
  induction rest as [|[v|] rest IH]; intros s b acc; rewrite dfs_unfold;
    (destruct (_ || _); [constructor|]); (destruct (_ || _); [constructor|]).
  - destruct (_ && _); [apply NoDup_singleton | constructor].
  - apply IH.
  - apply NoDup_app. split_and!.
    + destruct (b >? 0); [apply IH | constructor].
    + intros p Hp Hp'. destruct (b >? 0); [|by apply elem_of_nil in Hp].
      apply dfs_tag in Hp. apply list_elem_of_bind in Hp' as (v & Hp' & Hv).
      destruct (_ || _); [by apply elem_of_nil in Hp'|].
      apply dfs_tag in Hp'. rewrite Hp in Hp'. injection Hp' as <-.
      repeat (apply elem_of_cons in Hv as [? | Hv]; [done|]).
      by apply elem_of_nil in Hv.
    + apply NoDup_bind.
      * intros v1 v2 p _ _ Hp1 Hp2.
        destruct (_ || _); [by apply elem_of_nil in Hp1|].
        destruct (_ || _); [by apply elem_of_nil in Hp2|].
        apply dfs_tag in Hp1, Hp2. congruence.
      * intros v _. destruct (_ || _); [constructor | apply IH].
      * repeat (constructor; [set_solver by lia|]). constructor.
Qed.

(** ** The sums over the items of [opened] *)

Lemma opened_row_sum_insert (r : nat) (k : Z * Z) (v : Z) (m : gmap (Z * Z) Z) :
  m !! k = None →
  opened_row_sum r (<[k := v]> m)
  = if decide (k.1 = Z.of_nat r) then opened_row_sum r m + v else opened_row_sum r m.
Proof.
  intros Hk. unfold opened_row_sum.
  rewrite map_fold_insert_L; [done | | done].
  intros. repeat case_decide; lia.
Qed.

Lemma opened_row_bombs_insert (r : nat) (k : Z * Z) (v : Z) (m : gmap (Z * Z) Z) :
  m !! k = None →
  opened_row_bombs r (<[k := v]> m)
  = if decide (k.1 = Z.of_nat r ∧ v = 0) then opened_row_bombs r m + 1
    else opened_row_bombs r m.
Proof.
  intros Hk. unfold opened_row_bombs.
  rewrite map_fold_insert_L; [done | | done].
  intros. repeat case_decide; lia.
Qed.

Lemma opened_row_bombs_nonneg (r : nat) (m : gmap (Z * Z) Z) : 0 ≤ opened_row_bombs r m.
Proof.
  induction m as [|k v m Hk IH] using map_ind.
  - unfold opened_row_bombs. by rewrite map_fold_empty.
  - rewrite opened_row_bombs_insert by done. case_decide; lia.
Qed.

Lemma opened_row_bombs_pos (r : nat) (j : Z) (m : gmap (Z * Z) Z) :
  m !! (Z.of_nat r, j) = Some 0 → 1 ≤ opened_row_bombs r m.
Proof.
  intros Hk. rewrite <- (insert_delete_id m _ _ Hk).
  rewrite opened_row_bombs_insert by apply lookup_delete_eq.
  pose proof (opened_row_bombs_nonneg r (delete (Z.of_nat r, j) m)).
  rewrite decide_True by done. lia.
Qed.

Lemma opened_row_sum_none (r : nat) (m : gmap (Z * Z) Z) :
  (∀ j, m !! (Z.of_nat r, j) = None) → opened_row_sum r m = 0.
Proof.
  induction m as [|k v m Hk IH] using map_ind; intros Hrow.
  - unfold opened_row_sum. by rewrite map_fold_empty.
  - rewrite opened_row_sum_insert by done.
    assert (k.1 ≠ Z.of_nat r) as Hne.
    { intros Heq. specialize (Hrow k.2). rewrite <- Heq in Hrow.
      destruct k. simpl in Hrow. by rewrite lookup_insert_eq in Hrow. }
    rewrite decide_False by done. apply IH. intros j. specialize (Hrow j).
    rewrite lookup_insert_ne in Hrow; [done|]. intros ->. done.
Qed.

Lemma opened_row_bombs_none (r : nat) (m : gmap (Z * Z) Z) :
  (∀ j, m !! (Z.of_nat r, j) = None) → opened_row_bombs r m = 0.
Proof.
  induction m as [|k v m Hk IH] using map_ind; intros Hrow.
  - unfold opened_row_bombs. by rewrite map_fold_empty.
  - rewrite opened_row_bombs_insert by done.
    assert (k.1 ≠ Z.of_nat r) as Hne.
    { intros Heq. specialize (Hrow k.2). rewrite <- Heq in Hrow.
      destruct k. simpl in Hrow. by rewrite lookup_insert_eq in Hrow. }
    rewrite decide_False by tauto. apply IH. intros j. specialize (Hrow j).
    rewrite lookup_insert_ne in Hrow; [done|]. intros ->. done.
Qed.

Lemma wf_opened_insert (k : Z * Z) (v : Z) (m : gmap (Z * Z) Z) :
  m !! k = None → wf_opened (<[k := v]> m) →
  wf_opened m ∧ (0 ≤ k.1 < 5) ∧ (0 ≤ k.2 < 5) ∧ (0 ≤ v ≤ 3).
Proof.
  intros Hk Hwf. split.
  - intros i j w Hw. apply (Hwf i j w). rewrite lookup_insert_ne; [done|].
    intros ->. congruence.
  - destruct k as [i j]. apply (Hwf i j v). by rewrite lookup_insert_eq.
Qed.

Ltac norm_index :=
  change (Z.of_nat 0) with 0 in *; change (Z.of_nat 1) with 1 in *;
  change (Z.of_nat 2) with 2 in *; change (Z.of_nat 3) with 3 in *;
  change (Z.of_nat 4) with 4 in *.

Ltac case_range j :=
  assert (j = 0 ∨ j = 1 ∨ j = 2 ∨ j = 3 ∨ j = 4) as [-> | [-> | [-> | [-> | ->]]]] by lia.

Lemma row_fixed_of_insert_other (r : nat) (k : Z * Z) (v : Z) (m : gmap (Z * Z) Z) :
  k.1 ≠ Z.of_nat r → row_fixed_of r (<[k := v]> m) = row_fixed_of r m.
Proof.
  intros Hne. unfold row_fixed_of. apply list_fmap_ext. intros _ c _.
  rewrite lookup_insert_ne; [done|]. intros ->. done.
Qed.

Lemma cell_sum_cons x cells : cell_sum (x :: cells) = default 0 x + cell_sum cells.
Proof. reflexivity. Qed.

Lemma cell_zeros_cons x cells :
  cell_zeros (x :: cells) = (if decide (x = Some 0) then 1 else 0) + cell_zeros cells.
Proof.
  unfold cell_zeros. rewrite filter_cons. case_decide; cbn [length]; lia.
Qed.

Lemma opened_row_cells (r : nat) (m : gmap (Z * Z) Z) :
  wf_opened m →
  opened_row_sum r m = cell_sum (row_fixed_of r m)
  ∧ opened_row_bombs r m = cell_zeros (row_fixed_of r m).
Proof.
  induction m as [|k v m Hk IH] using map_ind; intros Hwf.
  - unfold opened_row_sum, opened_row_bombs. rewrite !map_fold_empty. done.
  - apply wf_opened_insert in Hwf as (Hwf & Hi & Hj & Hv); [|done].
    destruct (IH Hwf) as [IHs IHb].
    rewrite opened_row_sum_insert, opened_row_bombs_insert by done.
    destruct (decide (k.1 = Z.of_nat r)) as [Heq | Hne].
    2:{ rewrite row_fixed_of_insert_other by done.
        rewrite decide_False by tauto. done. }
    destruct k as [i j]. simpl in *. subst i.
    rewrite IHs, IHb. clear IH IHs IHb.
    unfold row_fixed_of, coord in *.
    cbn [range seq N Nat.sub fmap list_fmap] in *.
    rewrite !cell_sum_cons, !cell_zeros_cons.
    case_range j; norm_index;
      rewrite !lookup_insert_eq, !lookup_insert_ne by (intros [=]);
      rewrite Hk; cbn [from_option id];
      repeat case_decide; simplify_eq; try lia; naive_solver.
Qed.

Ltac list5 l H :=
  let a := fresh l "0" in let b := fresh l "1" in let c := fresh l "2" in
  let d := fresh l "3" in let e := fresh l "4" in
  destruct l as [|a [|b [|c [|d [|e [|? ?]]]]]]; try discriminate H; clear H.

Ltac nat5 r H :=
  destruct r as [|[|[|[|[|r]]]]]; [| | | | |exfalso; unfold N in H; lia].

Lemma check_pattern_closed (r : nat) (row_pat : list Z) (st : Store)
    (grow : list (option Z)) :
  grid st !! r = Some grow → length grow = N → length row_pat = N →
  ∃ incr_sum incr_bz,
    check_pattern r row_pat st = Some (agrees row_pat grow, incr_sum, incr_bz)
    ∧ (agrees row_pat grow = true →
       incr_sum = incr_sum_of row_pat grow ∧ incr_bz = incr_bz_of row_pat grow).
Proof.
  intros Hg Hlg Hlp. list5 grow Hlg. list5 row_pat Hlp.
  unfold check_pattern, grid_get, agrees, incr_sum_of, incr_bz_of. rewrite Hg.
  cbn -[bool_decide Z.sub Z.eqb].
  repeat (destruct (bool_decide (_ ∧ _));
          [cbn -[bool_decide Z.sub Z.eqb]; eexists _, _; split; [reflexivity | discriminate]
          |cbn -[bool_decide Z.sub Z.eqb]]).
  eexists _, _. split; [reflexivity|]. intros _. split; reflexivity.
Qed.

Lemma apply_pattern_closed (r : nat) (row_pat incr_sum incr_bz : list Z) (st : Store) :
  wf_store st → (r < N)%nat →
  length row_pat = N → length incr_sum = N → length incr_bz = N →
  apply_pattern r row_pat incr_sum incr_bz st
  = Some (placed r row_pat incr_sum incr_bz st).
Proof.
  intros ([Hlen Hrows] & Hcs & Hcb) Hr Hp His Hib.
  destruct st as [o g cs cb sols]. cbn [grid col_sum col_bz] in *.
  list5 row_pat Hp. list5 incr_sum His. list5 incr_bz Hib.
  list5 cs Hcs. list5 cb Hcb. list5 g Hlen.
  repeat match goal with
  | H : Forall _ (_ :: _) |- _ =>
      let Hh := fresh "Hrow" in apply Forall_cons in H as [Hh H]
  end.
  nat5 r Hr;
    [list5 g0 Hrow | list5 g1 Hrow0 | list5 g2 Hrow1 | list5 g3 Hrow2 | list5 g4 Hrow3];
    reflexivity.
Qed.

Lemma rollback_closed (r : nat) (incr_sum incr_bz : list Z) (st : Store) :
  wf_store st → (r < N)%nat →
  length incr_sum = N → length incr_bz = N →
  rollback r incr_sum incr_bz st = Some (unplaced r incr_sum incr_bz st).
Proof.
  intros ([Hlen Hrows] & Hcs & Hcb) Hr His Hib.
  destruct st as [o g cs cb sols]. cbn [grid col_sum col_bz] in *.
  list5 incr_sum His. list5 incr_bz Hib.
  list5 cs Hcs. list5 cb Hcb. list5 g Hlen.
  repeat match goal with
  | H : Forall _ (_ :: _) |- _ =>
      let Hh := fresh "Hrow" in apply Forall_cons in H as [Hh H]
  end.
  nat5 r Hr;
    [list5 g0 Hrow | list5 g1 Hrow0 | list5 g2 Hrow1 | list5 g3 Hrow2 | list5 g4 Hrow3];
    reflexivity.
Qed.

Section loops.
Variables col_sums col_bombs : list Z.
Hypothesis Hcs : length col_sums = N.
Hypothesis Hcb : length col_bombs = N.

Lemma final_check_closed (st : Store) :
  wf_store st → final_check col_sums col_bombs st = Some (final_ok col_sums col_bombs st).
Proof.
  intros (_ & Hs & Hb). destruct st as [o g cs cb sols]. cbn [grid col_sum col_bz] in *.
  pose proof Hcs as Hcs'. pose proof Hcb as Hcb'.
  list5 col_sums Hcs'. list5 col_bombs Hcb'. list5 cs Hs. list5 cb Hb.
  unfold final_check, final_ok. cbn -[Z.eqb].
  repeat (destruct (_ =? _); cbn -[Z.eqb]; try reflexivity).
Qed.

Lemma prune_columns_closed (r : nat) (st : Store) :
  wf_store st → (r < N)%nat →
  prune_columns col_sums col_bombs r st = Some (prune_ok col_sums col_bombs r st).
Proof.
  intros ([Hlen Hrows] & Hs & Hb) Hr.
  destruct st as [o g cs cb sols]. cbn [grid col_sum col_bz] in *.
  pose proof Hcs as Hcs'. pose proof Hcb as Hcb'.
  list5 col_sums Hcs'. list5 col_bombs Hcb'. list5 cs Hs. list5 cb Hb. list5 g Hlen.
  repeat match goal with
  | H : Forall _ (_ :: _) |- _ =>
      let Hh := fresh "Hrow" in apply Forall_cons in H as [Hh H]
  end.
  list5 g0 Hrow. list5 g1 Hrow0. list5 g2 Hrow1. list5 g3 Hrow2. list5 g4 Hrow3.
  unfold prune_columns, prune_ok, col_feasible, rows_left_of, count_unfixed.
  nat5 r Hr; cbn -[_col_bounds_so_far Z.leb filter];
    repeat (match goal with
            | |- context [_col_bounds_so_far ?a ?b ?c ?d ?e] =>
                destruct (_col_bounds_so_far a b c d e) as [[? ?]|]
            | |- context [(?x <=? ?y) && (?u <=? ?v)] =>
                destruct ((x <=? y) && (u <=? v))
            end; cbn -[_col_bounds_so_far Z.leb filter]; try reflexivity).
Qed.

End loops.

(** ** The store along the search *)

Lemma cell_sum_insert (cells : list (option Z)) (r : nat) (x y : option Z) :
  cells !! r = Some x →
  cell_sum (<[r := y]> cells) = cell_sum cells + (default 0 y - default 0 x).
Proof.
  revert r. induction cells as [|z cells IH]; intros [|r] Hr; simplify_eq/=.
  - rewrite !cell_sum_cons. lia.
  - rewrite !cell_sum_cons, (IH _ Hr). lia.
Qed.

Lemma cell_zeros_insert (cells : list (option Z)) (r : nat) (x y : option Z) :
  cells !! r = Some x →
  cell_zeros (<[r := y]> cells)
  = cell_zeros cells + ((if decide (y = Some 0) then 1 else 0)
                        - (if decide (x = Some 0) then 1 else 0)).
Proof.
  revert r. induction cells as [|z cells IH]; intros [|r] Hr; simplify_eq/=.
  - rewrite !cell_zeros_cons. lia.
  - rewrite !cell_zeros_cons, (IH _ Hr). lia.
Qed.

Lemma wcolumn_insert (g : list (list (option Z))) (r c : nat) (row : list (option Z)) :
  wcolumn (<[r := row]> g) c = <[r := mjoin (row !! c)]> (wcolumn g c).
Proof. unfold wcolumn. by rewrite list_fmap_insert. Qed.

Lemma wcolumn_lookup (g : list (list (option Z))) (r c : nat) (row : list (option Z)) :
  g !! r = Some row → wcolumn g c !! r = Some (mjoin (row !! c)).
Proof. intros Hr. unfold wcolumn. by rewrite list_lookup_fmap, Hr. Qed.

Lemma col_totals_insert (g : list (list (option Z))) (r : nat)
    (pat : list Z) (grow : list (option Z)) :
  g !! r = Some grow → length pat = N → length grow = N →
  col_totals (<[r := fixed_row pat]> g) = zip_with Z.add (col_totals g) (incr_sum_of pat grow).
Proof.
  intros Hg Hp Hgrow. list5 pat Hp. list5 grow Hgrow.
  unfold col_totals, incr_sum_of. cbn [range seq N Nat.sub fmap list_fmap zip_with].
  repeat (f_equal; [rewrite wcolumn_insert;
                    erewrite cell_sum_insert by (by apply wcolumn_lookup);
                    reflexivity|]).
  f_equal. rewrite wcolumn_insert.
  erewrite cell_sum_insert by (by apply wcolumn_lookup). reflexivity.
Qed.

Lemma col_zeros_insert (g : list (list (option Z))) (r : nat)
    (pat : list Z) (grow : list (option Z)) :
  g !! r = Some grow → length pat = N → length grow = N →
  col_zeros (<[r := fixed_row pat]> g) = zip_with Z.add (col_zeros g) (incr_bz_of pat grow).
Proof.
  intros Hg Hp Hgrow. list5 pat Hp. list5 grow Hgrow.
  unfold col_zeros, incr_bz_of. cbn [range seq N Nat.sub fmap list_fmap zip_with].
  assert (∀ (c : nat) (v : Z) (prev : option Z),
            [pat0; pat1; pat2; pat3; pat4] !! c = Some v →
            [grow0; grow1; grow2; grow3; grow4] !! c = Some prev →
            cell_zeros (wcolumn (<[r := fixed_row [pat0; pat1; pat2; pat3; pat4]]> g) c)
            = cell_zeros (wcolumn g c)
              + ((if v =? 0 then 1 else 0) - (if bool_decide (prev = Some 0) then 1 else 0)))
    as Hcol.
  { intros c v prev Hv Hprev. rewrite wcolumn_insert.
    erewrite cell_zeros_insert by (by apply wcolumn_lookup).
    unfold fixed_row. rewrite list_lookup_fmap, Hv, Hprev. cbn [fmap option_fmap option_map mjoin option_join].
    f_equal. f_equal.
    - case_decide; simplify_eq; [by rewrite Z.eqb_refl|].
      destruct (Z.eqb_spec v 0); congruence.
    - case_decide; case_bool_decide; done. }
  rewrite (Hcol 0%nat pat0 grow0), (Hcol 1%nat pat1 grow1), (Hcol 2%nat pat2 grow2),
    (Hcol 3%nat pat3 grow3), (Hcol 4%nat pat4 grow4) by reflexivity.
  reflexivity.
Qed.

Lemma grid0_eq (opened : gmap (Z * Z) Z) :
  grid (init_store opened) = (λ r, row_fixed_of r opened) <$> range 0 N.
Proof. reflexivity. Qed.

Lemma grid0_lookup (opened : gmap (Z * Z) Z) (r : nat) :
  (r < N)%nat → grid (init_store opened) !! r = Some (row_fixed_of r opened).
Proof.
  intros Hr. rewrite grid0_eq, list_lookup_fmap. unfold range.
  rewrite lookup_seq_lt by (unfold N in *; lia). done.
Qed.

Lemma grid0_length (opened : gmap (Z * Z) Z) : length (grid (init_store opened)) = N.
Proof. reflexivity. Qed.

Lemma row_fixed_of_length (r : nat) (opened : gmap (Z * Z) Z) :
  length (row_fixed_of r opened) = N.
Proof. reflexivity. Qed.

Lemma fixed_row_length (p : list Z) : length (fixed_row p) = length p.
Proof. unfold fixed_row. by rewrite length_fmap. Qed.

Lemma grid_at_length (opened : gmap (Z * Z) Z) (prefix : list (list Z)) :
  (length prefix ≤ N)%nat → length (grid_at opened prefix) = N.
Proof.
  intros Hle. unfold grid_at.
  rewrite length_app, length_fmap, length_drop, grid0_length. lia.
Qed.

Lemma grid_at_lookup (opened : gmap (Z * Z) Z) (prefix : list (list Z)) :
  (length prefix < N)%nat →
  grid_at opened prefix !! length prefix = Some (row_fixed_of (length prefix) opened).
Proof.
  intros Hlt. unfold grid_at.
  rewrite lookup_app_r by (rewrite length_fmap; lia).
  rewrite length_fmap, Nat.sub_diag, lookup_drop, Nat.add_0_r.
  by apply grid0_lookup.
Qed.

Lemma grid_at_snoc (opened : gmap (Z * Z) Z) (prefix : list (list Z)) (p : list Z) :
  (length prefix < N)%nat →
  grid_at opened (prefix ++ [p]) = <[length prefix := fixed_row p]> (grid_at opened prefix).
Proof.
  intros Hlt. unfold grid_at.
  rewrite (drop_S _ _ _ (grid0_lookup opened _ Hlt)).
  rewrite fmap_app, length_app. cbn [fmap list_fmap length].
  rewrite insert_app_r_alt by (rewrite length_fmap; lia).
  rewrite length_fmap, Nat.sub_diag. cbn [insert list_insert].
  rewrite <- app_assoc. cbn [app]. do 3 f_equal. lia.
Qed.

Lemma grid_at_unsnoc (opened : gmap (Z * Z) Z) (prefix : list (list Z)) (p : list Z) :
  (length prefix < N)%nat →
  <[length prefix := row_fixed_of (length prefix) opened]> (grid_at opened (prefix ++ [p]))
  = grid_at opened prefix.
Proof.
  intros Hlt. rewrite grid_at_snoc by done. rewrite list_insert_insert_eq.
  apply list_insert_id. by apply grid_at_lookup.
Qed.

Lemma grid_at_shape (opened : gmap (Z * Z) Z) (prefix : list (list Z)) :
  (length prefix ≤ N)%nat → Forall (λ p, length p = N) prefix →
  shape5 (grid_at opened prefix).
Proof.
  intros Hle Hp. split; [by apply grid_at_length|].
  unfold grid_at. apply Forall_app. split.
  - apply Forall_fmap. eapply Forall_impl; [exact Hp|].
    intros p Hl. simpl. by rewrite fixed_row_length.
  - apply Forall_drop. rewrite grid0_eq. apply Forall_fmap, Forall_forall.
    intros r _. apply row_fixed_of_length.
Qed.

Lemma store_at_wf (opened : gmap (Z * Z) Z) (prefix : list (list Z)) (sols : list Grid) :
  (length prefix ≤ N)%nat → Forall (λ p, length p = N) prefix →
  wf_store (store_at opened prefix sols).
Proof. intros Hle Hp. split; [by apply grid_at_shape | done]. Qed.

Lemma store_at_placed (opened : gmap (Z * Z) Z) (prefix : list (list Z)) (p : list Z)
    (sols : list Grid) :
  (length prefix < N)%nat → length p = N →
  placed (length prefix) p
    (incr_sum_of p (row_fixed_of (length prefix) opened))
    (incr_bz_of p (row_fixed_of (length prefix) opened))
    (store_at opened prefix sols)
  = store_at opened (prefix ++ [p]) sols.
Proof.
  intros Hlt Hp. unfold placed, store_at. cbn [st_opened grid col_sum col_bz solutions].
  rewrite grid_at_snoc by done.
  rewrite <- (col_totals_insert _ _ _ _ (grid_at_lookup opened prefix Hlt) Hp
                (row_fixed_of_length _ _)).
  rewrite <- (col_zeros_insert _ _ _ _ (grid_at_lookup opened prefix Hlt) Hp
                (row_fixed_of_length _ _)).
  reflexivity.
Qed.

Lemma zip_sub_add (a b : list Z) :
  length a = N → length b = N → zip_with Z.sub (zip_with Z.add a b) b = a.
Proof.
  intros Ha Hb. list5 a Ha. list5 b Hb. cbn [zip_with].
  repeat (f_equal; try lia).
Qed.

Lemma incr_sum_of_length (p : list Z) (grow : list (option Z)) :
  length p = N → length grow = N → length (incr_sum_of p grow) = N.
Proof. intros Hp Hg. unfold incr_sum_of. rewrite length_zip_with. lia. Qed.

Lemma incr_bz_of_length (p : list Z) (grow : list (option Z)) :
  length p = N → length grow = N → length (incr_bz_of p grow) = N.
Proof. intros Hp Hg. unfold incr_bz_of. rewrite length_zip_with. lia. Qed.

Lemma store_at_unplaced (opened : gmap (Z * Z) Z) (prefix : list (list Z)) (p : list Z)
    (sols : list Grid) :
  (length prefix < N)%nat → length p = N →
  unplaced (length prefix)
    (incr_sum_of p (row_fixed_of (length prefix) opened))
    (incr_bz_of p (row_fixed_of (length prefix) opened))
    (store_at opened (prefix ++ [p]) sols)
  = store_at opened prefix sols.
Proof.
  intros Hlt Hp. unfold unplaced, store_at. cbn [st_opened grid col_sum col_bz solutions].
  rewrite grid_at_unsnoc by done.
  rewrite grid_at_snoc by done.
  rewrite (col_totals_insert _ _ _ _ (grid_at_lookup opened prefix Hlt) Hp
             (row_fixed_of_length _ _)).
  rewrite (col_zeros_insert _ _ _ _ (grid_at_lookup opened prefix Hlt) Hp
             (row_fixed_of_length _ _)).
  rewrite !zip_sub_add;
    auto using incr_sum_of_length, incr_bz_of_length, row_fixed_of_length.
Qed.

Lemma length_filter_fmap {A B} (f : A → B) (P : B → Prop) `{!∀ x, Decision (P x)}
    (l : list A) :
  length (filter P (f <$> l)) = length (filter (λ x, P (f x)) l).
Proof.
  induction l as [|x l IH]; [done|]. cbn [fmap list_fmap].
  rewrite !filter_cons. repeat case_decide; cbn [length]; try done; by rewrite IH.
Qed.

Lemma init_store_at (opened : gmap (Z * Z) Z) : init_store opened = store_at opened [] [].
Proof.
  unfold init_store, store_at, grid_at. cbn [length drop app fmap list_fmap].
  f_equal.
  unfold col_zeros. apply list_fmap_ext. intros i c Hc.
  apply lookup_seq in Hc as [-> Hi]. cbn [Nat.add] in *.
  unfold cell_zeros, wcolumn. rewrite drop_0, grid0_eq, <- list_fmap_compose.
  rewrite length_filter_fmap. nat5 i Hi; reflexivity.
Qed.

(** ** Lines of a board against lines of the working grid *)

Lemma fits_lookup (rest : list (option Z)) (q : list Z) (c : nat)
    (cell : option Z) (x : Z) :
  fits rest q → rest !! c = Some cell → q !! c = Some x →
  match cell with Some v => x = v | None => 0 ≤ x ≤ 3 end.
Proof.
  revert q c. induction rest as [|[v|] rest IH]; intros [|y q] [|c] Hf Hr Hq;
    simplify_eq/=; destruct Hf as [Hy Hf]; try done; by eapply IH.
Qed.

Lemma fits_intro (rest : list (option Z)) (q : list Z) :
  length q = length rest →
  (∀ c cell x, rest !! c = Some cell → q !! c = Some x →
     match cell with Some v => x = v | None => 0 ≤ x ≤ 3 end) →
  fits rest q.
Proof.
  revert q. induction rest as [|cell rest IH]; intros [|y q] Hlen Hall;
    simplify_eq/=; [done|].
  pose proof (Hall 0%nat cell y eq_refl eq_refl) as H0.
  assert (fits rest q) as Hf.
  { apply IH; [done|]. intros c cell' x Hr Hq. by apply (Hall (S c)). }
  destruct cell; done.
Qed.

Lemma line_sum_cons (x : Z) (l : list Z) : line_sum (x :: l) = x + line_sum l.
Proof. reflexivity. Qed.

Lemma bomb_count_cons (x : Z) (l : list Z) :
  bomb_count (x :: l) = (if x =? 0 then 1 else 0) + bomb_count l.
Proof.
  unfold bomb_count. rewrite filter_cons.
  case_decide; destruct (Z.eqb_spec x 0); cbn [length]; try done; lia.
Qed.

Lemma fits_totals (rest : list (option Z)) (q : list Z) :
  fits rest q →
  line_sum q = cell_sum rest + free_sum rest q
  ∧ bomb_count q = cell_zeros rest + free_bombs rest q.
Proof.
  revert q. induction rest as [|[v|] rest IH]; intros [|x q] Hf; try done;
    cbn [fits] in Hf; destruct Hf as [Hx Hf]; destruct (IH _ Hf) as [IHs IHb];
    rewrite line_sum_cons, bomb_count_cons, cell_sum_cons, cell_zeros_cons;
    cbn [free_sum free_bombs from_option id]; rewrite IHs, IHb.
  - subst x. split; [lia|]. case_decide; destruct (Z.eqb_spec v 0); simplify_eq; lia.
  - rewrite decide_False by done. lia.
Qed.

Lemma nonbomb_sum_line (l : list Z) : nonbomb_sum l = line_sum l.
Proof.
  unfold nonbomb_sum, line_sum. induction l as [|x l IH]; [done|].
  rewrite filter_cons. case_decide; cbn [foldr]; rewrite IH; lia.
Qed.

Lemma cell_sum_app (a b : list (option Z)) : cell_sum (a ++ b) = cell_sum a + cell_sum b.
Proof.
  induction a as [|x a IH]; [unfold cell_sum; simpl; lia|].
  cbn [app]. rewrite !cell_sum_cons, IH. lia.
Qed.

Lemma cell_zeros_app (a b : list (option Z)) :
  cell_zeros (a ++ b) = cell_zeros a + cell_zeros b.
Proof.
  induction a as [|x a IH]; [unfold cell_zeros; simpl; lia|].
  cbn [app]. rewrite !cell_zeros_cons, IH. lia.
Qed.

Lemma line_sum_app (a b : list Z) : line_sum (a ++ b) = line_sum a + line_sum b.
Proof.
  induction a as [|x a IH]; [unfold line_sum; simpl; lia|].
  cbn [app]. rewrite !line_sum_cons, IH. lia.
Qed.

Lemma bomb_count_app (a b : list Z) : bomb_count (a ++ b) = bomb_count a + bomb_count b.
Proof.
  induction a as [|x a IH]; [unfold bomb_count; simpl; lia|].
  cbn [app]. rewrite !bomb_count_cons, IH. lia.
Qed.

Lemma cell_sum_fixed (l : list Z) : cell_sum (Some <$> l) = line_sum l.
Proof.
  induction l as [|x l IH]; [done|].
  cbn [fmap list_fmap]. rewrite cell_sum_cons, line_sum_cons, IH. done.
Qed.

Lemma cell_zeros_fixed (l : list Z) : cell_zeros (Some <$> l) = bomb_count l.
Proof.
  induction l as [|x l IH]; [done|].
  cbn [fmap list_fmap]. rewrite cell_zeros_cons, bomb_count_cons, IH.
  case_decide; destruct (Z.eqb_spec x 0); simplify_eq; lia.
Qed.

Lemma column_app (a b : Grid) (c : nat) : column (a ++ b) c = column a c ++ column b c.
Proof. unfold column. by rewrite fmap_app. Qed.

Lemma wcolumn_app (a b : list (list (option Z))) (c : nat) :
  wcolumn (a ++ b) c = wcolumn a c ++ wcolumn b c.
Proof. unfold wcolumn. by rewrite fmap_app. Qed.

Lemma column_length (b : Grid) (c : nat) : length (column b c) = length b.
Proof. unfold column. by rewrite length_fmap. Qed.

Lemma wcolumn_fixed (rows : list (list Z)) (c : nat) :
  Forall (λ p, length p = N) rows → (c < N)%nat →
  wcolumn (fixed_row <$> rows) c = Some <$> column rows c.
Proof.
  intros Hrows Hc. induction Hrows as [|p rows Hp _ IH]; [done|].
  cbn [fmap list_fmap wcolumn column] in *. f_equal; [|exact IH].
  unfold fixed_row. rewrite list_lookup_fmap.
  destruct (lookup_lt_is_Some_2 p c) as [x Hx]; [lia|]. by rewrite Hx.
Qed.

Lemma wcolumn_grid_at (opened : gmap (Z * Z) Z) (prefix : list (list Z)) (c : nat) :
  Forall (λ p, length p = N) prefix → (c < N)%nat →
  wcolumn (grid_at opened prefix) c
  = (Some <$> column prefix c)
    ++ wcolumn (drop (length prefix) (grid (init_store opened))) c.
Proof.
  intros Hp Hc. unfold grid_at. rewrite wcolumn_app, wcolumn_fixed by done. done.
Qed.

(** Rows that fit the rows of the grid give columns that fit its columns. *)
Lemma fits_columns (rests : list (list (option Z))) (qs : Grid) (c : nat) :
  Forall2 fits rests qs → Forall (λ row, length row = N) rests → (c < N)%nat →
  fits (wcolumn rests c) (column qs c).
Proof.
  intros Hf Hlen Hc. induction Hf as [|rest q rests qs Hfit _ IH]; [done|].
  apply Forall_cons in Hlen as [Hl Hlen]. specialize (IH Hlen).
  cbn [wcolumn column fmap list_fmap] in *.
  destruct (lookup_lt_is_Some_2 rest c) as [cell Hcell]; [lia|].
  destruct (lookup_lt_is_Some_2 q c) as [x Hx];
    [rewrite (fits_length _ _ Hfit); lia|].
  rewrite Hcell, Hx. cbn [mjoin option_join from_option id].
  pose proof (fits_lookup _ _ _ _ _ Hfit Hcell Hx) as Hcx.
  destruct cell; cbn [fits]; done.
Qed.

Lemma col_totals_lookup (g : list (list (option Z))) (c : nat) :
  (c < N)%nat → col_totals g !!! c = cell_sum (wcolumn g c).
Proof. intros Hc. nat5 c Hc; reflexivity. Qed.

Lemma col_zeros_lookup (g : list (list (option Z))) (c : nat) :
  (c < N)%nat → col_zeros g !!! c = cell_zeros (wcolumn g c).
Proof. intros Hc. nat5 c Hc; reflexivity. Qed.

Lemma forallb_range5 (f : nat → bool) :
  forallb f (range 0 N) = true ↔ ∀ c, (c < N)%nat → f c = true.
Proof.
  unfold range, N. cbn [Nat.sub seq forallb]. rewrite !andb_true_iff. split.
  - intros (H0 & H1 & H2 & H3 & H4 & _) c Hc.
    destruct c as [|[|[|[|[|c]]]]]; [done..|lia].
  - intros Hall. repeat split; apply Hall; lia.
Qed.

(** ** The search of [dfs_row] *)

Section search.
Variables col_sums col_bombs : list Z.
Hypothesis Hcs : length col_sums = N.
Hypothesis Hcb : length col_bombs = N.
Variable opened : gmap (Z * Z) Z.

Lemma final_ok_exact (prefix : list (list Z)) (sols : list Grid) :
  length prefix = N → Forall (λ p, length p = N) prefix →
  final_ok col_sums col_bombs (store_at opened prefix sols) = true
  ↔ cols_exact col_sums col_bombs prefix.
Proof.
  intros Hlen Hrows. unfold final_ok, cols_exact. rewrite forallb_range5.
  apply forall_proper. intros c. apply forall_proper. intros Hc.
  cbn [store_at col_sum col_bz].
  rewrite col_totals_lookup, col_zeros_lookup, wcolumn_grid_at by done.
  rewrite drop_ge by (rewrite grid0_length; lia).
  cbn [wcolumn fmap list_fmap]. rewrite app_nil_r, cell_sum_fixed, cell_zeros_fixed.
  rewrite andb_true_iff, !Z.eqb_eq.
  rewrite !(list_lookup_lookup_total_lt _ c) by lia.
  split; intros [H1 H2]; split; congruence.
Qed.

Lemma col_feasible_complete (prefix suffix : list (list Z)) (sols : list Grid)
    (r c : nat) :
  length prefix = (r + 1)%nat → (c < N)%nat →
  Forall (λ p, length p = N) prefix →
  Forall2 fits (drop (length prefix) (grid (init_store opened))) suffix →
  cols_exact col_sums col_bombs (prefix ++ suffix) →
  col_feasible col_sums col_bombs r (store_at opened prefix sols) c = true.
Proof.
  intros Hlen Hc Hrows Hfit Hex. destruct (Hex c Hc) as [Hsum Hbombs].
  unfold col_feasible. cbn [store_at grid col_sum col_bz].
  rewrite col_totals_lookup, col_zeros_lookup, wcolumn_grid_at by done.
  rewrite (list_lookup_total_correct _ _ _ Hsum), (list_lookup_total_correct _ _ _ Hbombs).
  rewrite <- Hlen, drop_app_length' by (by rewrite length_fmap, column_length).
  rewrite column_app, line_sum_app, bomb_count_app.
  rewrite cell_sum_app, cell_zeros_app, cell_sum_fixed, cell_zeros_fixed.
  assert (Forall (λ row : list (option Z), length row = N)
            (drop (length prefix) (grid (init_store opened)))) as Hshape.
  { apply Forall_drop. rewrite grid0_eq. apply Forall_fmap, Forall_forall.
    intros x _. apply row_fixed_of_length. }
  pose proof (fits_columns _ _ c Hfit Hshape Hc) as Hcol.
  destruct (fits_totals _ _ Hcol) as [Hs Hb].
  pose proof (fits_bounds _ _ Hcol) as Hbd.
  rewrite Hs, Hb. unfold _col_bounds_so_far.
  rewrite range_check_false by lia. cbn zeta.
  apply andb_true_iff. rewrite !Z.leb_le. lia.
Qed.

Lemma prune_ok_complete (prefix suffix : list (list Z)) (sols : list Grid) (r : nat) :
  length prefix = (r + 1)%nat →
  Forall (λ p, length p = N) prefix →
  Forall2 fits (drop (length prefix) (grid (init_store opened))) suffix →
  cols_exact col_sums col_bombs (prefix ++ suffix) →
  prune_ok col_sums col_bombs r (store_at opened prefix sols) = true.
Proof.
  intros Hlen Hrows Hfit Hex. unfold prune_ok. apply forallb_range5.
  intros c Hc. by eapply col_feasible_complete.
Qed.


Lemma copy_grid_fixed (prefix : list (list Z)) :
  copy_grid (fixed_row <$> prefix) = Some prefix.
Proof.
  unfold copy_grid. apply mapM_fmap_Some. intros p.
  unfold fixed_row. by apply mapM_fmap_Some.
Qed.

Lemma agrees_fits (grow : list (option Z)) (p : list Z) :
  fits grow p → agrees p grow = true.
Proof.
  revert p. induction grow as [|[v|] grow IH]; intros [|x p] Hf; try done;
    destruct Hf as [Hx Hf]; unfold agrees in *; cbn [zip zip_with forallb];
    rewrite (IH _ Hf), andb_true_r; cbn [fst snd];
    apply negb_true_iff, bool_decide_eq_false; naive_solver.
Qed.

(** One turn of the loop over the patterns of row [r]. *)
Lemma dfs_row_turn (rows' : list (list (list Z))) (prefix : list (list Z))
    (p : list Z) (sols sols' : list Grid) :
  (length prefix < N)%nat →
  Forall (λ p, length p = N) prefix →
  fits (row_fixed_of (length prefix) opened) p →
  (if prune_ok col_sums col_bombs (length prefix) (store_at opened (prefix ++ [p]) sols)
   then dfs_row col_sums col_bombs rows' (length prefix + 1)
          (store_at opened (prefix ++ [p]) sols)
   else Some (store_at opened (prefix ++ [p]) sols))
  = Some (store_at opened (prefix ++ [p]) sols') →
  (st1 ← apply_pattern (length prefix) p
           (incr_sum_of p (row_fixed_of (length prefix) opened))
           (incr_bz_of p (row_fixed_of (length prefix) opened))
           (store_at opened prefix sols);
   ok ← prune_columns col_sums col_bombs (length prefix) st1;
   st2 ← (if (ok : bool) then dfs_row col_sums col_bombs rows' (length prefix + 1) st1
          else Some st1);
   st3 ← rollback (length prefix)
           (incr_sum_of p (row_fixed_of (length prefix) opened))
           (incr_bz_of p (row_fixed_of (length prefix) opened)) st2;
   Some (Next st3))
  = Some (Next (store_at opened prefix sols')).
Proof.
  intros Hlt Hrows Hfit Hrec.
  assert (length p = N) as Hp by (rewrite (fits_length _ _ Hfit); apply row_fixed_of_length).
  assert (Forall (λ p, length p = N) (prefix ++ [p])) as Hrows'.
  { apply Forall_app. split; [done|]. by constructor. }
  rewrite apply_pattern_closed;
    [|apply store_at_wf; [lia|done] | done | done
     |by apply incr_sum_of_length | by apply incr_bz_of_length].
  rewrite store_at_placed by done. cbn [mbind option_bind].
  rewrite prune_columns_closed;
    [|done|done|apply store_at_wf; [rewrite length_app; simpl; lia|done]|done].
  cbn [mbind option_bind]. rewrite Hrec. cbn [mbind option_bind].
  rewrite rollback_closed;
    [|apply store_at_wf; [rewrite length_app; simpl; lia|done] | done
     |by apply incr_sum_of_length | by apply incr_bz_of_length].
  cbn [mbind option_bind]. rewrite store_at_unplaced by done. reflexivity.
Qed.


Lemma for_in_cons_Next {A S} (x : A) (xs : list A) (body : A → S → option (flow S))
    (s s' : S) :
  body x s = Some (Next s') → for_in (x :: xs) body s = for_in xs body s'.
Proof. intros Hb. cbn [for_in]. by rewrite Hb. Qed.

Lemma members_fit (rests : list (list (option Z))) (rows : list (list (list Z)))
    (suffix : list (list Z)) :
  Forall2 (λ rest pats, Forall (fits rest) pats ∧ NoDup pats) rests rows →
  Forall2 (λ p pats, p ∈ pats) suffix rows →
  Forall2 fits rests suffix.
Proof.
  intros Hfit. revert suffix.
  induction Hfit as [|rest pats rests rows [Hall _] _ IH]; intros suffix Hs.
  - apply Forall2_nil_inv_r in Hs as ->. constructor.
  - apply Forall2_cons_inv_r in Hs as (q & suffix' & Hq & Hs & ->).
    constructor; [|by apply IH].
    rewrite Forall_forall in Hall. by apply Hall.
Qed.

Lemma dfs_row_spec (rows : list (list (list Z))) :
  ∀ (prefix : list (list Z)) (sols : list Grid),
    (length prefix + length rows = N)%nat →
    Forall (λ p, length p = N) prefix →
    Forall2 (λ rest pats, Forall (fits rest) pats ∧ NoDup pats)
            (drop (length prefix) (grid (init_store opened))) rows →
    ∃ L, dfs_row col_sums col_bombs rows (length prefix) (store_at opened prefix sols)
         = Some (store_at opened prefix (sols ++ L))
       ∧ NoDup L
       ∧ ∀ b, b ∈ L ↔
              ∃ suffix, b = prefix ++ suffix
                        ∧ Forall2 (λ p pats, p ∈ pats) suffix rows
                        ∧ cols_exact col_sums col_bombs b.
Proof.
  induction rows as [|pats rows' IH]; intros prefix sols Hlen Hrows Hfit.
  - cbn [length] in Hlen. rewrite Nat.add_0_r in Hlen.
    cbn [dfs_row].
    rewrite final_check_closed by first [done | apply store_at_wf; [lia|done]].
    cbn [mbind option_bind].
    pose proof (final_ok_exact prefix sols Hlen Hrows) as Hex.
    destruct (final_ok col_sums col_bombs (store_at opened prefix sols)) eqn:Hok.
    + exists [prefix]. split.
      { cbn [store_at grid]. unfold grid_at.
        rewrite drop_ge, app_nil_r by (rewrite grid0_length; lia).
        rewrite copy_grid_fixed. reflexivity. }
      split; [apply NoDup_singleton|]. intros b. split.
      * intros ->%list_elem_of_singleton. exists []. rewrite app_nil_r.
        split; [done|]. split; [constructor | by apply Hex].
      * intros (suffix & -> & ->%Forall2_nil_inv_r & _). rewrite app_nil_r.
        by apply list_elem_of_singleton.
    + exists []. rewrite app_nil_r. split; [done|]. split; [constructor|].
      intros b. split; [by intros ?%elem_of_nil|].
      intros (suffix & -> & ->%Forall2_nil_inv_r & Hb). rewrite app_nil_r in Hb.
      apply Hex in Hb. congruence.
  - cbn [length] in Hlen.
    assert (length prefix < N)%nat as Hlt by lia.
    rewrite (drop_S _ _ _ (grid0_lookup opened _ Hlt)) in Hfit.
    apply Forall2_cons in Hfit as [[Hpats Hnd] Hfit'].
    cbn [dfs_row].
    assert (∀ ps sols0,
      Forall (fits (row_fixed_of (length prefix) opened)) ps → NoDup ps →
      ∃ L, for_in ps
             (λ (row_pat : list Z) (st : Store),
                '(ok, incr_sum, incr_bz) ← check_pattern (length prefix) row_pat st;
                if negb (ok : bool) then Some (Next st)
                else
                  st1 ← apply_pattern (length prefix) row_pat incr_sum incr_bz st;
                  ok0 ← prune_columns col_sums col_bombs (length prefix) st1;
                  st2 ← (if (ok0 : bool)
                         then dfs_row col_sums col_bombs rows' (length prefix + 1) st1
                         else Some st1);
                  st3 ← rollback (length prefix) incr_sum incr_bz st2;
                  Some (Next st3))
             (store_at opened prefix sols0)
           = Some (store_at opened prefix (sols0 ++ L))
         ∧ NoDup L
         ∧ ∀ b, b ∈ L ↔
                ∃ p suffix', p ∈ ps ∧ b = prefix ++ p :: suffix'
                             ∧ Forall2 (λ p pats, p ∈ pats) suffix' rows'
                             ∧ cols_exact col_sums col_bombs b) as Hloop.
    { induction ps as [|p ps IHps]; intros sols0 Hps Hndps.
      - exists []. rewrite app_nil_r. split; [done|]. split; [constructor|].
        intros b. split; [by intros ?%elem_of_nil|].
        by intros (p & s & ?%elem_of_nil & _).
      - apply Forall_cons in Hps as [Hp Hps].
        apply NoDup_cons in Hndps as [Hpnotin Hndps].
        assert (length p = N) as Hlp
          by (rewrite (fits_length _ _ Hp); apply row_fixed_of_length).
        assert (Forall (λ p, length p = N) (prefix ++ [p])) as Hrows'.
        { apply Forall_app. split; [done|]. by constructor. }
        assert (length (prefix ++ [p]) = (length prefix + 1)%nat) as Hlen'
          by (by rewrite length_app).
        (* the boards found below [p] *)
        assert (∃ L1,
          (if prune_ok col_sums col_bombs (length prefix)
                (store_at opened (prefix ++ [p]) sols0)
           then dfs_row col_sums col_bombs rows' (length prefix + 1)
                  (store_at opened (prefix ++ [p]) sols0)
           else Some (store_at opened (prefix ++ [p]) sols0))
          = Some (store_at opened (prefix ++ [p]) (sols0 ++ L1))
          ∧ NoDup L1
          ∧ ∀ b, b ∈ L1 ↔
                 ∃ suffix', b = prefix ++ p :: suffix'
                            ∧ Forall2 (λ p pats, p ∈ pats) suffix' rows'
                            ∧ cols_exact col_sums col_bombs b) as (L1 & Hrun1 & HndL1 & HL1).
        { destruct (prune_ok col_sums col_bombs (length prefix)
                      (store_at opened (prefix ++ [p]) sols0)) eqn:Hprune.
          - destruct (IH (prefix ++ [p]) sols0) as (L1 & Hrun & HndL1 & HL1).
            + rewrite Hlen'. lia.
            + done.
            + rewrite Hlen'. replace (length prefix + 1)%nat with (S (length prefix)) by lia.
              done.
            + exists L1. rewrite <- Hlen'. split; [done|]. split; [done|].
              intros b. rewrite HL1. split.
              * intros (suffix & -> & Hs & Hb). exists suffix.
                by rewrite <- app_assoc in *.
              * intros (suffix & -> & Hs & Hb). exists suffix.
                by rewrite <- app_assoc.
          - exists []. rewrite app_nil_r. split; [done|]. split; [constructor|].
            intros b. split; [by intros ?%elem_of_nil|].
            intros (suffix' & -> & Hs & Hb). exfalso.
            rewrite (cons_middle p prefix suffix'), app_assoc in Hb.
            rewrite (prune_ok_complete (prefix ++ [p]) suffix' sols0 (length prefix))
              in Hprune; [done | done | done | | done].
            rewrite Hlen'. replace (length prefix + 1)%nat with (S (length prefix)) by lia.
            by eapply members_fit. }
        destruct (IHps (sols0 ++ L1) Hps Hndps) as (L2 & Hrun2 & HndL2 & HL2).
        exists (L1 ++ L2). split.
        { rewrite (for_in_cons_Next _ _ _ _ (store_at opened prefix (sols0 ++ L1))).
          - by rewrite Hrun2, app_assoc.
          - cbn beta.
            destruct (check_pattern_closed (length prefix) p (store_at opened prefix sols0)
                        (row_fixed_of (length prefix) opened))
              as (isum & ibz & Hchk & His);
              [by apply grid_at_lookup | apply row_fixed_of_length | done |].
            rewrite Hchk, (agrees_fits _ _ Hp). cbn [mbind option_bind negb].
            rewrite (agrees_fits _ _ Hp) in His. destruct (His eq_refl) as [-> ->].
            by apply dfs_row_turn. }
        split.
        { apply NoDup_app. split; [done|]. split; [|done].
          intros b (s1 & -> & _)%HL1 (p' & s2 & Hp' & Heq & _)%HL2.
          apply app_inv_head in Heq. injection Heq as -> _. done. }
        intros b. rewrite elem_of_app, HL1, HL2. split.
        + intros [(s1 & -> & Hs & Hb) | (p' & s2 & Hp' & -> & Hs & Hb)].
          * exists p, s1. split; [by left|done].
          * exists p', s2. split; [by right|done].
        + intros (p' & s' & [-> | Hp']%elem_of_cons & -> & Hs & Hb).
          * left. by exists s'.
          * right. by exists p', s'. }
    destruct (Hloop pats sols Hpats Hnd) as (L & Hrun & HndL & HL).
    exists L. split; [done|]. split; [done|].
    intros b. rewrite HL. split.
    + intros (p & s' & Hp & -> & Hs & Hb). exists (p :: s').
      split; [done|]. split; [by constructor | done].
    + intros (suffix & -> & Hs & Hb).
      apply Forall2_cons_inv_r in Hs as (p & s' & Hp & Hs & ->).
      by exists p, s'.
Qed.

End search.

(** ** The boards of [_enumerate_all_boards] *)

Lemma range5_length : length (range 0 N) = N.
Proof. reflexivity. Qed.

Lemma range5_lookup (r x : nat) : range 0 N !! r = Some x ↔ x = r ∧ (r < N)%nat.
Proof. unfold range, N. rewrite lookup_seq. lia. Qed.

Lemma range5_elem (r : nat) : r ∈ range 0 N ↔ (r < N)%nat.
Proof. unfold range, N. rewrite elem_of_seq. lia. Qed.

Section boards.
Variables row_sums row_bombs col_sums col_bombs : list Z.
Hypothesis Hrs : length row_sums = N.
Hypothesis Hrb : length row_bombs = N.
Hypothesis Hcs : length col_sums = N.
Hypothesis Hcb : length col_bombs = N.
Variable opened : gmap (Z * Z) Z.

Lemma enumerate_row_patterns_closed (r : nat) :
  (r < N)%nat →
  _enumerate_row_patterns r row_sums row_bombs col_sums col_bombs opened
  = Some (row_patterns_of row_sums row_bombs opened r).
Proof.
  intros Hr. unfold _enumerate_row_patterns, _row_remaining, row_patterns_of.
  rewrite (list_lookup_lookup_total_lt row_sums r) by lia.
  rewrite (list_lookup_lookup_total_lt row_bombs r) by lia.
  reflexivity.
Qed.

Lemma collect_row_patterns_empty (r : nat) :
  (r < N)%nat → row_patterns_of row_sums row_bombs opened r = [] →
  collect_row_patterns row_sums row_bombs col_sums col_bombs opened = Some None.
Proof.
  intros Hr Hnil. unfold collect_row_patterns, range, N. cbn [Nat.sub seq for_in].
  rewrite !enumerate_row_patterns_closed by (unfold N; lia).
  cbn [mbind option_bind].
  destruct (row_patterns_of row_sums row_bombs opened 0) eqn:E0; [done|].
  destruct (row_patterns_of row_sums row_bombs opened 1) eqn:E1; [done|].
  destruct (row_patterns_of row_sums row_bombs opened 2) eqn:E2; [done|].
  destruct (row_patterns_of row_sums row_bombs opened 3) eqn:E3; [done|].
  destruct (row_patterns_of row_sums row_bombs opened 4) eqn:E4; [done|].
  nat5 r Hr; congruence.
Qed.

Lemma collect_row_patterns_full :
  (∀ r, (r < N)%nat → row_patterns_of row_sums row_bombs opened r ≠ []) →
  collect_row_patterns row_sums row_bombs col_sums col_bombs opened
  = Some (Some (row_patterns_of row_sums row_bombs opened <$> range 0 N)).
Proof.
  intros Hall. unfold collect_row_patterns, range, N. cbn [Nat.sub seq for_in].
  rewrite !enumerate_row_patterns_closed by (unfold N; lia).
  cbn [mbind option_bind].
  pose proof (Hall 0%nat) as H0. pose proof (Hall 1%nat) as H1.
  pose proof (Hall 2%nat) as H2. pose proof (Hall 3%nat) as H3.
  pose proof (Hall 4%nat) as H4. unfold N in *.
  destruct (row_patterns_of row_sums row_bombs opened 0) eqn:E0; [exfalso; apply H0; [lia|done]|].
  destruct (row_patterns_of row_sums row_bombs opened 1) eqn:E1; [exfalso; apply H1; [lia|done]|].
  destruct (row_patterns_of row_sums row_bombs opened 2) eqn:E2; [exfalso; apply H2; [lia|done]|].
  destruct (row_patterns_of row_sums row_bombs opened 3) eqn:E3; [exfalso; apply H3; [lia|done]|].
  destruct (row_patterns_of row_sums row_bombs opened 4) eqn:E4; [exfalso; apply H4; [lia|done]|].
  cbn [fmap option_fmap option_map list_fmap app]. rewrite E0, E1, E2, E3, E4. reflexivity.
Qed.

Lemma row_patterns_of_fit (r : nat) :
  Forall (fits (row_fixed_of r opened)) (row_patterns_of row_sums row_bombs opened r)
  ∧ NoDup (row_patterns_of row_sums row_bombs opened r).
Proof.
  split; [|apply dfs_NoDup]. apply Forall_forall. intros p Hp.
  apply dfs_sound in Hp as (q & -> & Hq & _). done.
Qed.

(** The boards found are the ways to pick one pattern per row that meet the
    column constraints, each once; the caller's dictionary is returned as
    it was. *)
Lemma enumerate_all_boards_run_spec :
  ∃ L, enumerate_all_boards_run row_sums row_bombs col_sums col_bombs opened
       = Some (L, opened)
     ∧ NoDup L
     ∧ ∀ b, b ∈ L ↔
            Forall2 (λ p pats, p ∈ pats) b
                    (row_patterns_of row_sums row_bombs opened <$> range 0 N)
            ∧ cols_exact col_sums col_bombs b.
Proof.
  unfold enumerate_all_boards_run.
  destruct (decide (Exists (λ r, row_patterns_of row_sums row_bombs opened r = [])
                           (range 0 N))) as [Hex | Hnex].
  - apply Exists_exists in Hex as (r & Hr & Hnil).
    apply range5_elem in Hr. rewrite (collect_row_patterns_empty r) by done.
    exists []. split; [done|]. split; [constructor|].
    intros b. split; [by intros ?%elem_of_nil|]. intros [Hrows _]. exfalso.
    rewrite Forall2_fmap_r in Hrows.
    apply Forall2_same_length_lookup in Hrows as [Hlen Hrows].
    destruct (lookup_lt_is_Some_2 b r) as [p Hp]; [by rewrite Hlen, range5_length|].
    specialize (Hrows r p r Hp (proj2 (range5_lookup r r) (conj eq_refl Hr))).
    unfold compose in Hrows. rewrite Hnil in Hrows. by apply elem_of_nil in Hrows.
  - rewrite collect_row_patterns_full.
    2:{ intros r Hr Hnil. apply Hnex, Exists_exists. exists r.
        split; [by apply range5_elem | done]. }
    cbn [mbind option_bind]. rewrite init_store_at.
    destruct (dfs_row_spec col_sums col_bombs Hcs Hcb opened
                (row_patterns_of row_sums row_bombs opened <$> range 0 N) [] [])
      as (L & Hrun & Hnd & HL).
    + by rewrite length_fmap.
    + constructor.
    + cbn [length]. rewrite drop_0, grid0_eq.
      apply Forall2_fmap, Forall_Forall2_diag, Forall_forall.
      intros r _. apply row_patterns_of_fit.
    + cbn [length] in Hrun. rewrite Hrun. cbn [mbind option_bind store_at solutions st_opened app].
      exists L. split; [done|]. split; [done|]. intros b. rewrite HL. split.
      * intros (suffix & -> & Hs & Hb). done.
      * intros [Hs Hb]. by exists b.
Qed.

End boards.

(** ** Exactness of the enumeration *)

Lemma row_fixed_of_lookup (r c : nat) (opened : gmap (Z * Z) Z) (cell : option Z) :
  row_fixed_of r opened !! c = Some cell ↔ cell = opened !! coord r c ∧ (c < N)%nat.
Proof.
  unfold row_fixed_of. rewrite list_lookup_fmap, fmap_Some. split.
  - intros (x & [-> Hc]%range5_lookup & ->). done.
  - intros [-> Hc]. exists c. split; [by apply range5_lookup | done].
Qed.

Lemma coord_inj (r c r' c' : nat) : coord r c = coord r' c' → r = r' ∧ c = c'.
Proof. unfold coord. intros [= H1 H2]. lia. Qed.

Section exact.
Variables row_sums row_bombs col_sums col_bombs : list Z.
Hypothesis Hrs : length row_sums = N.
Hypothesis Hrb : length row_bombs = N.
Hypothesis Hcs : length col_sums = N.
Hypothesis Hcb : length col_bombs = N.
Variable opened : gmap (Z * Z) Z.
Hypothesis Hwf : wf_opened opened.

Lemma row_member_iff (r : nat) (p : list Z) :
  p ∈ row_patterns_of row_sums row_bombs opened r
  ↔ fits (row_fixed_of r opened) p
    ∧ line_sum p = row_sums !!! r
    ∧ bomb_count p = row_bombs !!! r.
Proof.
  destruct (opened_row_cells r opened Hwf) as [HS HZ].
  unfold row_patterns_of. split.
  - intros (q & -> & Hf & Hs & Hb)%dfs_sound. cbn [app].
    destruct (fits_totals _ _ Hf) as [Hls Hbc]. split; [done|]. lia.
  - intros (Hf & Hs & Hb). destruct (fits_totals _ _ Hf) as [Hls Hbc].
    pose proof (dfs_complete _ p [] Hf) as Hin. cbn [app] in Hin.
    replace (row_sums !!! r - opened_row_sum r opened)
      with (free_sum (row_fixed_of r opened) p) by lia.
    replace (row_bombs !!! r - opened_row_bombs r opened)
      with (free_bombs (row_fixed_of r opened) p) by lia.
    done.
Qed.

Lemma picked_rows_valid (b : Grid) :
  Forall2 (λ p pats, p ∈ pats) b
          (row_patterns_of row_sums row_bombs opened <$> range 0 N)
  ∧ cols_exact col_sums col_bombs b
  ↔ valid_board row_sums row_bombs col_sums col_bombs opened b.
Proof.
  rewrite Forall2_fmap_r, Forall2_same_length_lookup, range5_length. split.
  - intros [[Hlen Hrows] Hcols].
    assert (∀ r p, b !! r = Some p →
              fits (row_fixed_of r opened) p
              ∧ line_sum p = row_sums !!! r ∧ bomb_count p = row_bombs !!! r) as Hrow.
    { intros r p Hp. apply row_member_iff.
      assert (r < N)%nat as Hr by (rewrite <- Hlen; by eapply lookup_lt_Some).
      apply (Hrows r p r Hp). by apply range5_lookup. }
    split; [done|]. split; [|split; [|split]].
    + intros row (r & Hr)%list_elem_of_lookup_1.
      destruct (Hrow r row Hr) as (Hf & _).
      split; [rewrite (fits_length _ _ Hf); apply row_fixed_of_length|].
      intros v (c & Hc)%list_elem_of_lookup_1.
      assert (c < N)%nat as Hlt.
      { apply lookup_lt_Some in Hc. rewrite (fits_length _ _ Hf) in Hc.
        by rewrite row_fixed_of_length in Hc. }
      pose proof (fits_lookup _ _ c (opened !! coord r c) v Hf
                    (proj2 (row_fixed_of_lookup r c opened _) (conj eq_refl Hlt)) Hc) as Hv.
      destruct (opened !! coord r c) as [w|] eqn:Hw; [|done].
      subst v. by apply (Hwf _ _ _ Hw).
    + intros r row Hr. destruct (Hrow r row Hr) as (_ & Hs & Hb).
      assert (r < N)%nat as Hlt by (rewrite <- Hlen; by eapply lookup_lt_Some).
      rewrite nonbomb_sum_line, Hs, Hb.
      split; apply list_lookup_lookup_total_lt; lia.
    + intros c Hc. destruct (Hcols c Hc) as [Hs Hb]. by rewrite nonbomb_sum_line.
    + intros [i j] v Hk. destruct (Hwf i j v Hk) as (Hi & Hj & _).
      exists (Z.to_nat i), (Z.to_nat j). unfold coord. rewrite !Z2Nat.id by lia.
      split; [done|].
      destruct (lookup_lt_is_Some_2 b (Z.to_nat i)) as [row Hr]; [unfold N in *; lia|].
      destruct (Hrow _ row Hr) as (Hf & _).
      destruct (lookup_lt_is_Some_2 row (Z.to_nat j)) as [x Hx].
      { rewrite (fits_length _ _ Hf), row_fixed_of_length. unfold N in *. lia. }
      unfold grid_val. rewrite Hr. cbn [mbind option_bind]. rewrite Hx. f_equal.
      assert (Z.to_nat j < N)%nat as Hlt by (unfold N in *; lia).
      pose proof (fits_lookup _ _ _ _ x Hf
                    (proj2 (row_fixed_of_lookup (Z.to_nat i) (Z.to_nat j) opened _)
                       (conj eq_refl Hlt)) Hx) as Hv.
      unfold coord in Hv. rewrite !Z2Nat.id in Hv by lia. by rewrite Hk in Hv.
  - intros (Hlen & Hshape & Hrowc & Hcolc & Hagree). split; [split; [done|]|].
    + intros r p y Hp [-> Hr]%range5_lookup. apply row_member_iff.
      destruct (Hshape p (list_elem_of_lookup_2 _ _ _ Hp)) as [Hlp Hvals].
      destruct (Hrowc r p Hp) as [Hb Hs]. rewrite nonbomb_sum_line in Hs.
      split; [|split; symmetry; by apply list_lookup_total_correct].
      apply fits_intro; [by rewrite row_fixed_of_length|].
      intros c cell x [-> Hc]%row_fixed_of_lookup Hx.
      destruct (opened !! coord r c) as [w|] eqn:Hw.
      * destruct (Hagree _ _ Hw) as (r' & c' & [<- <-]%coord_inj & Hg).
        unfold grid_val in Hg. rewrite Hp in Hg. cbn [mbind option_bind] in Hg.
        congruence.
      * apply Hvals. by eapply list_elem_of_lookup_2.
    + intros c Hc. destruct (Hcolc c Hc) as [Hb Hs]. by rewrite nonbomb_sum_line in Hs.
Qed.

End exact.

(** C1: for constraint lists of length 5 and a revealed map with its
    coordinates in the grid and its values in 0..3, [_enumerate_all_boards]
    returns a list without repetition whose members are exactly the boards
    that meet every row and column constraint and agree with the revealed
    cells. *)
Theorem enumerate_all_boards_exact
    (row_sums row_bombs col_sums col_bombs : list Z) (opened : gmap (Z * Z) Z) :
  length row_sums = N → length row_bombs = N →
  length col_sums = N → length col_bombs = N →
  wf_opened opened →
  ∃ l, _enumerate_all_boards row_sums row_bombs col_sums col_bombs opened = Some l
       ∧ NoDup l
       ∧ ∀ g, g ∈ l ↔ valid_board row_sums row_bombs col_sums col_bombs opened g.
Proof.
  intros Hrs Hrb Hcs Hcb Hwf.
  destruct (enumerate_all_boards_run_spec row_sums row_bombs col_sums col_bombs
              Hrs Hrb Hcs Hcb opened) as (L & Hrun & Hnd & HL).
  exists L. unfold _enumerate_all_boards. rewrite Hrun. split; [done|]. split; [done|].
  intros g. rewrite HL. by apply picked_rows_valid.
Qed.

Lemma enumerate_all_boards_exact_witness :
  ∃ l, _enumerate_all_boards [15; 15; 15; 15; 14] [0; 0; 0; 0; 0]
         [15; 15; 15; 15; 14] [0; 0; 0; 0; 0] {[ (0, 0) := 3 ]} = Some l
       ∧ NoDup l
       ∧ ∀ g, g ∈ l ↔ valid_board [15; 15; 15; 15; 14] [0; 0; 0; 0; 0]
                        [15; 15; 15; 15; 14] [0; 0; 0; 0; 0] {[ (0, 0) := 3 ]} g.
Proof.
  apply enumerate_all_boards_exact; try reflexivity.
  intros i j v [[= <- <-] <-]%lookup_singleton_Some. unfold N. lia.
Defined.

(** ** Dictionaries in insertion order *)

Lemma dict_get_fmap {V} (h : nat * nat → V) (keys : list (nat * nat)) (k : nat * nat) :
  k ∈ keys → dict_get k ((λ k, (k, h k)) <$> keys) = Some (h k).
Proof.
  induction keys as [|k0 keys IH]; intros Hk; [by apply elem_of_nil in Hk|].
  cbn [fmap list_fmap dict_get]. case_decide; [by subst|].
  apply IH. apply elem_of_cons in Hk as [->|Hk]; done.
Qed.

Lemma dict_set_fmap {V} (h : nat * nat → V) (keys : list (nat * nat)) (k : nat * nat)
    (v : V) :
  k ∈ keys → NoDup keys →
  dict_set k v ((λ k, (k, h k)) <$> keys)
  = (λ k', (k', if decide (k' = k) then v else h k')) <$> keys.
Proof.
  induction keys as [|k0 keys IH]; intros Hk Hnd; [by apply elem_of_nil in Hk|].
  apply NoDup_cons in Hnd as [Hk0 Hnd].
  cbn [fmap list_fmap dict_set]. case_decide as Heq.
  - subst k0. f_equal. apply list_fmap_ext. intros i k' Hk'.
    rewrite decide_False; [done|]. intros ->. apply Hk0.
    by eapply list_elem_of_lookup_2.
  - f_equal. apply IH; [|done]. apply elem_of_cons in Hk as [->|Hk]; done.
Qed.

Lemma dict_set_new {V} (d : list (nat * nat * V)) (k : nat * nat) (v : V) :
  k ∉ d.*1 → dict_set k v d = d ++ [(k, v)].
Proof.
  induction d as [|[k0 v0] d IH]; intros Hk; [done|].
  cbn [dict_set fmap list_fmap fst] in *. apply not_elem_of_cons in Hk as [Hne Hk].
  rewrite decide_False by done. cbn [app]. f_equal. by apply IH.
Qed.

(** ** The target coordinates *)

Lemma StronglySorted_bind {A B} (R1 : relation A) (R : relation B)
    (l : list A) (f : A → list B) :
  StronglySorted R1 l →
  (∀ x, x ∈ l → StronglySorted R (f x)) →
  (∀ x y a b, R1 x y → a ∈ f x → b ∈ f y → R a b) →
  StronglySorted R (l ≫= f).
Proof.
  intros Hl Hf Hcross. induction Hl as [|x l Hl IH Hx]; [constructor|].
  cbn [mbind list_bind]. apply StronglySorted_app. split; [|split].
  - intros a b Ha (y & Hb & Hy)%list_elem_of_bind.
    rewrite Forall_forall in Hx. eapply Hcross; [by apply Hx | done | done].
  - apply Hf. by left.
  - apply IH. intros y Hy. apply Hf. by right.
Qed.

Lemma StronglySorted_lookup {A} (R : relation A) (l : list A) (i j : nat) (x y : A) :
  StronglySorted R l → (i < j)%nat → l !! i = Some x → l !! j = Some y → R x y.
Proof.
  intros Hl. revert i j. induction Hl as [|z l Hl IH Hz]; intros i j Hij Hi Hj; [done|].
  destruct j as [|j]; [lia|]. cbn in Hj. destruct i as [|i].
  - injection Hi as ->. rewrite Forall_forall in Hz. apply Hz.
    by eapply list_elem_of_lookup_2.
  - cbn in Hi. apply (IH i j); [lia | done | done].
Qed.

Lemma range5_sorted : StronglySorted lt (range 0 N).
Proof.
  unfold range, N. cbn [Nat.sub seq].
  repeat (constructor; [|repeat (constructor; [lia|]); constructor]).
  constructor.
Qed.

Lemma targets_of_elem (opened : gmap (Z * Z) Z) (r c : nat) :
  (r, c) ∈ targets_of opened
  ↔ (r < N)%nat ∧ (c < N)%nat ∧ opened !! coord r c = None.
Proof.
  unfold targets_of. rewrite list_elem_of_bind. split.
  - intros (r' & (c' & Hin & Hc)%list_elem_of_bind & Hr).
    case_decide; [|by apply elem_of_nil in Hin].
    apply list_elem_of_singleton in Hin as [= -> ->].
    by rewrite <- !range5_elem.
  - intros (Hr & Hc & Hnone). exists r. rewrite range5_elem. split; [|done].
    apply list_elem_of_bind. exists c. rewrite range5_elem. split; [|done].
    rewrite decide_True by done. by apply list_elem_of_singleton.
Qed.

Lemma targets_of_sorted (opened : gmap (Z * Z) Z) :
  StronglySorted row_major_lt (targets_of opened).
Proof.
  unfold targets_of. apply (StronglySorted_bind lt); [apply range5_sorted | |].
  - intros r _. apply (StronglySorted_bind lt); [apply range5_sorted | |].
    + intros c _. case_decide; repeat constructor.
    + intros c c' a b Hcc Ha Hb.
      destruct (decide (opened !! coord r c = None)); [|by apply elem_of_nil in Ha].
      destruct (decide (opened !! coord r c' = None)); [|by apply elem_of_nil in Hb].
      apply list_elem_of_singleton in Ha as ->.
      apply list_elem_of_singleton in Hb as ->. right. done.
  - intros r r' a b Hrr (c & Ha & _)%list_elem_of_bind (c' & Hb & _)%list_elem_of_bind.
    destruct (decide (opened !! coord r c = None)); [|by apply elem_of_nil in Ha].
    destruct (decide (opened !! coord r' c' = None)); [|by apply elem_of_nil in Hb].
    apply list_elem_of_singleton in Ha as ->.
    apply list_elem_of_singleton in Hb as ->. left. done.
Qed.

Lemma row_major_lt_irrefl (a : nat * nat) : ¬ row_major_lt a a.
Proof. unfold row_major_lt. lia. Qed.

Lemma targets_of_NoDup (opened : gmap (Z * Z) Z) : NoDup (targets_of opened).
Proof.
  pose proof (targets_of_sorted opened) as Hs.
  induction Hs as [|a l Hl IH Ha]; [constructor|].
  constructor; [|done]. intros Hin. rewrite Forall_forall in Ha.
  by apply (row_major_lt_irrefl a), Ha.
Qed.

(** ** The counting loops of [compute_posteriors] *)

Lemma count_val_snoc (sols : list Grid) (g : Grid) (rc : nat * nat) (v : Z) :
  count_val (sols ++ [g]) rc v
  = count_val sols rc v + (if decide (grid_val g rc.1 rc.2 = Some v) then 1 else 0).
Proof.
  unfold count_val. rewrite filter_app, length_app, filter_cons, filter_nil.
  case_decide; cbn [length]; lia.
Qed.

Lemma count_val_nonneg (sols : list Grid) (rc : nat * nat) (v : Z) : 0 ≤ count_val sols rc v.
Proof. unfold count_val. lia. Qed.

Lemma tally_bump_of (sols : list Grid) (g : Grid) (rc : nat * nat) (v : Z) :
  grid_val g rc.1 rc.2 = Some v → 0 ≤ v ≤ 3 →
  tally_bump v (tally_of sols rc) = Some (tally_of (sols ++ [g]) rc).
Proof.
  intros Hv Hrange. unfold tally_bump, tally_of. rewrite !count_val_snoc, Hv.
  cbn [t0 t1 t2 t3].
  assert (v = 0 ∨ v = 1 ∨ v = 2 ∨ v = 3) as [-> | [-> | [-> | ->]]] by lia;
    cbn [Z.eqb Pos.eqb]; repeat case_decide; simplify_eq; f_equal; f_equal; lia.
Qed.

Lemma tally_sum_of (sols : list Grid) (rc : nat * nat) :
  (∀ g, g ∈ sols → ∃ v, grid_val g rc.1 rc.2 = Some v ∧ 0 ≤ v ≤ 3) →
  tally_sum (tally_of sols rc) = Z.of_nat (length sols).
Proof.
  induction sols as [|g sols IH] using rev_ind; intros Hall; [done|].
  unfold tally_sum, tally_of in *. cbn [t0 t1 t2 t3] in *.
  rewrite !count_val_snoc, length_app. cbn [length].
  destruct (Hall g) as (v & Hv & Hrange); [apply elem_of_app; right; by left|].
  rewrite Hv.
  assert (0 + count_val sols rc 0 + count_val sols rc 1 + count_val sols rc 2
          + count_val sols rc 3 = Z.of_nat (length sols)) as IH'.
  { apply IH. intros g' Hg'. apply Hall, elem_of_app. by left. }
  assert (v = 0 ∨ v = 1 ∨ v = 2 ∨ v = 3) as [-> | [-> | [-> | ->]]] by lia;
    repeat case_decide; simplify_eq; lia.
Qed.

Lemma count_one_board (g : Grid) (targets ts : list (nat * nat))
    (h h' : nat * nat → Tally) :
  NoDup targets → NoDup ts → (∀ rc, rc ∈ ts → rc ∈ targets) →
  (∀ rc, rc ∈ ts →
     ∃ v, grid_val g rc.1 rc.2 = Some v ∧ tally_bump v (h rc) = Some (h' rc)) →
  for_in ts (λ '(r, c) (counts : list (nat * nat * Tally)),
               v ← grid_val g r c;
               d ← dict_get (r, c) counts;
               d' ← tally_bump v d;
               Some (Next (dict_set (r, c) d' counts)))
         ((λ rc, (rc, h rc)) <$> targets)
  = Some ((λ rc, (rc, if decide (rc ∈ ts) then h' rc else h rc)) <$> targets).
Proof.
  intros Hnd. revert h. induction ts as [|[r c] ts IH]; intros h Hndts Hsub Hbump.
  - reflexivity.
  - apply NoDup_cons in Hndts as [Hnotin Hndts].
    destruct (Hbump (r, c)) as (v & Hv & Hb); [by left|]. cbn [fst snd] in Hv.
    rewrite (for_in_cons_Next _ _ _ _
               ((λ rc, (rc, if decide (rc = (r, c)) then h' (r, c) else h rc))
                  <$> targets)).
    2:{ rewrite Hv. cbn [mbind option_bind].
        rewrite dict_get_fmap by (apply Hsub; by left). cbn [mbind option_bind].
        rewrite Hb. cbn [mbind option_bind].
        rewrite dict_set_fmap by (done || apply Hsub; by left). done. }
    rewrite (IH (λ rc, if decide (rc = (r, c)) then h' (r, c) else h rc)).
    + f_equal. apply list_fmap_ext. intros i rc _. f_equal.
      destruct (decide (rc = (r, c))) as [-> | Hne].
      * rewrite decide_False by done. rewrite decide_True by (by left). done.
      * destruct (decide (rc ∈ ts)) as [Hin | Hin].
        -- rewrite decide_True by (by right). done.
        -- rewrite decide_False; [done|]. by intros [?|?]%elem_of_cons.
    + done.
    + intros rc Hrc. apply Hsub. by right.
    + intros rc Hrc. destruct (Hbump rc) as (w & Hw & Hbw); [by right|].
      exists w. split; [done|]. rewrite decide_False; [done|]. by intros ->.
Qed.

Lemma count_boards_closed (targets : list (nat * nat)) (sols done : list Grid) :
  NoDup targets →
  (∀ g rc, g ∈ sols → rc ∈ targets →
     ∃ v, grid_val g rc.1 rc.2 = Some v ∧ 0 ≤ v ≤ 3) →
  count_boards targets sols ((λ rc, (rc, tally_of done rc)) <$> targets)
  = Some ((λ rc, (rc, tally_of (done ++ sols) rc)) <$> targets).
Proof.
  intros Hnd. revert done. induction sols as [|g sols IH]; intros done Hall.
  - by rewrite app_nil_r.
  - unfold count_boards in *.
    rewrite (for_in_cons_Next _ _ _ _
               ((λ rc, (rc, tally_of (done ++ [g]) rc)) <$> targets)).
    + rewrite IH; [by rewrite <- app_assoc|].
      intros g' rc Hg' Hrc. apply Hall; [by right | done].
    + rewrite (count_one_board g targets targets (tally_of done)
                 (tally_of (done ++ [g]))); [| done | done | done |].
      * cbn [mbind option_bind]. do 2 f_equal. apply list_fmap_ext.
        intros i rc Hrc. rewrite decide_True; [done|].
        by eapply list_elem_of_lookup_2.
      * intros rc Hrc. destruct (Hall g rc) as (v & Hv & Hrange); [by left | done|].
        exists v. split; [done|]. by apply tally_bump_of.
Qed.

Section posteriors.
Context {F : Type} `{FloatOps F}.

Lemma build_post_from (targets : list (nat * nat)) (h : nat * nat → Tally)
    (post0 : list (nat * nat * Posterior F)) :
  NoDup targets → (∀ rc, rc ∈ targets → rc ∉ post0.*1) →
  (∀ rc, rc ∈ targets → tally_sum (h rc) ≠ 0) →
  for_in ((λ rc, (rc, h rc)) <$> targets)
         (λ '(rc, d) (post : list (nat * nat * Posterior F)),
            let tot := tally_sum d in
            if tot =? 0 then Some (Next post)
            else Some (Next (dict_set rc (posterior_of tot d) post))) post0
  = Some (post0 ++ ((λ rc, (rc, posterior_of (tally_sum (h rc)) (h rc))) <$> targets)).
Proof.
  revert post0. induction targets as [|rc targets IH]; intros post0 Hnd Hfresh Hsum.
  - cbn [fmap list_fmap for_in]. by rewrite app_nil_r.
  - apply NoDup_cons in Hnd as [Hnotin Hnd]. cbn [fmap list_fmap].
    rewrite (for_in_cons_Next _ _ _ _
               (post0 ++ [(rc, posterior_of (tally_sum (h rc)) (h rc))])).
    + rewrite IH; [by rewrite <- app_assoc | done | |].
      * intros rc' Hrc'. rewrite fmap_app, elem_of_app. cbn [fmap list_fmap fst].
        intros [Hin | Hin%list_elem_of_singleton].
        -- by apply (Hfresh rc'); [right|].
        -- by subst.
      * intros rc' Hrc'. apply Hsum. by right.
    + cbn zeta. destruct (Z.eqb_spec (tally_sum (h rc)) 0) as [Heq | _].
      * exfalso. by apply (Hsum rc); [left|].
      * rewrite dict_set_new; [done|]. apply Hfresh. by left.
Qed.

Lemma build_post_closed (targets : list (nat * nat)) (h : nat * nat → Tally) :
  NoDup targets → (∀ rc, rc ∈ targets → tally_sum (h rc) ≠ 0) →
  build_post ((λ rc, (rc, h rc)) <$> targets)
  = Some ((λ rc, (rc, posterior_of (F:=F) (tally_sum (h rc)) (h rc))) <$> targets).
Proof.
  intros Hnd Hsum.
  apply (build_post_from targets h []); [done | | done].
  intros rc _. by intros ?%elem_of_nil.
Qed.

End posteriors.

(** ** The dictionary [opened] across a solve call *)

Lemma for_in_inv {A S} (P : S → Prop) (xs : list A) (body : A → S → option (flow S))
    (s s' : S) :
  (∀ x s1 s2, P s1 → body x s1 = Some (Next s2) ∨ body x s1 = Some (Break s2) → P s2) →
  P s → for_in xs body s = Some s' → P s'.
Proof.
  intros Hbody. revert s. induction xs as [|x xs IH]; intros s Hs Hrun.
  - cbn in Hrun. by simplify_eq.
  - cbn [for_in] in Hrun. destruct (body x s) as [[s1 | s1]|] eqn:Hb; [| |done].
    + apply (IH s1); [|done]. eapply Hbody; [exact Hs | by left].
    + simplify_eq. eapply Hbody; [exact Hs | by right].
Qed.

Lemma apply_pattern_opened (r : nat) (row_pat incr_sum incr_bz : list Z) (st st' : Store) :
  apply_pattern r row_pat incr_sum incr_bz st = Some st' → st_opened st' = st_opened st.
Proof.
  apply (for_in_inv (λ s, st_opened s = st_opened st)); [|done].
  intros c s1 s2 Hs1 [Hb | Hb]; simplify_option_eq; done.
Qed.

Lemma rollback_opened (r : nat) (incr_sum incr_bz : list Z) (st st' : Store) :
  rollback r incr_sum incr_bz st = Some st' → st_opened st' = st_opened st.
Proof.
  apply (for_in_inv (λ s, st_opened s = st_opened st)); [|done].
  intros c s1 s2 Hs1 [Hb | Hb]; simplify_option_eq; done.
Qed.

Lemma dfs_row_opened (col_sums col_bombs : list Z) (rows : list (list (list Z))) :
  ∀ (r : nat) (st st' : Store),
    dfs_row col_sums col_bombs rows r st = Some st' → st_opened st' = st_opened st.
Proof.
  induction rows as [|pats rows' IH]; intros r st st' Hrun.
  - cbn [dfs_row] in Hrun.
    destruct (final_check col_sums col_bombs st) as [[|]|]; cbn in Hrun; [| |done].
    + destruct (copy_grid (grid st)); cbn in Hrun; [|done]. by simplify_eq.
    + by simplify_eq.
  - cbn [dfs_row] in Hrun. revert Hrun.
    apply (for_in_inv (λ s, st_opened s = st_opened st)); [|done].
    intros p s1 s3 Hs1 Hb.
    assert (∃ fl, (fl = Next s3 ∨ fl = Break s3) ∧
              ('(ok, incr_sum, incr_bz) ← check_pattern r p s1;
               if negb (ok : bool) then Some (Next s1)
               else
                 st1 ← apply_pattern r p incr_sum incr_bz s1;
                 ok0 ← prune_columns col_sums col_bombs r st1;
                 st2 ← (if (ok0 : bool)
                        then dfs_row col_sums col_bombs rows' (r + 1) st1
                        else Some st1);
                 st3 ← rollback r incr_sum incr_bz st2;
                 Some (Next st3)) = Some fl) as (fl & Hfl & Hbody).
    { destruct Hb as [Hb | Hb]; eexists; (split; [|exact Hb]); auto. }
    clear Hb.
    destruct (check_pattern r p s1) as [[[ok isum] ibz]|]; [|done].
    cbn [mbind option_bind] in Hbody. destruct ok; cbn [negb] in Hbody.
    2:{ destruct Hfl as [-> | ->]; by simplify_eq. }
    destruct (apply_pattern r p isum ibz s1) as [st1|] eqn:Happ; [|done].
    cbn [mbind option_bind] in Hbody.
    destruct (prune_columns col_sums col_bombs r st1) as [ok0|]; [|done].
    cbn [mbind option_bind] in Hbody.
    destruct (if ok0 then dfs_row col_sums col_bombs rows' (r + 1) st1 else Some st1)
      as [st2|] eqn:Hrec; [|done].
    cbn [mbind option_bind] in Hbody.
    destruct (rollback r isum ibz st2) as [st3|] eqn:Hroll; [|done].
    cbn [mbind option_bind] in Hbody.
    assert (st3 = s3) as -> by (destruct Hfl as [-> | ->]; by simplify_eq).
    apply rollback_opened in Hroll. apply apply_pattern_opened in Happ.
    assert (st_opened st2 = st_opened st1) as Hst2.
    { destruct ok0; [by eapply IH | by simplify_eq]. }
    congruence.
Qed.

Lemma enumerate_all_boards_run_opened
    (row_sums row_bombs col_sums col_bombs : list Z) (opened opened' : gmap (Z * Z) Z)
    (sols : list Grid) :
  enumerate_all_boards_run row_sums row_bombs col_sums col_bombs opened
  = Some (sols, opened') →
  opened' = opened.
Proof.
  unfold enumerate_all_boards_run. intros Hrun.
  destruct (collect_row_patterns row_sums row_bombs col_sums col_bombs opened)
    as [[arp|]|]; cbn [mbind option_bind] in Hrun; [| |done].
  - destruct (dfs_row col_sums col_bombs arp 0 (init_store opened)) as [st|] eqn:Hdfs;
      cbn [mbind option_bind] in Hrun; [|done].
    apply dfs_row_opened in Hdfs. simplify_eq. done.
  - by simplify_eq.
Qed.

(** ** The whole pipeline *)

Section pipeline.
Context {F : Type} `{FloatOps F}.
Variables row_sums row_bombs col_sums col_bombs : list Z.
Hypothesis Hrs : length row_sums = N.
Hypothesis Hrb : length row_bombs = N.
Hypothesis Hcs : length col_sums = N.
Hypothesis Hcb : length col_bombs = N.
Variable opened : gmap (Z * Z) Z.

Lemma board_target_values (b : Grid) (rc : nat * nat) :
  Forall2 (λ p pats, p ∈ pats) b
          (row_patterns_of row_sums row_bombs opened <$> range 0 N) →
  rc ∈ targets_of opened →
  ∃ v, grid_val b rc.1 rc.2 = Some v ∧ 0 ≤ v ≤ 3.
Proof.
  destruct rc as [r c]. cbn [fst snd].
  rewrite Forall2_fmap_r, Forall2_same_length_lookup, range5_length.
  intros [Hlen Hrows] (Hr & Hc & Hnone)%targets_of_elem.
  destruct (lookup_lt_is_Some_2 b r) as [p Hp]; [lia|].
  pose proof (Hrows r p r Hp (proj2 (range5_lookup r r) (conj eq_refl Hr))) as Hin.
  unfold compose in Hin.
  destruct (row_patterns_of_fit row_sums row_bombs opened r) as [Hfits _].
  rewrite Forall_forall in Hfits. pose proof (Hfits p Hin) as Hf.
  destruct (lookup_lt_is_Some_2 p c) as [x Hx];
    [rewrite (fits_length _ _ Hf), row_fixed_of_length; lia|].
  exists x. unfold grid_val. rewrite Hp. cbn [mbind option_bind]. split; [done|].
  pose proof (fits_lookup _ _ c None x Hf) as Hv. apply Hv; [|done].
  apply row_fixed_of_lookup. by rewrite Hnone.
Qed.

Lemma compute_posteriors_run_spec :
  ∃ L, enumerate_all_boards_run row_sums row_bombs col_sums col_bombs opened
       = Some (L, opened)
     ∧ NoDup L
     ∧ (∀ b, b ∈ L ↔
             Forall2 (λ p pats, p ∈ pats) b
                     (row_patterns_of row_sums row_bombs opened <$> range 0 N)
             ∧ cols_exact col_sums col_bombs b)
     ∧ compute_posteriors_run (F:=F) row_sums row_bombs col_sums col_bombs opened
       = Some (match L with [] => [] | _ => posteriors_of opened L end,
               Z.of_nat (length L), opened)
     ∧ (L ≠ [] →
        count_boards (targets_of opened) L
          ((λ rc, (rc, MkTally 0 0 0 0)) <$> targets_of opened)
        = Some ((λ rc, (rc, tally_of L rc)) <$> targets_of opened)
        ∧ ∀ rc, rc ∈ targets_of opened →
                tally_sum (tally_of L rc) = Z.of_nat (length L)).
Proof.
  destruct (enumerate_all_boards_run_spec row_sums row_bombs col_sums col_bombs
              Hrs Hrb Hcs Hcb opened) as (L & Hrun & Hnd & HL).
  exists L. split; [done|]. split; [done|]. split; [done|].
  assert (∀ g rc, g ∈ L → rc ∈ targets_of opened →
            ∃ v, grid_val g rc.1 rc.2 = Some v ∧ 0 ≤ v ≤ 3) as Hvals.
  { intros g rc [Hg _]%HL Hrc. by apply board_target_values. }
  assert (count_boards (targets_of opened) L
            ((λ rc, (rc, MkTally 0 0 0 0)) <$> targets_of opened)
          = Some ((λ rc, (rc, tally_of L rc)) <$> targets_of opened)) as Hcount.
  { apply (count_boards_closed (targets_of opened) L []);
      [apply targets_of_NoDup | done]. }
  assert (∀ rc, rc ∈ targets_of opened →
            tally_sum (tally_of L rc) = Z.of_nat (length L)) as Hsum.
  { intros rc Hrc. apply tally_sum_of. intros g Hg. by apply Hvals. }
  split; [|done].
  unfold compute_posteriors_run. rewrite Hrun. cbn [mbind option_bind].
  destruct L as [|g L']; [done|].
  rewrite Hcount. cbn [mbind option_bind].
  rewrite build_post_closed; [done | apply targets_of_NoDup |].
  intros rc Hrc. rewrite (Hsum rc Hrc). cbn [length]. lia.
Qed.

Lemma posteriors_of_keys (L : list Grid) :
  (posteriors_of (F:=F) opened L).*1 = targets_of opened.
Proof. unfold posteriors_of. rewrite <- list_fmap_compose. apply list_fmap_id. Qed.

End pipeline.

(** ** The number of boards *)

Lemma dfs_length_bound (rest : list (option Z)) :
  ∀ s b acc, Z.of_nat (length (dfs rest s b acc)) ≤ 4 ^ Z.of_nat (length rest).
Proof.
  induction rest as [|[v|] rest IH]; intros s b acc; rewrite dfs_unfold;
    (destruct (_ || _); [cbn [length]; lia|]);
    (destruct (_ || _); [cbn [length]; lia|]).
  - destruct (_ && _); cbn [length]; lia.
  - cbn [length]. rewrite Nat2Z.inj_succ, Z.pow_succ_r by lia.
    specialize (IH s b (acc ++ [v])). lia.
  - cbn [length mbind list_bind]. rewrite Nat2Z.inj_succ, Z.pow_succ_r by lia.
    rewrite !length_app, !Nat2Z.inj_add. cbn [length].
    assert (∀ l : list (list Z),
              (l = [] ∨ ∃ s' b' acc', l = dfs rest s' b' acc') →
              Z.of_nat (length l) ≤ 4 ^ Z.of_nat (length rest)) as Hone.
    { intros l [-> | (s' & b' & acc' & ->)]; [cbn [length]; lia | apply IH]. }
    repeat match goal with
    | |- context [length (if ?c then ?x else ?y)] =>
        let Hl := fresh "Hl" in
        assert (Z.of_nat (length (if c then x else y)) ≤ 4 ^ Z.of_nat (length rest))
          as Hl by (apply Hone; destruct c; eauto);
        generalize dependent (length (if c then x else y)); intros
    end.
    lia.
Qed.

Lemma choices_elem (rows : list (list (list Z))) (b : Grid) :
  b ∈ choices rows ↔ Forall2 (λ p pats, p ∈ pats) b rows.
Proof.
  revert b. induction rows as [|pats rows IH]; intros b; cbn [choices].
  - rewrite list_elem_of_singleton. split; [intros ->; constructor|].
    by intros ->%Forall2_nil_inv_r.
  - rewrite list_elem_of_bind. split.
    + intros (p & (b' & ->%list_elem_of_singleton & Hb')%list_elem_of_bind & Hp).
      constructor; [done | by apply IH].
    + intros (p & b' & Hp & Hb' & ->)%Forall2_cons_inv_r.
      exists p. split; [|done]. apply list_elem_of_bind. exists b'.
      split; [by apply list_elem_of_singleton | by apply IH].
Qed.

Lemma bind_length_bound {A B} (l : list A) (f : A → list B) (m : Z) :
  0 ≤ m → (∀ x, Z.of_nat (length (f x)) ≤ m) →
  Z.of_nat (length (l ≫= f)) ≤ Z.of_nat (length l) * m.
Proof.
  intros Hm Hf. induction l as [|x l IH]; [cbn; lia|].
  cbn [mbind list_bind length]. rewrite length_app, Nat2Z.inj_add, Nat2Z.inj_succ.
  specialize (Hf x). nia.
Qed.

Lemma choices_length_bound (rows : list (list (list Z))) (k : Z) :
  0 ≤ k → Forall (λ pats, Z.of_nat (length pats) ≤ k) rows →
  Z.of_nat (length (choices rows)) ≤ k ^ Z.of_nat (length rows).
Proof.
  intros Hk Hrows. induction Hrows as [|pats rows Hpats _ IH]; [cbn; lia|].
  cbn [choices length]. rewrite Nat2Z.inj_succ, Z.pow_succ_r by lia.
  etrans.
  { apply (bind_length_bound pats _ (k ^ Z.of_nat (length rows))); [lia|].
    intros p. etrans; [apply (bind_length_bound _ _ 1); [lia|]|].
    - intros b. cbn [length]. lia.
    - lia. }
  assert (0 ≤ k ^ Z.of_nat (length rows)) by lia. nia.
Qed.

Lemma board_count_bound (row_sums row_bombs col_sums col_bombs : list Z)
    (opened : gmap (Z * Z) Z) (L : list Grid) :
  NoDup L →
  (∀ b, b ∈ L →
     Forall2 (λ p pats, p ∈ pats) b
             (row_patterns_of row_sums row_bombs opened <$> range 0 N)) →
  Z.of_nat (length L) ≤ 1125899906842624.
Proof.
  intros Hnd Hsub.
  assert (length L ≤ length (choices (row_patterns_of row_sums row_bombs opened
                                        <$> range 0 N)))%nat as Hle.
  { apply submseteq_length, NoDup_submseteq; [done|].
    intros b Hb. apply choices_elem. by apply Hsub. }
  pose proof (choices_length_bound
                (row_patterns_of row_sums row_bombs opened <$> range 0 N) 1024) as Hb.
  rewrite length_fmap, range5_length in Hb. change (Z.of_nat N) with 5 in Hb.
  change (1024 ^ 5) with 1125899906842624 in Hb.
  etrans; [apply inj_le, Hle|]. apply Hb; [lia|].
  apply Forall_fmap, Forall_forall. intros r _. unfold compose, row_patterns_of.
  etrans; [apply dfs_length_bound|]. rewrite row_fixed_of_length. done.
Qed.

(** ** Normalization of the posteriors *)

Section float_claims.
Import QArith_base Qabs Qfield.
Local Open Scope Z_scope.

Lemma ratio_nonneg (a b : Z) : 0 ≤ a → 0 < b → (0 <= ratio a b)%Q.
Proof.
  intros Ha Hb. unfold ratio. apply Qle_shift_div_l.
  - change 0%Q with (inject_Z 0). by rewrite <- Zlt_Qlt.
  - rewrite Qmult_0_l. change 0%Q with (inject_Z 0). by rewrite <- Zle_Qle.
Qed.

Lemma ratio_sum (a b c d n : Z) :
  0 < n → a + b + c + d = n →
  (ratio a n + ratio b n + ratio c n + ratio d n == 1)%Q.
Proof.
  intros Hn Hsum. unfold ratio. subst n. rewrite !inject_Z_plus. field.
  rewrite <- !inject_Z_plus. intros Heq.
  apply (proj1 (inject_Z_injective _ 0)) in Heq. lia.
Qed.

Lemma sum_within_tolerance {F : Type} `{FloatOps F} `{FloatValue F} `{!FloatRounding F}
    (a0 a1 a2 a3 n : Z) :
  0 ≤ a0 → 0 ≤ a1 → 0 ≤ a2 → 0 ≤ a3 →
  a0 + a1 + a2 + a3 = n → 0 < n ≤ 1125899906842624 →
  within_tolerance
    (sum4 (fval (fdiv_int a0 n)) (fval (fdiv_int a1 n)) (fval (fdiv_int a2 n))
          (fval (fdiv_int a3 n)))
  ∧ within_tolerance
      (fval (fadd (fadd (fadd (fdiv_int a0 n) (fdiv_int a1 n)) (fdiv_int a2 n))
                  (fdiv_int a3 n))).
Proof.
  intros Ha0 Ha1 Ha2 Ha3 Hsum Hn.
  pose proof (ratio_sum a0 a1 a2 a3 n (proj1 Hn) Hsum) as Hq.
  pose proof (ratio_nonneg a0 n Ha0 (proj1 Hn)) as Hq0.
  pose proof (ratio_nonneg a1 n Ha1 (proj1 Hn)) as Hq1.
  pose proof (ratio_nonneg a2 n Ha2 (proj1 Hn)) as Hq2.
  pose proof (ratio_nonneg a3 n Ha3 (proj1 Hn)) as Hq3.
  destruct (fdiv_int_rounds a0 n) as [Hl0 Hu0]; [lia | lia|].
  destruct (fdiv_int_rounds a1 n) as [Hl1 Hu1]; [lia | lia|].
  destruct (fdiv_int_rounds a2 n) as [Hl2 Hu2]; [lia | lia|].
  destruct (fdiv_int_rounds a3 n) as [Hl3 Hu3]; [lia | lia|].
  generalize dependent (ratio a0 n). generalize dependent (ratio a1 n).
  generalize dependent (ratio a2 n). generalize dependent (ratio a3 n).
  intros q3 Hq3 q2 Hq2 q1 Hq1 q0 Hq Hq0 Hl0 Hu0 Hl1 Hu1 Hl2 Hu2 Hl3 Hu3.
  unfold float_u in *.
  destruct (fadd_rounds (fdiv_int a0 n) (fdiv_int a1 n)) as [Hls1 Hus1];
    [split; Lqa.lra | split; Lqa.lra|].
  unfold float_u in *.
  destruct (fadd_rounds (fadd (fdiv_int a0 n) (fdiv_int a1 n)) (fdiv_int a2 n))
    as [Hls2 Hus2]; [split; Lqa.lra | split; Lqa.lra|].
  unfold float_u in *.
  destruct (fadd_rounds (fadd (fadd (fdiv_int a0 n) (fdiv_int a1 n)) (fdiv_int a2 n))
              (fdiv_int a3 n)) as [Hls3 Hus3]; [split; Lqa.lra | split; Lqa.lra|].
  unfold float_u, within_tolerance, sum4, tolerance in *.
  split; apply Qabs_Qle_condition; split; Lqa.lra.
Qed.

(** Exact rational arithmetic rounds nothing. *)
Lemma Q_rounding : FloatRounding Q (H:=Q_ops) (H0:=Q_value).
Proof.
  split.
  - intros a b Ha Hb. pose proof (ratio_nonneg a b (proj1 Ha) (proj1 Hb)) as Hq.
    unfold rounds_to, float_u. cbn [fval Q_value fdiv_int Q_ops].
    fold (ratio a b). rewrite Qreduction.Qred_correct. split; Lqa.lra.
  - intros x y Hx Hy. unfold rounds_to, float_u. cbn [fval Q_value fadd Q_ops] in *.
    rewrite Qreduction.Qred_correct. split; Lqa.lra.
Qed.

End float_claims.

(** C6: for constraint lists of length 5 and floats that round as binary64
    does ([FloatRounding]), in every record of the posterior map each
    probability is the true division of the number of boards that hold the
    value by the record's total, the four probabilities sum to 1 within
    1e-9, both as numbers and when added as floats, and [ev] is
    [1*p1 + 2*p2 + 3*p3]. *)
Theorem posterior_normalized {F : Type} `{FloatOps F} `{FloatValue F} `{!FloatRounding F}
    (row_sums row_bombs col_sums col_bombs : list Z) (opened : gmap (Z * Z) Z)
    (post : list (nat * nat * Posterior F)) (n : Z) :
  length row_sums = N → length row_bombs = N →
  length col_sums = N → length col_bombs = N →
  compute_posteriors row_sums row_bombs col_sums col_bombs opened = Some (post, n) →
  ∃ sols,
    _enumerate_all_boards row_sums row_bombs col_sums col_bombs opened = Some sols
    ∧ ∀ rc rec, (rc, rec) ∈ post →
        total rec = count_val sols rc 0 + count_val sols rc 1
                    + count_val sols rc 2 + count_val sols rc 3
        ∧ p0 rec = fdiv_int (count_val sols rc 0) (total rec)
        ∧ p1 rec = fdiv_int (count_val sols rc 1) (total rec)
        ∧ p2 rec = fdiv_int (count_val sols rc 2) (total rec)
        ∧ p3 rec = fdiv_int (count_val sols rc 3) (total rec)
        ∧ ev rec = fadd (fadd (fmul (of_int 1) (p1 rec)) (fmul (of_int 2) (p2 rec)))
                        (fmul (of_int 3) (p3 rec))
        ∧ within_tolerance
            (sum4 (fval (p0 rec)) (fval (p1 rec)) (fval (p2 rec)) (fval (p3 rec)))
        ∧ within_tolerance
            (fval (fadd (fadd (fadd (p0 rec) (p1 rec)) (p2 rec)) (p3 rec))).
Proof.
  intros Hrs Hrb Hcs Hcb Hpost.
  destruct (compute_posteriors_run_spec (F:=F) row_sums row_bombs col_sums col_bombs
              Hrs Hrb Hcs Hcb opened) as (L & HrunL & Hnd & HL & Hrun & Hcount).
  unfold compute_posteriors in Hpost. rewrite Hrun in Hpost.
  cbn [fmap option_fmap option_map fst] in Hpost. injection Hpost as <- <-.
  exists L. split; [unfold _enumerate_all_boards; by rewrite HrunL|].
  intros rc rec Hin.
  destruct L as [|g L']; [by apply elem_of_nil in Hin|]. set (L := g :: L') in *.
  destruct Hcount as [_ Hsum]; [done|].
  apply list_elem_of_fmap in Hin as (rc' & [= <- ->] & Hrc).
  cbn [posterior_of total p0 p1 p2 p3 ev].
  pose proof (Hsum rc Hrc) as Htot.
  assert (Z.of_nat (length L) ≤ 1125899906842624) as Hbound.
  { eapply (board_count_bound row_sums row_bombs col_sums col_bombs opened); [done|].
    intros b Hb. by apply HL. }
  assert (0 < Z.of_nat (length L)) as Hpos by (unfold L; cbn [length]; lia).
  unfold tally_sum in *. cbn [tally_of t0 t1 t2 t3] in *.
  split; [lia|]. do 5 (split; [reflexivity|]).
  apply (sum_within_tolerance (count_val L rc 0) (count_val L rc 1)
           (count_val L rc 2) (count_val L rc 3));
    try apply count_val_nonneg; lia.
Qed.

Lemma posterior_normalized_witness :
  ∃ (post : list (nat * nat * Posterior QArith_base.Q)) (n : Z),
    compute_posteriors (H:=Q_ops) [15; 15; 15; 15; 14] [0; 0; 0; 0; 0]
      [15; 15; 15; 15; 14] [0; 0; 0; 0; 0] {[ (0, 0) := 3 ]} = Some (post, n)
    ∧ ∀ rc rec, (rc, rec) ∈ post →
        within_tolerance
          (sum4 (fval (FloatValue:=Q_value) (p0 rec)) (fval (FloatValue:=Q_value) (p1 rec))
                (fval (FloatValue:=Q_value) (p2 rec))
                (fval (FloatValue:=Q_value) (p3 rec))).
Proof.
  assert (∃ (post : list (nat * nat * Posterior QArith_base.Q)) (n : Z),
            compute_posteriors (H:=Q_ops) [15; 15; 15; 15; 14] [0; 0; 0; 0; 0]
              [15; 15; 15; 15; 14] [0; 0; 0; 0; 0] {[ (0, 0) := 3 ]} = Some (post, n))
    as (post & n & Hc) by (eexists _, _; vm_compute; reflexivity).
  exists post, n. split; [exact Hc|]. intros rc rec Hin.
  destruct (posterior_normalized (H:=Q_ops) (H0:=Q_value) (FloatRounding0:=Q_rounding)
              [15; 15; 15; 15; 14] [0; 0; 0; 0; 0] [15; 15; 15; 15; 14] [0; 0; 0; 0; 0]
              {[ (0, 0) := 3 ]} post n eq_refl eq_refl eq_refl eq_refl Hc)
    as (sols & _ & Hall).
  destruct (Hall rc rec Hin) as (_ & _ & _ & _ & _ & _ & Hsum & _). exact Hsum.
Defined.

(** ** The column bound and the patterns of special rows *)

(** C2: [_col_bounds_so_far] returns [None] exactly when the bombs still owed
    are negative or exceed the rows left; otherwise it returns the pair
    [(partial_sum + nonbomb_left * 1, partial_sum + nonbomb_left * 3)] with
    [nonbomb_left = rows_left - (target_bombs - partial_bombs)]. *)
Theorem col_bounds_contract :
  ∀ target_sum target_bombs partial_sum partial_bombs rows_left : Z,
    (_col_bounds_so_far target_sum target_bombs partial_sum partial_bombs rows_left = None
       ↔ (target_bombs - partial_bombs < 0 ∨ target_bombs - partial_bombs > rows_left))
    ∧ (¬ (target_bombs - partial_bombs < 0 ∨ target_bombs - partial_bombs > rows_left) →
        _col_bounds_so_far target_sum target_bombs partial_sum partial_bombs rows_left
        = Some (partial_sum + (rows_left - (target_bombs - partial_bombs)) * 1,
                partial_sum + (rows_left - (target_bombs - partial_bombs)) * 3)).
Proof.
  intros ts tb ps pb rl. unfold _col_bounds_so_far.
  destruct (Z.ltb_spec (tb - pb) 0) as [Hlt | Hge]; cbn [orb].
  - split; [split; [intros _; lia | reflexivity] | intros Hn; exfalso; lia].
  - destruct (Z.gtb_spec (tb - pb) rl) as [Hgt | Hle].
    + split; [split; [intros _; lia | reflexivity] | intros Hn; exfalso; lia].
    + split; [split; [discriminate | lia] | reflexivity].
Qed.

(** C7: a row whose bomb quota is 0 and that holds a revealed bomb has no
    pattern, whatever its sum target. *)
Theorem row_patterns_bomb_contradiction
    (r : nat) (j s : Z) (row_sums row_bombs col_sums col_bombs : list Z)
    (opened : gmap (Z * Z) Z) :
  row_sums !! r = Some s →
  row_bombs !! r = Some 0 →
  opened !! (Z.of_nat r, j) = Some 0 →
  _enumerate_row_patterns r row_sums row_bombs col_sums col_bombs opened = Some [].
Proof.
  intros Hs Hb Hopen. unfold _enumerate_row_patterns, _row_remaining.
  rewrite Hs, Hb. cbn -[dfs row_fixed_of]. f_equal. rewrite dfs_unfold.
  pose proof (opened_row_bombs_pos r j opened Hopen) as Hpos.
  destruct (Z.ltb_spec (0 - opened_row_bombs r opened) 0) as [_ | Hge]; [done | lia].
Qed.

Lemma row_patterns_bomb_contradiction_witness :
  _enumerate_row_patterns 2 [7; 7; 9; 7; 7] [1; 1; 0; 1; 1] [8; 8; 7; 7; 7] [1; 0; 1; 1; 1]
    {[ (2, 3) := 0 ]} = Some [].
Proof.
  apply (row_patterns_bomb_contradiction 2 3 9); reflexivity.
Defined.

(** C8: a row with sum 15, no bomb and no revealed cell has the single
    pattern [3,3,3,3,3]. *)
Theorem row_patterns_unique_maximal
    (r : nat) (row_sums row_bombs col_sums col_bombs : list Z)
    (opened : gmap (Z * Z) Z) :
  row_sums !! r = Some 15 →
  row_bombs !! r = Some 0 →
  (∀ j : Z, opened !! (Z.of_nat r, j) = None) →
  _enumerate_row_patterns r row_sums row_bombs col_sums col_bombs opened
  = Some [[3; 3; 3; 3; 3]].
Proof.
  intros Hs Hb Hrow. unfold _enumerate_row_patterns, _row_remaining.
  rewrite Hs, Hb. cbn -[dfs row_fixed_of].
  rewrite (opened_row_sum_none r opened Hrow), (opened_row_bombs_none r opened Hrow).
  assert (row_fixed_of r opened = [None; None; None; None; None]) as ->.
  { unfold row_fixed_of, coord. cbn [range seq N Nat.sub fmap list_fmap].
    by rewrite !Hrow. }
  reflexivity.
Qed.

Lemma row_patterns_unique_maximal_witness :
  _enumerate_row_patterns 1 [7; 15; 9; 7; 7] [1; 0; 0; 1; 1] [9; 9; 9; 9; 9] [1; 0; 1; 0; 1]
    {[ (0, 2) := 1 ]} = Some [[3; 3; 3; 3; 3]].
Proof.
  apply row_patterns_unique_maximal; [reflexivity | reflexivity |].
  intros j. apply lookup_singleton_ne. intros [=].
Defined.

(** ** Properties of the whole pipeline *)

Lemma wf_opened_subseteq (opened1 opened2 : gmap (Z * Z) Z) :
  opened1 ⊆ opened2 → wf_opened opened2 → wf_opened opened1.
Proof.
  intros Hsub Hwf i j v Hv. apply (Hwf i j v). by eapply lookup_weaken.
Qed.

Lemma valid_board_subseteq (row_sums row_bombs col_sums col_bombs : list Z)
    (opened1 opened2 : gmap (Z * Z) Z) (g : Grid) :
  opened1 ⊆ opened2 →
  valid_board row_sums row_bombs col_sums col_bombs opened2 g →
  valid_board row_sums row_bombs col_sums col_bombs opened1 g.
Proof.
  intros Hsub (Hlen & Hshape & Hrows & Hcols & Hagree).
  split; [done|]. split; [done|]. split; [done|]. split; [done|].
  intros k v Hk. apply Hagree. by eapply lookup_weaken.
Qed.

(** C4: with the same constraint lists of length 5, a revealed map of the
    data model (coordinates in the grid, values in 0..3) that extends another
    one yields a board count that is at most the board count of the smaller
    map. *)
Theorem board_count_monotone {F : Type} `{FloatOps F}
    (row_sums row_bombs col_sums col_bombs : list Z)
    (opened1 opened2 : gmap (Z * Z) Z) :
  length row_sums = N → length row_bombs = N →
  length col_sums = N → length col_bombs = N →
  wf_opened opened2 →
  opened1 ⊆ opened2 →
  ∃ (post1 post2 : list (nat * nat * Posterior F)) (n1 n2 : Z),
    compute_posteriors row_sums row_bombs col_sums col_bombs opened1 = Some (post1, n1)
    ∧ compute_posteriors row_sums row_bombs col_sums col_bombs opened2 = Some (post2, n2)
    ∧ n2 ≤ n1.
Proof.
  intros Hrs Hrb Hcs Hcb Hwf2 Hsub.
  pose proof (wf_opened_subseteq _ _ Hsub Hwf2) as Hwf1.
  destruct (compute_posteriors_run_spec (F:=F) row_sums row_bombs col_sums col_bombs
              Hrs Hrb Hcs Hcb opened1) as (L1 & _ & _ & HL1 & Hrun1 & _).
  destruct (compute_posteriors_run_spec (F:=F) row_sums row_bombs col_sums col_bombs
              Hrs Hrb Hcs Hcb opened2) as (L2 & _ & Hnd2 & HL2 & Hrun2 & _).
  eexists _, _, _, _. unfold compute_posteriors. rewrite Hrun1, Hrun2.
  split; [reflexivity|]. split; [reflexivity|].
  apply inj_le, submseteq_length, NoDup_submseteq; [done|].
  intros b Hb. apply HL1, picked_rows_valid; [done..|].
  eapply valid_board_subseteq; [done|].
  apply picked_rows_valid; [done..|]. by apply HL2.
Qed.

Lemma board_count_monotone_witness :
  ∃ (post1 post2 : list (nat * nat * Posterior QArith_base.Q)) (n1 n2 : Z),
    compute_posteriors (H:=Q_ops) [15; 15; 15; 15; 14] [0; 0; 0; 0; 0]
      [15; 15; 15; 15; 14] [0; 0; 0; 0; 0] ∅ = Some (post1, n1)
    ∧ compute_posteriors (H:=Q_ops) [15; 15; 15; 15; 14] [0; 0; 0; 0; 0]
        [15; 15; 15; 15; 14] [0; 0; 0; 0; 0] {[ (0, 0) := 3 ]} = Some (post2, n2)
    ∧ n2 ≤ n1.
Proof.
  apply (board_count_monotone (H:=Q_ops)); try reflexivity.
  - intros i j v [[= <- <-] <-]%lookup_singleton_Some. unfold N. lia.
  - apply map_empty_subseteq.
Defined.

(** C5: for constraint lists of length 5, a row without pattern makes
    [_enumerate_all_boards] leave its first loop by the early [return []],
    an empty board list makes [compute_posteriors] return the empty map and
    the count 0, the empty map makes [choose_next_safest] return [None], and
    no stage raises. *)
Theorem empty_propagation {F : Type} `{FloatOps F}
    (row_sums row_bombs col_sums col_bombs : list Z) (opened : gmap (Z * Z) Z) :
  length row_sums = N → length row_bombs = N →
  length col_sums = N → length col_bombs = N →
  (∀ r, (r < N)%nat →
     _enumerate_row_patterns r row_sums row_bombs col_sums col_bombs opened = Some [] →
     collect_row_patterns row_sums row_bombs col_sums col_bombs opened = Some None
     ∧ _enumerate_all_boards row_sums row_bombs col_sums col_bombs opened = Some [])
  ∧ (_enumerate_all_boards row_sums row_bombs col_sums col_bombs opened = Some [] →
     compute_posteriors (F:=F) row_sums row_bombs col_sums col_bombs opened
     = Some ([], 0))
  ∧ choose_next_safest ([] : list (nat * nat * Posterior F)) = None
  ∧ (∀ r, (r < N)%nat →
       is_Some (_enumerate_row_patterns r row_sums row_bombs col_sums col_bombs opened))
  ∧ is_Some (_enumerate_all_boards row_sums row_bombs col_sums col_bombs opened)
  ∧ is_Some (compute_posteriors (F:=F) row_sums row_bombs col_sums col_bombs opened).
Proof.
  intros Hrs Hrb Hcs Hcb.
  destruct (compute_posteriors_run_spec (F:=F) row_sums row_bombs col_sums col_bombs
              Hrs Hrb Hcs Hcb opened) as (L & HrunL & _ & _ & Hrun & _).
  split; [|split; [|split; [|split; [|split]]]].
  - intros r Hr Hpats.
    rewrite enumerate_row_patterns_closed in Hpats by done. injection Hpats as Hnil.
    assert (collect_row_patterns row_sums row_bombs col_sums col_bombs opened
            = Some None) as Hcollect
      by (by eapply collect_row_patterns_empty).
    split; [done|].
    unfold _enumerate_all_boards, enumerate_all_boards_run. by rewrite Hcollect.
  - unfold _enumerate_all_boards, compute_posteriors. rewrite HrunL, Hrun.
    cbn [fmap option_fmap option_map fst]. by intros [= ->].
  - reflexivity.
  - intros r Hr. rewrite enumerate_row_patterns_closed by done. by eexists.
  - unfold _enumerate_all_boards. rewrite HrunL. by eexists.
  - unfold compute_posteriors. rewrite Hrun. by eexists.
Qed.

Lemma empty_propagation_witness :
  _enumerate_row_patterns 2 [7; 7; 9; 7; 7] [1; 1; 0; 1; 1] [8; 8; 7; 7; 7] [1; 0; 1; 1; 1]
    {[ (2, 3) := 0 ]} = Some []
  ∧ _enumerate_all_boards [7; 7; 9; 7; 7] [1; 1; 0; 1; 1] [8; 8; 7; 7; 7] [1; 0; 1; 1; 1]
      {[ (2, 3) := 0 ]} = Some []
  ∧ compute_posteriors (H:=Q_ops) [7; 7; 9; 7; 7] [1; 1; 0; 1; 1] [8; 8; 7; 7; 7]
      [1; 0; 1; 1; 1] {[ (2, 3) := 0 ]} = Some ([], 0).
Proof.
  destruct (empty_propagation (H:=Q_ops) [7; 7; 9; 7; 7] [1; 1; 0; 1; 1] [8; 8; 7; 7; 7]
              [1; 0; 1; 1; 1] {[ (2, 3) := 0 ]} eq_refl eq_refl eq_refl eq_refl)
    as (Hrow & Hpost & _).
  assert (_enumerate_row_patterns 2 [7; 7; 9; 7; 7] [1; 1; 0; 1; 1] [8; 8; 7; 7; 7]
            [1; 0; 1; 1; 1] {[ (2, 3) := 0 ]} = Some []) as Hnil by reflexivity.
  destruct (Hrow 2%nat ltac:(unfold N; lia) Hnil) as [_ Hboards].
  split; [exact Hnil|]. split; [exact Hboards|]. exact (Hpost Hboards).
Defined.

(** C9: a call of [compute_posteriors] leaves in the caller's dictionary
    [opened] the entries it held before the call. *)
Theorem opened_not_mutated {F : Type} `{FloatOps F}
    (row_sums row_bombs col_sums col_bombs : list Z) (opened opened' : gmap (Z * Z) Z)
    (post : list (nat * nat * Posterior F)) (n : Z) :
  compute_posteriors_run row_sums row_bombs col_sums col_bombs opened
  = Some (post, n, opened') →
  opened' = opened.
Proof.
  unfold compute_posteriors_run. intros Hrun.
  destruct (enumerate_all_boards_run row_sums row_bombs col_sums col_bombs opened)
    as [[sols o]|] eqn:Hboards; cbn [mbind option_bind] in Hrun; [|done].
  apply enumerate_all_boards_run_opened in Hboards. subst o.
  destruct sols as [|g sols]; [by simplify_eq|].
  destruct (count_boards _ _ _) as [counts|]; cbn [mbind option_bind] in Hrun; [|done].
  destruct (build_post counts) as [post'|]; cbn [mbind option_bind] in Hrun; [|done].
  by simplify_eq.
Qed.

Lemma opened_not_mutated_witness :
  ∃ (post : list (nat * nat * Posterior QArith_base.Q)) (n : Z) (opened' : gmap (Z * Z) Z),
    compute_posteriors_run (H:=Q_ops) [15; 15; 15; 15; 14] [0; 0; 0; 0; 0]
      [15; 15; 15; 15; 14] [0; 0; 0; 0; 0] {[ (0, 0) := 3 ]} = Some (post, n, opened')
    ∧ opened' = {[ (0, 0) := 3 ]}.
Proof.
  eexists _, _, _. split; [vm_compute; reflexivity|].
  eapply (opened_not_mutated (H:=Q_ops) [15; 15; 15; 15; 14] [0; 0; 0; 0; 0]
            [15; 15; 15; 15; 14] [0; 0; 0; 0; 0]).
  vm_compute. reflexivity.
Defined.

(** C10: for constraint lists of length 5, when [compute_posteriors] returns
    a board count [n] other than 0,
    the keys of the posterior map are exactly the coordinates of the grid
    that are not in [opened], every record has [total = n], and every tally
    that the last loop reads has a total other than 0, so the branch
    [tot == 0] is not taken. *)
Theorem posterior_map_shape {F : Type} `{FloatOps F}
    (row_sums row_bombs col_sums col_bombs : list Z) (opened : gmap (Z * Z) Z)
    (post : list (nat * nat * Posterior F)) (n : Z) :
  length row_sums = N → length row_bombs = N →
  length col_sums = N → length col_bombs = N →
  compute_posteriors row_sums row_bombs col_sums col_bombs opened = Some (post, n) →
  n ≠ 0 →
  (∀ r c, (r, c) ∈ post.*1
          ↔ (r < N)%nat ∧ (c < N)%nat ∧ opened !! coord r c = None)
  ∧ NoDup post.*1
  ∧ (∀ rc rec, (rc, rec) ∈ post → total rec = n)
  ∧ ∃ sols counts,
      _enumerate_all_boards row_sums row_bombs col_sums col_bombs opened = Some sols
      ∧ count_boards (targets_of opened) sols
          ((λ rc, (rc, MkTally 0 0 0 0)) <$> targets_of opened) = Some counts
      ∧ build_post counts = Some post
      ∧ ∀ rc d, (rc, d) ∈ counts → tally_sum d ≠ 0.
Proof.
  intros Hrs Hrb Hcs Hcb Hpost Hn.
  destruct (compute_posteriors_run_spec (F:=F) row_sums row_bombs col_sums col_bombs
              Hrs Hrb Hcs Hcb opened) as (L & HrunL & _ & _ & Hrun & Hcount).
  unfold compute_posteriors in Hpost. rewrite Hrun in Hpost.
  cbn [fmap option_fmap option_map fst] in Hpost. injection Hpost as <- <-.
  destruct L as [|g L']; [done|]. destruct Hcount as [Hcount Hsum]; [done|].
  set (L := g :: L') in *.
  pose proof (posteriors_of_keys (F:=F) opened L) as Hkeys.
  split; [|split; [|split]].
  - intros r c. rewrite Hkeys. apply targets_of_elem.
  - rewrite Hkeys. apply targets_of_NoDup.
  - intros rc rec (rc' & [= -> ->] & Hrc)%list_elem_of_fmap.
    cbn [posterior_of total]. by apply Hsum.
  - exists L, ((λ rc, (rc, tally_of L rc)) <$> targets_of opened).
    split; [unfold _enumerate_all_boards; by rewrite HrunL|]. split; [done|].
    assert (∀ rc, rc ∈ targets_of opened → tally_sum (tally_of L rc) ≠ 0) as Hne.
    { intros rc Hrc. rewrite (Hsum rc Hrc). unfold L. cbn [length]. lia. }
    split.
    + rewrite build_post_closed; [done | apply targets_of_NoDup | done].
    + intros rc d (rc' & [= -> ->] & Hrc)%list_elem_of_fmap. by apply Hne.
Qed.

Lemma posterior_map_shape_witness :
  ∃ (post : list (nat * nat * Posterior QArith_base.Q)) (n : Z),
    compute_posteriors (H:=Q_ops) [15; 15; 15; 15; 14] [0; 0; 0; 0; 0]
      [15; 15; 15; 15; 14] [0; 0; 0; 0; 0] {[ (0, 0) := 3 ]} = Some (post, n)
    ∧ n ≠ 0
    ∧ (∀ rc rec, (rc, rec) ∈ post → total rec = n).
Proof.
  eexists _, _. split; [vm_compute; reflexivity|]. split; [done|].
  eapply (posterior_map_shape (H:=Q_ops) [15; 15; 15; 15; 14] [0; 0; 0; 0; 0]
            [15; 15; 15; 15; 14] [0; 0; 0; 0; 0] {[ (0, 0) := 3 ]});
    [reflexivity | reflexivity | reflexivity | reflexivity
    | vm_compute; reflexivity | done].
Defined.

(** ** The recommender *)

(** The first minimum of a list under a strict weak order. *)
Section first_min.
Context {A : Type} (lt : A → A → bool).
Hypothesis lt_irrefl : ∀ a, lt a a = false.
Hypothesis lt_trans : ∀ a b c, lt a b = true → lt b c = true → lt a c = true.
Hypothesis lt_neg_trans : ∀ a b c, lt a b = true → lt a c = true ∨ lt c b = true.

Lemma first_min_spec (x0 : A) (rest : list A) :
  ∃ i, (x0 :: rest) !! i
       = Some (foldl (λ best y, if lt y best then y else best) x0 rest)
     ∧ (∀ j y, (x0 :: rest) !! j = Some y →
          lt y (foldl (λ best y, if lt y best then y else best) x0 rest) = false)
     ∧ (∀ j y, (j < i)%nat → (x0 :: rest) !! j = Some y →
          lt (foldl (λ best y, if lt y best then y else best) x0 rest) y = true).
Proof.
  induction rest as [|y rest IH] using rev_ind.
  - exists 0%nat. cbn [foldl]. split; [done|]. split.
    + intros [|j] z Hz; [|done]. cbn in Hz. injection Hz as <-. apply lt_irrefl.
    + intros j z Hj. lia.
  - destruct IH as (i & Hi & Hmin & Hfirst). rewrite foldl_app. cbn [foldl].
    set (best := foldl (λ best y, if lt y best then y else best) x0 rest) in *.
    assert (i < length (x0 :: rest))%nat as Hilt by (by eapply lookup_lt_Some).
    destruct (lt y best) eqn:Hy.
    + exists (length (x0 :: rest)). split; [|split].
      * rewrite app_comm_cons, lookup_app_r, Nat.sub_diag by lia. done.
      * intros j z Hz. rewrite app_comm_cons in Hz.
        apply lookup_app_Some in Hz as [Hz | [_ Hz]].
        -- destruct (lt z y) eqn:Hzy; [|done].
           pose proof (Hmin j z Hz) as Hzb.
           by rewrite (lt_trans z y best Hzy Hy) in Hzb.
        -- apply list_lookup_singleton_Some in Hz as [_ <-]. apply lt_irrefl.
      * intros j z Hj Hz. rewrite app_comm_cons in Hz.
        rewrite lookup_app_l in Hz by lia.
        destruct (lt_neg_trans y best z Hy) as [H1 | H1]; [done|].
        by rewrite (Hmin j z Hz) in H1.
    + exists i. split; [|split].
      * rewrite app_comm_cons, lookup_app_l by lia. done.
      * intros j z Hz. rewrite app_comm_cons in Hz.
        apply lookup_app_Some in Hz as [Hz | [_ Hz]]; [by eapply Hmin|].
        by apply list_lookup_singleton_Some in Hz as [_ <-].
      * intros j z Hj Hz. rewrite app_comm_cons in Hz.
        rewrite lookup_app_l in Hz by lia. by eapply Hfirst.
Qed.

End first_min.

Section key_order.
Context {F : Type} `{FloatOps F} `{!FloatOrder F}.

Lemma feqb_not_lt (a b : F) : feqb a b = true → fltb a b = false.
Proof.
  intros Heq. destruct (fltb a b) eqn:Hlt; [|done].
  apply fltb_not_eq in Hlt. congruence.
Qed.

Lemma key_lt_irrefl (a : F * F) : key_lt a a = false.
Proof. unfold key_lt. by rewrite !feqb_refl. Qed.

Lemma key_lt_trans (a b c : F * F) :
  key_lt a b = true → key_lt b c = true → key_lt a c = true.
Proof.
  destruct a as [a1 a2], b as [b1 b2], c as [c1 c2]. unfold key_lt. cbn [fst snd].
  destruct (feqb a1 b1) eqn:Eab; cbn [negb]; intros Hab.
  - rewrite (fltb_eq_l a1 b1 c1 Eab).
    destruct (feqb b1 c1) eqn:Ebc; cbn [negb]; intros Hbc.
    + rewrite (feqb_trans a1 b1 c1 Eab Ebc). cbn [negb].
      destruct (feqb a2 b2) eqn:Eab2; cbn [negb] in Hab; [done|].
      destruct (feqb b2 c2) eqn:Ebc2; cbn [negb] in Hbc; [done|].
      pose proof (fltb_trans a2 b2 c2 Hab Hbc) as Hac.
      by rewrite (fltb_not_eq a2 c2 Hac).
    + destruct (feqb a1 c1) eqn:Eac; cbn [negb]; [|done].
      apply feqb_sym in Eab. by rewrite (feqb_trans b1 a1 c1 Eab Eac) in Ebc.
  - destruct (feqb b1 c1) eqn:Ebc; cbn [negb]; intros Hbc.
    + rewrite <- (fltb_eq_r a1 b1 c1 Ebc), Hab.
      destruct (feqb a1 c1) eqn:Eac; cbn [negb]; [|done].
      apply feqb_sym in Ebc. by rewrite (feqb_trans a1 c1 b1 Eac Ebc) in Eab.
    + pose proof (fltb_trans a1 b1 c1 Hab Hbc) as Hac.
      by rewrite (fltb_not_eq a1 c1 Hac).
Qed.

Lemma key_lt_neg_trans (a b c : F * F) :
  key_lt a b = true → key_lt a c = true ∨ key_lt c b = true.
Proof.
  destruct a as [a1 a2], b as [b1 b2], c as [c1 c2]. unfold key_lt. cbn [fst snd].
  destruct (feqb a1 b1) eqn:Eab; cbn [negb]; intros Hab.
  - destruct (feqb a2 b2) eqn:Eab2; cbn [negb] in Hab; [done|].
    destruct (feqb a1 c1) eqn:Eac; cbn [negb].
    + assert (feqb c1 b1 = true) as ->
        by (eapply feqb_trans; [by apply feqb_sym|done]).
      cbn [negb].
      destruct (feqb a2 c2) eqn:Eac2; cbn [negb].
      * right. rewrite <- (fltb_eq_l a2 c2 b2 Eac2), Hab.
        destruct (feqb c2 b2) eqn:Ecb2; cbn [negb]; [|done].
        by rewrite (feqb_trans a2 c2 b2 Eac2 Ecb2) in Eab2.
      * destruct (fltb_total a2 c2 Eac2) as [Hlt | Hlt]; [by left|].
        right. pose proof (fltb_trans c2 a2 b2 Hlt Hab) as Hcb.
        by rewrite (fltb_not_eq c2 b2 Hcb).
    + destruct (fltb_total a1 c1 Eac) as [Hlt | Hlt]; [by left|].
      right. rewrite (fltb_eq_r c1 a1 b1 Eab) in Hlt.
      by rewrite (fltb_not_eq c1 b1 Hlt).
  - destruct (feqb a1 c1) eqn:Eac; cbn [negb].
    + right. rewrite <- (fltb_eq_l a1 c1 b1 Eac), Hab.
      destruct (feqb c1 b1) eqn:Ecb; cbn [negb]; [|done].
      by rewrite (feqb_trans a1 c1 b1 Eac Ecb) in Eab.
    + destruct (fltb_total a1 c1 Eac) as [Hlt | Hlt]; [by left|].
      right. pose proof (fltb_trans c1 a1 b1 Hlt Hab) as Hcb.
      by rewrite (fltb_not_eq c1 b1 Hcb).
Qed.

(** What [choose_next_safest] returns on a map with an entry. *)
Lemma choose_first_min (kv0 : nat * nat * Posterior F)
    (rest : list (nat * nat * Posterior F)) :
  ∃ i best, choose_next_safest (kv0 :: rest) = Some best
    ∧ (kv0 :: rest) !! i = Some best
    ∧ (∀ j kv, (kv0 :: rest) !! j = Some kv →
         key_lt (sort_key kv) (sort_key best) = false)
    ∧ (∀ j kv, (j < i)%nat → (kv0 :: rest) !! j = Some kv →
         key_lt (sort_key best) (sort_key kv) = true).
Proof.
  destruct (first_min_spec (λ a b, key_lt (sort_key a) (sort_key b))
              (λ a, key_lt_irrefl _)
              (λ a b c, key_lt_trans _ _ _)
              (λ a b c, key_lt_neg_trans _ _ _) kv0 rest)
    as (i & Hi & Hmin & Hfirst).
  exists i. eexists. split; [reflexivity|]. done.
Qed.

Lemma key_lt_false_p0 (a b : nat * nat * Posterior F) :
  key_lt (sort_key a) (sort_key b) = false →
  fltb (p0 a.2) (p0 b.2) = false
  ∧ (feqb (p0 a.2) (p0 b.2) = true → fltb (ev b.2) (ev a.2) = false).
Proof.
  unfold key_lt, sort_key. cbn [fst snd].
  destruct (feqb (p0 a.2) (p0 b.2)) eqn:Ep; cbn [negb]; intros Hk.
  - split; [by apply feqb_not_lt|]. intros _.
    rewrite fneg_eq, fneg_lt in Hk.
    destruct (feqb (ev a.2) (ev b.2)) eqn:Ee; cbn [negb] in Hk; [|done].
    by apply feqb_not_lt, feqb_sym.
  - split; [done|]. done.
Qed.

Lemma key_lt_equal_keys (a b : nat * nat * Posterior F) :
  feqb (p0 b.2) (p0 a.2) = true → feqb (ev b.2) (ev a.2) = true →
  key_lt (sort_key a) (sort_key b) = false.
Proof.
  intros Ep Ee. unfold key_lt, sort_key. cbn [fst snd].
  rewrite (feqb_sym _ _ Ep), fneg_eq, (feqb_sym _ _ Ee). done.
Qed.

End key_order.

Lemma Q_fltb_iff (a b : QArith_base.Q) :
  fltb (FloatOps:=Q_ops) a b = true ↔ QArith_base.Qlt a b.
Proof.
  cbn [fltb Q_ops]. rewrite QArith_base.Qlt_alt.
  destruct (QArith_base.Qcompare a b); split; congruence.
Qed.

Lemma Q_feqb_iff (a b : QArith_base.Q) :
  feqb (FloatOps:=Q_ops) a b = true ↔ QArith_base.Qeq a b.
Proof. apply QArith_base.Qeq_bool_iff. Qed.

Lemma bool_eq_iff (x y : bool) : (x = true ↔ y = true) → x = y.
Proof. destruct x, y; intros [H1 H2]; try done; [by rewrite H1 | by rewrite H2]. Qed.

Lemma bool_false_iff (x : bool) (P : Prop) : (x = true ↔ P) → ¬ P → x = false.
Proof. destruct x; intros [H1 H2] HP; [by destruct HP; apply H1 | done]. Qed.

(** Exact rational arithmetic has the order of the floats. *)
Lemma Q_order : FloatOrder QArith_base.Q (H:=Q_ops).
Proof.
  split.
  - intros a. apply Q_feqb_iff. Lqa.lra.
  - intros a b. rewrite !Q_feqb_iff. Lqa.lra.
  - intros a b c. rewrite !Q_feqb_iff. Lqa.lra.
  - intros a b c. rewrite !Q_fltb_iff. Lqa.lra.
  - intros a b Hlt%Q_fltb_iff. apply (bool_false_iff _ _ (Q_feqb_iff a b)). Lqa.lra.
  - intros a b Hne. rewrite !Q_fltb_iff.
    assert (¬ QArith_base.Qeq a b) as Hne'
      by (intros Heq%Q_feqb_iff; congruence).
    destruct (QArith_base.Q_dec a b) as [[Hlt | Hgt] | Heq]; [by left | by right | done].
  - intros a a' b Heq%Q_feqb_iff. apply bool_eq_iff. rewrite !Q_fltb_iff. Lqa.lra.
  - intros a b b' Heq%Q_feqb_iff. apply bool_eq_iff. rewrite !Q_fltb_iff. Lqa.lra.
  - intros a b. apply bool_eq_iff. rewrite !Q_fltb_iff. cbn [fneg Q_ops]. Lqa.lra.
  - intros a b. apply bool_eq_iff. rewrite !Q_feqb_iff. cbn [fneg Q_ops]. Lqa.lra.
Qed.

(** C3: [choose_next_safest] returns [None] on the empty map; on the map
    that [compute_posteriors] returns for constraint lists of length 5 it
    returns the entry whose bomb probability [p0] is minimal, among these
    the one whose [ev] is maximal, and among these the first in row-major
    order.  The floats are compared as floats that are no NaN
    ([FloatOrder]). *)
Theorem choose_next_safest_rule {F : Type} `{FloatOps F} `{!FloatOrder F}
    (row_sums row_bombs col_sums col_bombs : list Z) (opened : gmap (Z * Z) Z)
    (post : list (nat * nat * Posterior F)) (n : Z) :
  length row_sums = N → length row_bombs = N →
  length col_sums = N → length col_bombs = N →
  compute_posteriors row_sums row_bombs col_sums col_bombs opened = Some (post, n) →
  choose_next_safest ([] : list (nat * nat * Posterior F)) = None
  ∧ (post ≠ [] →
     ∃ rc rec,
       choose_next_safest post = Some (rc, rec)
       ∧ (rc, rec) ∈ post
       ∧ ∀ rc' rec', (rc', rec') ∈ post →
           fltb (p0 rec') (p0 rec) = false
           ∧ (feqb (p0 rec') (p0 rec) = true → fltb (ev rec) (ev rec') = false)
           ∧ (feqb (p0 rec') (p0 rec) = true → feqb (ev rec') (ev rec) = true →
              rc = rc' ∨ row_major_lt rc rc')).
Proof.
  intros Hrs Hrb Hcs Hcb Hpost. split; [reflexivity|]. intros Hne.
  destruct (compute_posteriors_run_spec (F:=F) row_sums row_bombs col_sums col_bombs
              Hrs Hrb Hcs Hcb opened) as (L & _ & _ & _ & Hrun & _).
  unfold compute_posteriors in Hpost. rewrite Hrun in Hpost.
  cbn [fmap option_fmap option_map fst] in Hpost. injection Hpost as <- <-.
  destruct L as [|g L']; [done|]. set (L := g :: L') in *.
  assert (StronglySorted row_major_lt (posteriors_of (F:=F) opened L).*1) as Hsorted.
  { rewrite posteriors_of_keys. apply targets_of_sorted. }
  destruct (posteriors_of (F:=F) opened L) as [|kv0 rest] eqn:Hposts; [done|].
  destruct (choose_first_min kv0 rest) as (i & [rc rec] & Hchoose & Hi & Hmin & Hfirst).
  exists rc, rec. split; [done|]. split; [by eapply list_elem_of_lookup_2|].
  intros rc' rec' (j & Hj)%list_elem_of_lookup_1.
  destruct (key_lt_false_p0 _ _ (Hmin j _ Hj)) as [Hp Hev]. cbn [snd] in Hp, Hev.
  split; [done|]. split; [done|]. intros Ep Ee.
  pose proof (key_lt_equal_keys (rc, rec) (rc', rec') Ep Ee) as Hkey.
  destruct (decide (j < i)%nat) as [Hlt | Hge].
  { by rewrite (Hfirst j _ Hlt Hj) in Hkey. }
  destruct (decide (j = i)) as [-> | Hneq].
  { left. congruence. }
  right. apply (StronglySorted_lookup _ _ i j rc rc' Hsorted); [lia | |].
  - by rewrite list_lookup_fmap, Hi.
  - by rewrite list_lookup_fmap, Hj.
Qed.

Lemma choose_next_safest_rule_witness :
  ∃ (post : list (nat * nat * Posterior QArith_base.Q)) (n : Z),
    compute_posteriors (H:=Q_ops) [15; 15; 15; 15; 14] [0; 0; 0; 0; 0]
      [15; 15; 15; 15; 14] [0; 0; 0; 0; 0] {[ (0, 0) := 3 ]} = Some (post, n)
    ∧ choose_next_safest (H:=Q_ops) ([] : list (nat * nat * Posterior QArith_base.Q)) = None
    ∧ (post ≠ [] →
       ∃ rc rec,
         choose_next_safest (H:=Q_ops) post = Some (rc, rec)
         ∧ (rc, rec) ∈ post
         ∧ ∀ rc' rec', (rc', rec') ∈ post →
             fltb (FloatOps:=Q_ops) (p0 rec') (p0 rec) = false
             ∧ (feqb (FloatOps:=Q_ops) (p0 rec') (p0 rec) = true →
                fltb (FloatOps:=Q_ops) (ev rec) (ev rec') = false)
             ∧ (feqb (FloatOps:=Q_ops) (p0 rec') (p0 rec) = true →
                feqb (FloatOps:=Q_ops) (ev rec') (ev rec) = true →
                rc = rc' ∨ row_major_lt rc rc')).
Proof.
  eexists _, _. split; [vm_compute; reflexivity|].
  eapply (choose_next_safest_rule (H:=Q_ops) (FloatOrder0:=Q_order)
            [15; 15; 15; 15; 14] [0; 0; 0; 0; 0] [15; 15; 15; 15; 14] [0; 0; 0; 0; 0]
            {[ (0, 0) := 3 ]});
    [reflexivity | reflexivity | reflexivity | reflexivity | vm_compute; reflexivity].
Defined.

(** ** Further properties of the row patterns *)

Lemma lex_lt_app {A} (lt : relation A) (acc a b : list A) :
  lex_lt lt a b → lex_lt lt (acc ++ a) (acc ++ b).
Proof. intros Hab. induction acc as [|x acc IH]; [done|]. cbn. right. done. Qed.

Lemma lex_lt_irrefl {A} (lt : relation A) (l : list A) :
  (∀ x, ¬ lt x x) → ¬ lex_lt lt l l.
Proof.
  intros Hirr. induction l as [|x l IH]; cbn; [by intros []|].
  intros [Hx | [_ Hl]]; [by eapply Hirr | done].
Qed.

Lemma lex_lt_trans {A} (lt : relation A) (a b c : list A) :
  (∀ x y z, lt x y → lt y z → lt x z) →
  lex_lt lt a b → lex_lt lt b c → lex_lt lt a c.
Proof.
  intros Htr. revert b c. induction a as [|x a IH]; intros [|y b] [|z c]; cbn; try done.
  intros [Hxy | [-> Hab]] [Hyz | [-> Hbc]].
  - left. by eapply Htr.
  - by left.
  - by left.
  - right. split; [done|]. by eapply IH.
Qed.

(** A pattern that [dfs] finds below [acc ++ [v]] goes on from [acc] with
    [v]. *)
Lemma dfs_tagged (rest : list (option Z)) (s b : Z) (acc : list Z) (v : Z) (p : list Z) :
  p ∈ dfs rest s b (acc ++ [v]) → ∃ q, p = acc ++ v :: q.
Proof.
  intros (q & -> & _)%dfs_sound. exists q. by rewrite <- app_assoc.
Qed.

Lemma dfs_sorted (rest : list (option Z)) :
  ∀ s b acc, StronglySorted row_lt (dfs rest s b acc).
Proof.
  induction rest as [|[v|] rest IH]; intros s b acc; rewrite dfs_unfold.
  - repeat case_match; repeat constructor.
  - repeat case_match; try constructor. apply IH.
  - destruct (_ || _); [constructor|]. destruct (_ || _); [constructor|].
    apply StronglySorted_app_2.
    + intros x y Hx (v & Hy & Hv)%list_elem_of_bind.
      destruct (b >? 0); [|by apply elem_of_nil in Hx].
      apply dfs_tagged in Hx as (qx & ->).
      destruct (_ || _); [by apply elem_of_nil in Hy|].
      apply dfs_tagged in Hy as (qy & ->).
      apply lex_lt_app. cbn. left.
      repeat (apply elem_of_cons in Hv as [-> | Hv]); try lia.
      by apply elem_of_nil in Hv.
    + destruct (b >? 0); [apply IH | constructor].
    + apply (StronglySorted_bind Z.lt).
      * repeat constructor.
      * intros v _. destruct (_ || _); [constructor | apply IH].
      * intros v w x y Hvw Hx Hy.
        destruct (_ || _); [by apply elem_of_nil in Hx|].
        destruct (_ || _); [by apply elem_of_nil in Hy|].
        apply dfs_tagged in Hx as (qx & ->). apply dfs_tagged in Hy as (qy & ->).
        apply lex_lt_app. cbn. by left.
Qed.

(** Bombs and a sum that pass the first test of [dfs] can be placed. *)
Lemma fits_exists (rest : list (option Z)) :
  ∀ s b, feasible (count_unfixed rest) s b →
    ∃ q, fits rest q ∧ free_sum rest q = s ∧ free_bombs rest q = b.
Proof.
  unfold feasible. induction rest as [|[v|] rest IH]; intros s b Hf.
  - exists []. unfold count_unfixed in Hf. cbn in *. lia.
  - rewrite count_unfixed_Some in Hf. destruct (IH s b Hf) as (q & Hq & Hs & Hb).
    exists (v :: q). cbn [fits free_sum free_bombs]. done.
  - rewrite count_unfixed_None in Hf.
    assert (0 ≤ count_unfixed rest) as Hk by (unfold count_unfixed; lia).
    destruct (decide (0 < b)) as [Hpos | Hzero].
    + destruct (IH s (b - 1)) as (q & Hq & Hs & Hb); [lia|].
      exists (0 :: q). cbn [fits free_sum free_bombs Z.eqb]. repeat split; [lia..|done|lia|lia].
    + set (x := Z.max 1 (s - 3 * count_unfixed rest)).
      destruct (IH (s - x) b) as (q & Hq & Hs & Hb); [lia|].
      exists (x :: q). cbn [fits free_sum free_bombs].
      destruct (Z.eqb_spec x 0); [lia|]. repeat split; [lia..|done|lia|lia].
Qed.

Lemma dfs_nonempty_iff (rest : list (option Z)) (s b : Z) :
  dfs rest s b [] ≠ [] ↔ feasible (count_unfixed rest) s b.
Proof.
  split.
  - intros Hne. destruct (dfs rest s b []) as [|p l] eqn:Hd; [done|].
    assert (p ∈ dfs rest s b []) as Hin by (rewrite Hd; left).
    apply dfs_sound in Hin as (q & _ & Hq & <- & <-).
    pose proof (fits_bounds _ _ Hq). unfold feasible. lia.
  - intros (q & Hq & <- & <-)%fits_exists Hnil.
    pose proof (dfs_complete rest q [] Hq) as Hin. rewrite Hnil in Hin.
    by apply elem_of_nil in Hin.
Qed.

Lemma row_remaining_free (r : nat) (opened : gmap (Z * Z) Z) :
  Z.of_nat (length (filter (λ c, opened !! coord r c = None) (range 0 N)))
  = count_unfixed (row_fixed_of r opened).
Proof. unfold count_unfixed, row_fixed_of. by rewrite length_filter_fmap. Qed.

(** X1: a row has a pattern exactly when the remaining bombs and the
    remaining sum that [_row_remaining] computes pass the first test of
    [dfs]: the bombs fit on the [k] free cells and the sum lies between
    one and three times the number of free cells without a bomb. *)
Theorem row_patterns_feasible_iff
    (r : nat) (row_sums row_bombs col_sums col_bombs : list Z)
    (opened : gmap (Z * Z) Z) (R Z0 : Z) (k : nat) (cs : list nat) :
  _row_remaining r row_sums row_bombs opened = Some (R, Z0, k, cs) →
  ∃ pats,
    _enumerate_row_patterns r row_sums row_bombs col_sums col_bombs opened = Some pats
    ∧ (pats ≠ [] ↔ 0 ≤ Z0 ≤ Z.of_nat k
                    ∧ (Z.of_nat k - Z0) * 1 ≤ R ≤ (Z.of_nat k - Z0) * 3).
Proof.
  intros Hrem. unfold _enumerate_row_patterns. rewrite Hrem. cbn [mbind option_bind].
  eexists. split; [reflexivity|].
  unfold _row_remaining in Hrem.
  destruct (row_sums !! r) as [s|]; [|done]. destruct (row_bombs !! r) as [b|]; [|done].
  cbn [mbind option_bind] in Hrem. injection Hrem as <- <- <- <-.
  rewrite dfs_nonempty_iff, row_remaining_free. done.
Qed.

Lemma row_patterns_feasible_iff_witness :
  ∃ pats,
    _enumerate_row_patterns 1 [9; 5; 9; 9; 9] [0; 3; 0; 0; 0] [7; 7; 9; 9; 9]
      [1; 1; 1; 0; 0] {[ (1, 0) := 3 ]} = Some pats
    ∧ (pats ≠ [] ↔ 0 ≤ 3 ≤ Z.of_nat 4 ∧ (Z.of_nat 4 - 3) * 1 ≤ 2 ≤ (Z.of_nat 4 - 3) * 3).
Proof.
  apply (row_patterns_feasible_iff 1 [9; 5; 9; 9; 9] [0; 3; 0; 0; 0] [7; 7; 9; 9; 9]
           [1; 1; 1; 0; 0] {[ (1, 0) := 3 ]} 2 3 4 [1; 2; 3; 4]%nat).
  vm_compute. reflexivity.
Defined.

(** X2: for a revealed map of the data model, [_enumerate_row_patterns]
    returns, each once, exactly the rows of five cells that keep the
    revealed cells of row [r], hold a value 0..3 elsewhere, and have the
    bomb count and the sum of the row. *)
Theorem row_patterns_exact
    (r : nat) (row_sums row_bombs col_sums col_bombs : list Z)
    (opened : gmap (Z * Z) Z) (s b : Z) :
  wf_opened opened →
  row_sums !! r = Some s → row_bombs !! r = Some b →
  ∃ pats,
    _enumerate_row_patterns r row_sums row_bombs col_sums col_bombs opened = Some pats
    ∧ NoDup pats
    ∧ ∀ p, p ∈ pats ↔
        length p = N
        ∧ (∀ c v, p !! c = Some v →
             0 ≤ v ≤ 3 ∧ ∀ w, opened !! coord r c = Some w → v = w)
        ∧ nonbomb_sum p = s ∧ bomb_count p = b.
Proof.
  intros Hwf Hs Hb. unfold _enumerate_row_patterns, _row_remaining. rewrite Hs, Hb.
  cbn [mbind option_bind]. eexists. split; [reflexivity|].
  split; [apply dfs_NoDup|]. intros p.
  destruct (opened_row_cells r opened Hwf) as [HS HZ].
  assert (fits (row_fixed_of r opened) p
          ↔ length p = N
            ∧ ∀ c v, p !! c = Some v →
                0 ≤ v ≤ 3 ∧ ∀ w, opened !! coord r c = Some w → v = w) as Hfits.
  { split.
    - intros Hf. split; [rewrite (fits_length _ _ Hf); apply row_fixed_of_length|].
      intros c v Hc.
      assert (c < N)%nat as Hlt.
      { apply lookup_lt_Some in Hc. rewrite (fits_length _ _ Hf) in Hc.
        by rewrite row_fixed_of_length in Hc. }
      pose proof (fits_lookup _ _ c (opened !! coord r c) v Hf
                    (proj2 (row_fixed_of_lookup r c opened _) (conj eq_refl Hlt)) Hc) as Hv.
      destruct (opened !! coord r c) as [w|] eqn:Hw.
      + subst v. split; [by apply (Hwf _ _ _ Hw) | by intros ? [= <-]].
      + split; [done | discriminate].
    - intros [Hlen Hcells]. apply fits_intro.
      + by rewrite row_fixed_of_length.
      + intros c cell v [-> Hc]%row_fixed_of_lookup Hv.
        destruct (Hcells c v Hv) as [Hv03 Hw].
        destruct (opened !! coord r c) as [w|]; [by rewrite (Hw w eq_refl) | done]. }
  rewrite nonbomb_sum_line. split.
  - intros (q & -> & Hf & Hsum & Hbombs)%dfs_sound. cbn [app].
    destruct (fits_totals _ _ Hf) as [Hls Hbc].
    destruct (proj1 Hfits Hf) as [Hlen Hcells].
    split; [done|]. split; [done|]. lia.
  - intros (Hlen & Hcells & Hsum & Hbombs).
    pose proof (proj2 Hfits (conj Hlen Hcells)) as Hf.
    destruct (fits_totals _ _ Hf) as [Hls Hbc].
    pose proof (dfs_complete _ p [] Hf) as Hin. cbn [app] in Hin.
    replace (s - opened_row_sum r opened)
      with (free_sum (row_fixed_of r opened) p) by lia.
    replace (b - opened_row_bombs r opened)
      with (free_bombs (row_fixed_of r opened) p) by lia.
    done.
Qed.

Lemma wf_opened_singleton (i j v : Z) :
  0 ≤ i < Z.of_nat N → 0 ≤ j < Z.of_nat N → 0 ≤ v ≤ 3 →
  wf_opened {[ (i, j) := v ]}.
Proof. intros Hi Hj Hv i' j' v' [[= <- <-] <-]%lookup_singleton_Some. done. Qed.

Lemma wf_opened_put (opened : gmap (Z * Z) Z) (r c : nat) (v : Z) :
  wf_opened opened → (r < N)%nat → (c < N)%nat → 0 ≤ v ≤ 3 →
  wf_opened (<[coord r c := v]> opened).
Proof.
  intros Hwf Hr Hc Hv i j w Hk. unfold coord in Hk.
  destruct (decide ((Z.of_nat r, Z.of_nat c) = (i, j))) as [[= <- <-] | Hne].
  - rewrite lookup_insert_eq in Hk. injection Hk as <-. lia.
  - rewrite lookup_insert_ne in Hk by done. by apply (Hwf i j w).
Qed.

Lemma wf_opened_empty : wf_opened ∅.
Proof. intros i j v Hk. by rewrite lookup_empty in Hk. Qed.

Lemma row_patterns_exact_witness :
  ∃ pats,
    _enumerate_row_patterns 1 [9; 5; 9; 9; 9] [0; 3; 0; 0; 0] [7; 7; 9; 9; 9]
      [1; 1; 1; 0; 0] {[ (1, 0) := 3 ]} = Some pats
    ∧ NoDup pats
    ∧ ∀ p, p ∈ pats ↔
        length p = N
        ∧ (∀ c v, p !! c = Some v →
             0 ≤ v ≤ 3
             ∧ ∀ w, ({[ (1, 0) := 3 ]} : gmap (Z * Z) Z) !! coord 1 c = Some w → v = w)
        ∧ nonbomb_sum p = 5 ∧ bomb_count p = 3.
Proof.
  apply row_patterns_exact; [|reflexivity..].
  apply wf_opened_singleton; unfold N; lia.
Defined.

(** X3: the patterns of a row come in strictly increasing order of Python's
    [<] on lists: the search tries the bomb first and then 1, 2, 3 on every
    free cell. *)
Theorem row_patterns_sorted
    (r : nat) (row_sums row_bombs col_sums col_bombs : list Z)
    (opened : gmap (Z * Z) Z) (pats : list (list Z)) :
  _enumerate_row_patterns r row_sums row_bombs col_sums col_bombs opened = Some pats →
  StronglySorted row_lt pats.
Proof.
  unfold _enumerate_row_patterns. intros Hp.
  destruct (_row_remaining r row_sums row_bombs opened) as [[[[R Z0] k] cs]|];
    [|discriminate].
  cbn [mbind option_bind] in Hp. apply (inj Some) in Hp as <-. apply dfs_sorted.
Qed.

Lemma row_patterns_sorted_witness :
  StronglySorted row_lt [[3; 0; 0; 0; 2]; [3; 0; 0; 2; 0]; [3; 0; 2; 0; 0]; [3; 2; 0; 0; 0]].
Proof.
  apply (row_patterns_sorted 1 [9; 5; 9; 9; 9] [0; 3; 0; 0; 0] [7; 7; 9; 9; 9]
           [1; 1; 1; 0; 0] {[ (1, 0) := 3 ]}).
  vm_compute. reflexivity.
Defined.


Lemma length_filter_split {A} (P : A → Prop) `{!∀ x, Decision (P x)} (l : list A) :
  (length (filter P l) + length (filter (λ x, ¬ P x) l) = length l)%nat.
Proof.
  induction l as [|x l IH]; [done|]. rewrite !filter_cons.
  destruct (decide (P x)); destruct (decide (¬ P x)); cbn [length]; try done; lia.
Qed.

Lemma StronglySorted_sublist {A} (R : relation A) (l k : list A) :
  l `sublist_of` k → StronglySorted R k → StronglySorted R l.
Proof.
  induction 1 as [|x l k Hs IH|x l k Hs IH]; intros Hk; [done| |].
  - apply StronglySorted_cons in Hk as [Hx Hk]. apply StronglySorted_cons.
    split; [|by apply IH]. apply Forall_forall. intros y Hy.
    apply (proj1 (Forall_forall _ _) Hx). by eapply sublist_subseteq.
  - apply StronglySorted_cons in Hk as [_ Hk]. by apply IH.
Qed.

(** X5: for a revealed map of the data model, the numbers that
    [_row_remaining] returns are the sum and the bombs of the row less those
    of its revealed cells, the count of its cells that are not revealed, and
    the columns of these cells in increasing order. *)
Theorem row_remaining_contract
    (r : nat) (row_sums row_bombs : list Z) (opened : gmap (Z * Z) Z)
    (R Z0 : Z) (k : nat) (cs : list nat) :
  wf_opened opened →
  _row_remaining r row_sums row_bombs opened = Some (R, Z0, k, cs) →
  row_sums !! r = Some (R + cell_sum (row_fixed_of r opened))
  ∧ row_bombs !! r = Some (Z0 + cell_zeros (row_fixed_of r opened))
  ∧ k = length cs
  ∧ (k + length (filter (λ x, x ≠ None) (row_fixed_of r opened)) = N)%nat
  ∧ StronglySorted lt cs
  ∧ ∀ c, c ∈ cs ↔ (c < N)%nat ∧ opened !! coord r c = None.
Proof.
  intros Hwf Hrem. unfold _row_remaining in Hrem.
  destruct (opened_row_cells r opened Hwf) as [HS HZ].
  destruct (row_sums !! r) as [s|]; [|done]. destruct (row_bombs !! r) as [b|]; [|done].
  cbn [mbind option_bind] in Hrem. injection Hrem as <- <- <- <-.
  rewrite HS, HZ. split; [f_equal; lia|]. split; [f_equal; lia|]. split; [done|].
  split.
  { unfold row_fixed_of. rewrite length_filter_fmap.
    apply (length_filter_split (λ c, opened !! coord r c = None) (range 0 N)). }
  split.
  { eapply StronglySorted_sublist; [apply sublist_filter | apply range5_sorted]. }
  intros c. rewrite list_elem_of_filter, range5_elem. tauto.
Qed.

Lemma row_remaining_contract_witness :
  ([9; 5; 9; 9; 9] : list Z) !! 1%nat
  = Some (2 + cell_sum (row_fixed_of 1 {[ (1, 0) := 3 ]}))
  ∧ ([0; 3; 0; 0; 0] : list Z) !! 1%nat
    = Some (3 + cell_zeros (row_fixed_of 1 {[ (1, 0) := 3 ]}))
  ∧ 4%nat = length [1; 2; 3; 4]%nat
  ∧ (4 + length (filter (λ x, x ≠ None) (row_fixed_of 1 {[ (1, 0)%Z := 3%Z ]})) = N)%nat
  ∧ StronglySorted lt [1; 2; 3; 4]%nat
  ∧ ∀ c, c ∈ [1; 2; 3; 4]%nat
         ↔ (c < N)%nat ∧ ({[ (1, 0) := 3 ]} : gmap (Z * Z) Z) !! coord 1 c = None.
Proof.
  apply (row_remaining_contract 1 [9; 5; 9; 9; 9] [0; 3; 0; 0; 0] {[ (1, 0) := 3 ]}
           2 3 4 [1; 2; 3; 4]%nat).
  - apply wf_opened_singleton; unfold N; lia.
  - vm_compute. reflexivity.
Defined.

(** X6: the test that [dfs] makes before it tries the value [v] on a free
    cell skips nothing that the call would find: when the test fails, the
    call [dfs(c+1, rem_sum - v, rem_bombs, acc + [v])] returns without a
    pattern. *)
Theorem dfs_precheck_redundant
    (rest' : list (option Z)) (rem_sum rem_bombs v : Z) (acc : list Z) :
  (let cols_unfixed_left := count_unfixed (None :: rest') in
   let new_rem_sum := rem_sum - v in
   let new_cols_unfixed := cols_unfixed_left - 1 in
   let b_left := rem_bombs in
   let nonbomb_slots_after := new_cols_unfixed - b_left in
   let min_p := Z.max 0 nonbomb_slots_after * 1 in
   let max_p := Z.max 0 nonbomb_slots_after * 3 in
   (new_rem_sum <? min_p) || (new_rem_sum >? max_p) = true) →
  dfs rest' (rem_sum - v) rem_bombs (acc ++ [v]) = [].
Proof.
  cbv zeta. rewrite count_unfixed_None, dfs_unfold. intros Hskip.
  destruct ((rem_bombs <? 0) || (rem_bombs >? count_unfixed rest')) eqn:Hb;
    [reflexivity|].
  apply orb_false_iff in Hb as [Hb1 Hb2]. rewrite Z.gtb_ltb in Hb2.
  apply Z.ltb_ge in Hb1, Hb2.
  replace (1 + count_unfixed rest' - 1 - rem_bombs)
    with (count_unfixed rest' - rem_bombs) in Hskip by lia.
  rewrite Z.max_r in Hskip by lia. by rewrite Hskip.
Qed.

Lemma dfs_precheck_redundant_witness :
  dfs [None; None] (9 - 1) 0 ([3] ++ [1]) = [].
Proof. apply (dfs_precheck_redundant [None; None] 9 0 1 [3]). reflexivity. Defined.

(** ** Further properties of the board enumeration *)

(** *** The order of the boards *)

Section search_order.
Variables col_sums col_bombs : list Z.
Hypothesis Hcs : length col_sums = N.
Hypothesis Hcb : length col_bombs = N.
Variable opened : gmap (Z * Z) Z.

(** [dfs_row] appends boards in the order of the nested loops over the
    patterns. *)
Lemma dfs_row_sublist (rows : list (list (list Z))) :
  ∀ (prefix : list (list Z)) (sols : list Grid),
    (length prefix + length rows = N)%nat →
    Forall (λ p, length p = N) prefix →
    Forall2 (λ rest pats, Forall (fits rest) pats ∧ NoDup pats)
            (drop (length prefix) (grid (init_store opened))) rows →
    ∃ L, dfs_row col_sums col_bombs rows (length prefix) (store_at opened prefix sols)
         = Some (store_at opened prefix (sols ++ L))
       ∧ L `sublist_of` ((prefix ++.) <$> choices rows).
Proof.
  induction rows as [|pats rows' IH]; intros prefix sols Hlen Hrows Hfit.
  - cbn [length] in Hlen. rewrite Nat.add_0_r in Hlen.
    cbn [dfs_row choices fmap list_fmap]. rewrite app_nil_r.
    rewrite final_check_closed by first [done | apply store_at_wf; [lia|done]].
    cbn [mbind option_bind].
    destruct (final_ok col_sums col_bombs (store_at opened prefix sols)) eqn:Hok.
    + exists [prefix]. split; [|done].
      cbn [store_at grid]. unfold grid_at.
      rewrite drop_ge, app_nil_r by (rewrite grid0_length; lia).
      rewrite copy_grid_fixed. reflexivity.
    + exists []. rewrite app_nil_r. split; [done | apply sublist_nil_l].
  - cbn [length] in Hlen.
    assert (length prefix < N)%nat as Hlt by lia.
    rewrite (drop_S _ _ _ (grid0_lookup opened _ Hlt)) in Hfit.
    apply Forall2_cons in Hfit as [[Hpats Hnd] Hfit'].
    cbn [dfs_row choices].
    generalize dependent sols. clear Hnd.
    induction pats as [|p ps IHps]; intros sols.
    + exists []. rewrite app_nil_r. split; [done | apply sublist_nil_l].
    + apply Forall_cons in Hpats as [Hp Hps].
      assert (length p = N) as Hlp
        by (rewrite (fits_length _ _ Hp); apply row_fixed_of_length).
      assert (Forall (λ p, length p = N) (prefix ++ [p])) as Hrows'.
      { apply Forall_app. split; [done|]. by constructor. }
      assert (length (prefix ++ [p]) = (length prefix + 1)%nat) as Hlen'
        by (by rewrite length_app).
      assert (∃ L1,
        (if prune_ok col_sums col_bombs (length prefix)
              (store_at opened (prefix ++ [p]) sols)
         then dfs_row col_sums col_bombs rows' (length prefix + 1)
                (store_at opened (prefix ++ [p]) sols)
         else Some (store_at opened (prefix ++ [p]) sols))
        = Some (store_at opened (prefix ++ [p]) (sols ++ L1))
        ∧ L1 `sublist_of` ((prefix ++.) <$> ((p ::.) <$> choices rows')))
        as (L1 & Hrun1 & Hsub1).
      { destruct (prune_ok col_sums col_bombs (length prefix)
                    (store_at opened (prefix ++ [p]) sols)) eqn:Hprune.
        - destruct (IH (prefix ++ [p]) sols) as (L1 & Hrun & Hsub).
          + rewrite Hlen'. lia.
          + done.
          + rewrite Hlen'. replace (length prefix + 1)%nat with (S (length prefix)) by lia.
            done.
          + exists L1. rewrite <- Hlen'. split; [done|].
            rewrite <- list_fmap_compose.
            erewrite list_fmap_ext; [exact Hsub|].
            intros i b _. cbn. by rewrite <- app_assoc.
        - exists []. rewrite app_nil_r. split; [done | apply sublist_nil_l]. }
      destruct (IHps Hps (sols ++ L1)) as (L2 & Hrun2 & Hsub2).
      exists (L1 ++ L2). split.
      * rewrite (for_in_cons_Next _ _ _ _ (store_at opened prefix (sols ++ L1))).
        -- by rewrite Hrun2, app_assoc.
        -- cbn beta.
           destruct (check_pattern_closed (length prefix) p (store_at opened prefix sols)
                       (row_fixed_of (length prefix) opened))
             as (isum & ibz & Hchk & His);
             [by apply grid_at_lookup | apply row_fixed_of_length | done |].
           rewrite Hchk, (agrees_fits _ _ Hp). cbn [mbind option_bind negb].
           rewrite (agrees_fits _ _ Hp) in His. destruct (His eq_refl) as [-> ->].
           by apply dfs_row_turn.
      * rewrite bind_cons, fmap_app. apply sublist_app; [|done].
        replace (choices rows' ≫= λ b, [p :: b]) with ((p ::.) <$> choices rows'); [done|].
        clear. induction (choices rows') as [|b l IHl]; [done|].
        cbn [fmap list_fmap]. rewrite bind_cons. cbn [app]. by rewrite IHl.
Qed.

End search_order.

Lemma choices_cons (pats : list (list Z)) (rows : list (list (list Z))) :
  choices (pats :: rows) = pats ≫= λ p, (p ::.) <$> choices rows.
Proof.
  cbn [choices]. apply list_bind_ext; [|done]. intros p.
  induction (choices rows) as [|b l IHl]; [done|].
  cbn [fmap list_fmap]. rewrite bind_cons. cbn [app]. by rewrite IHl.
Qed.

Lemma choices_NoDup (rows : list (list (list Z))) :
  Forall NoDup rows → NoDup (choices rows).
Proof.
  induction 1 as [|pats rows Hp _ IH]; [apply NoDup_singleton|].
  rewrite choices_cons. apply NoDup_bind; [| |done].
  - intros p1 p2 b _ _ (b1 & -> & _)%list_elem_of_fmap (b2 & [= -> _] & _)%list_elem_of_fmap.
    done.
  - intros p _. apply NoDup_fmap_2; [|done]. by intros ?? [= ->].
Qed.

Lemma choices_sorted (rows : list (list (list Z))) :
  Forall (StronglySorted row_lt) rows → StronglySorted board_lt (choices rows).
Proof.
  induction 1 as [|pats rows Hp _ IH]; [repeat constructor|].
  rewrite choices_cons. apply (StronglySorted_bind row_lt); [done| |].
  - intros p _. eapply StronglySorted_fmap; [|done].
    intros b1 b2 Hb. right. done.
  - intros p1 p2 b1 b2 Hp12 (b1' & -> & _)%list_elem_of_fmap
      (b2' & -> & _)%list_elem_of_fmap. by left.
Qed.

(** A sublist that keeps the members with a property is the filter. *)
Lemma sublist_filter_eq {A} (P : A → Prop) `{!∀ x, Decision (P x)} (L M : list A) :
  L `sublist_of` M → NoDup M → (∀ x, x ∈ L ↔ x ∈ M ∧ P x) → L = filter P M.
Proof.
  induction 1 as [|x l k Hs IH|x l k Hs IH]; intros Hnd Hmem.
  - done.
  - apply NoDup_cons in Hnd as [Hx Hnd].
    assert (P x) as HPx by (apply (Hmem x); left).
    rewrite filter_cons_True by done. f_equal. apply IH; [done|].
    intros y. split.
    + intros Hy. split; [by eapply sublist_subseteq|].
      apply (Hmem y). by right.
    + intros [Hy HPy].
      pose proof (proj2 (Hmem y) (conj (list_elem_of_further _ _ _ Hy) HPy)) as Hin.
      apply elem_of_cons in Hin as [-> | Hin]; done.
  - apply NoDup_cons in Hnd as [Hx Hnd].
    assert (x ∉ l) as Hxl by (intros Hin; apply Hx; by eapply sublist_subseteq).
    assert (¬ P x) as HPx.
    { intros HPx. apply Hxl, Hmem. split; [left | done]. }
    rewrite filter_cons_False by done. apply IH; [done|].
    intros y. rewrite Hmem. split.
    + intros [[-> | Hy]%elem_of_cons HPy]; done.
    + intros [Hy HPy]. split; [by right | done].
Qed.

Section boards_order.
Variables row_sums row_bombs col_sums col_bombs : list Z.
Hypothesis Hrs : length row_sums = N.
Hypothesis Hrb : length row_bombs = N.
Hypothesis Hcs : length col_sums = N.
Hypothesis Hcb : length col_bombs = N.
Variable opened : gmap (Z * Z) Z.

Lemma enumerate_all_boards_run_closed :
  enumerate_all_boards_run row_sums row_bombs col_sums col_bombs opened
  = Some (filter (cols_exact col_sums col_bombs)
            (choices (row_patterns_of row_sums row_bombs opened <$> range 0 N)),
          opened).
Proof.
  destruct (enumerate_all_boards_run_spec row_sums row_bombs col_sums col_bombs
              Hrs Hrb Hcs Hcb opened) as (L & Hrun & Hnd & HL).
  rewrite Hrun. f_equal. f_equal.
  apply sublist_filter_eq.
  - unfold enumerate_all_boards_run in Hrun.
    destruct (decide (Exists (λ r, row_patterns_of row_sums row_bombs opened r = [])
                             (range 0 N))) as [Hex | Hnex].
    + apply Exists_exists in Hex as (r & Hr & Hnil). apply range5_elem in Hr.
      rewrite (collect_row_patterns_empty row_sums row_bombs col_sums col_bombs
                 Hrs Hrb Hcs Hcb opened r) in Hrun by done.
      cbn [mbind option_bind] in Hrun. injection Hrun as <-. apply sublist_nil_l.
    + rewrite (collect_row_patterns_full row_sums row_bombs col_sums col_bombs
                 Hrs Hrb Hcs Hcb opened) in Hrun.
      2:{ intros r Hr Hnil. apply Hnex, Exists_exists. exists r.
          split; [by apply range5_elem | done]. }
      cbn [mbind option_bind] in Hrun. rewrite init_store_at in Hrun.
      destruct (dfs_row_sublist col_sums col_bombs Hcs Hcb opened
                  (row_patterns_of row_sums row_bombs opened <$> range 0 N) [] [])
        as (L' & Hrun' & Hsub).
      * by rewrite length_fmap.
      * constructor.
      * cbn [length]. rewrite drop_0, grid0_eq.
        apply Forall2_fmap, Forall_Forall2_diag, Forall_forall.
        intros r _. apply row_patterns_of_fit.
      * cbn [length] in Hrun'. rewrite Hrun' in Hrun.
        cbn [mbind option_bind store_at solutions st_opened app] in Hrun.
        injection Hrun as <-.
        erewrite list_fmap_ext, list_fmap_id in Hsub; [exact Hsub|]. done.
  - apply choices_NoDup, Forall_fmap, Forall_forall. intros r _.
    apply row_patterns_of_fit.
  - intros b. rewrite HL, choices_elem. done.
Qed.

End boards_order.

(** *** Constraint lists with more than five entries *)

Lemma for_in_ext {A S} (xs : list A) (f g : A → S → option (flow S)) (s : S) :
  (∀ x s, x ∈ xs → f x s = g x s) → for_in xs f s = for_in xs g s.
Proof.
  revert s. induction xs as [|x xs IH]; intros s Hfg; [done|].
  cbn [for_in]. rewrite (Hfg x s) by left.
  destruct (g x s) as [[s'|s']|]; try done. apply IH. intros y s0 Hy. apply Hfg. by right.
Qed.

Lemma row_patterns_take (r : nat) (row_sums row_bombs col_sums col_bombs : list Z)
    (opened : gmap (Z * Z) Z) :
  (r < N)%nat →
  _enumerate_row_patterns r (take N row_sums) (take N row_bombs)
    (take N col_sums) (take N col_bombs) opened
  = _enumerate_row_patterns r row_sums row_bombs col_sums col_bombs opened.
Proof.
  intros Hr. unfold _enumerate_row_patterns, _row_remaining.
  by rewrite !lookup_take_lt by done.
Qed.

Lemma collect_row_patterns_take (row_sums row_bombs col_sums col_bombs : list Z)
    (opened : gmap (Z * Z) Z) :
  collect_row_patterns (take N row_sums) (take N row_bombs)
    (take N col_sums) (take N col_bombs) opened
  = collect_row_patterns row_sums row_bombs col_sums col_bombs opened.
Proof.
  unfold collect_row_patterns. apply for_in_ext. intros r acc Hr%range5_elem.
  by rewrite row_patterns_take.
Qed.

Lemma final_check_take (col_sums col_bombs : list Z) (st : Store) :
  final_check (take N col_sums) (take N col_bombs) st = final_check col_sums col_bombs st.
Proof.
  unfold final_check. apply for_in_ext. intros c ok Hc%range5_elem.
  by rewrite !lookup_take_lt by done.
Qed.

Lemma prune_columns_take (col_sums col_bombs : list Z) (r : nat) (st : Store) :
  prune_columns (take N col_sums) (take N col_bombs) r st
  = prune_columns col_sums col_bombs r st.
Proof.
  unfold prune_columns. apply for_in_ext. intros c ok Hc%range5_elem.
  by rewrite !lookup_take_lt by done.
Qed.

Lemma dfs_row_take (col_sums col_bombs : list Z) (rows : list (list (list Z))) :
  ∀ (r : nat) (st : Store),
    dfs_row (take N col_sums) (take N col_bombs) rows r st
    = dfs_row col_sums col_bombs rows r st.
Proof.
  induction rows as [|pats rows IH]; intros r st; cbn [dfs_row].
  - by rewrite final_check_take.
  - apply for_in_ext. intros p st0 _.
    destruct (check_pattern r p st0) as [[[ok isum] ibz]|]; [|done].
    cbn [mbind option_bind]. destruct (negb ok); [done|].
    destruct (apply_pattern r p isum ibz st0) as [st1|]; [|done].
    cbn [mbind option_bind]. rewrite prune_columns_take.
    destruct (prune_columns col_sums col_bombs r st1) as [[|]|]; [|done..].
    cbn [mbind option_bind]. by rewrite IH.
Qed.

Lemma enumerate_all_boards_run_take (row_sums row_bombs col_sums col_bombs : list Z)
    (opened : gmap (Z * Z) Z) :
  enumerate_all_boards_run (take N row_sums) (take N row_bombs)
    (take N col_sums) (take N col_bombs) opened
  = enumerate_all_boards_run row_sums row_bombs col_sums col_bombs opened.
Proof.
  unfold enumerate_all_boards_run. rewrite collect_row_patterns_take.
  destruct (collect_row_patterns row_sums row_bombs col_sums col_bombs opened)
    as [[arp|]|]; [|done..].
  cbn [mbind option_bind]. by rewrite dfs_row_take.
Qed.

(** X7: entries of the constraint lists after the fifth are never read:
    [_enumerate_all_boards] and [compute_posteriors] return on the lists
    what they return on their first five entries. *)
Theorem extra_entries_ignored {F : Type} `{FloatOps F}
    (row_sums row_bombs col_sums col_bombs : list Z) (opened : gmap (Z * Z) Z) :
  _enumerate_all_boards (take N row_sums) (take N row_bombs)
    (take N col_sums) (take N col_bombs) opened
  = _enumerate_all_boards row_sums row_bombs col_sums col_bombs opened
  ∧ compute_posteriors (F:=F) (take N row_sums) (take N row_bombs)
      (take N col_sums) (take N col_bombs) opened
    = compute_posteriors row_sums row_bombs col_sums col_bombs opened.
Proof.
  unfold _enumerate_all_boards, compute_posteriors, compute_posteriors_run.
  by rewrite enumerate_all_boards_run_take.
Qed.

Lemma row_patterns_of_take (row_sums row_bombs : list Z) (opened : gmap (Z * Z) Z)
    (r : nat) :
  (r < N)%nat →
  row_patterns_of (take N row_sums) (take N row_bombs) opened r
  = row_patterns_of row_sums row_bombs opened r.
Proof.
  intros Hr. unfold row_patterns_of. by rewrite !lookup_total_take_lt by done.
Qed.

Lemma cols_exact_take (col_sums col_bombs : list Z) (b : Grid) :
  cols_exact (take N col_sums) (take N col_bombs) b ↔ cols_exact col_sums col_bombs b.
Proof.
  unfold cols_exact. apply forall_proper. intros c. apply forall_proper. intros Hc.
  by rewrite !lookup_take_lt by done.
Qed.

Lemma enumerate_all_boards_run_closed_ge
    (row_sums row_bombs col_sums col_bombs : list Z) (opened : gmap (Z * Z) Z) :
  (N ≤ length row_sums)%nat → (N ≤ length row_bombs)%nat →
  (N ≤ length col_sums)%nat → (N ≤ length col_bombs)%nat →
  enumerate_all_boards_run row_sums row_bombs col_sums col_bombs opened
  = Some (filter (cols_exact col_sums col_bombs)
            (choices (row_patterns_of row_sums row_bombs opened <$> range 0 N)),
          opened).
Proof.
  intros Hrs Hrb Hcs Hcb. rewrite <- enumerate_all_boards_run_take.
  rewrite enumerate_all_boards_run_closed by (by apply length_take_le).
  f_equal. f_equal.
  erewrite (list_fmap_ext (row_patterns_of (take N row_sums) (take N row_bombs) opened)).
  - apply list_filter_iff. intros b. apply cols_exact_take.
  - intros i r Hr. apply row_patterns_of_take.
    apply list_elem_of_lookup_2 in Hr. by apply range5_elem.
Qed.

Lemma row_patterns_mapM (row_sums row_bombs col_sums col_bombs : list Z)
    (opened : gmap (Z * Z) Z) (arp : list (list (list Z))) :
  mapM (λ r, _enumerate_row_patterns r row_sums row_bombs col_sums col_bombs opened)
       (range 0 N) = Some arp →
  (N ≤ length row_sums)%nat ∧ (N ≤ length row_bombs)%nat
  ∧ arp = row_patterns_of row_sums row_bombs opened <$> range 0 N.
Proof.
  intros Hall%mapM_Some_1.
  assert (∀ r, (r < N)%nat →
            ∃ s b, row_sums !! r = Some s ∧ row_bombs !! r = Some b
                   ∧ arp !! r = Some (row_patterns_of row_sums row_bombs opened r))
    as Hrow.
  { intros r Hr.
    destruct (Forall2_lookup_l _ _ _ r r Hall) as (pats & Hpats & Hrun);
      [by apply range5_lookup|].
    unfold _enumerate_row_patterns, _row_remaining in Hrun.
    destruct (row_sums !! r) as [s|] eqn:Hs; [|done].
    destruct (row_bombs !! r) as [b|] eqn:Hb; [|done].
    cbn [mbind option_bind] in Hrun. apply (inj Some) in Hrun as <-.
    exists s, b. split; [done|]. split; [done|]. rewrite Hpats. f_equal.
    unfold row_patterns_of.
    by rewrite (list_lookup_total_correct _ _ _ Hs), (list_lookup_total_correct _ _ _ Hb). }
  destruct (Hrow 4%nat) as (s & b & Hs%lookup_lt_Some & Hb%lookup_lt_Some & _);
    [unfold N; lia|].
  split; [unfold N; lia|]. split; [unfold N; lia|].
  apply list_eq. intros r. rewrite list_lookup_fmap.
  destruct (decide (r < N)%nat) as [Hr | Hr].
  - destruct (Hrow r Hr) as (_ & _ & _ & _ & ->).
    by rewrite (proj2 (range5_lookup r r) (conj eq_refl Hr)).
  - rewrite !(proj2 (lookup_ge_None _ _)); [done | rewrite range5_length; lia |].
    apply Forall2_length in Hall. rewrite <- Hall, range5_length. lia.
Qed.

(** X8: the boards are the ways to pick one pattern for each row, in the
    order of the nested loops over the patterns, that meet the column
    constraints exactly: the column pruning and the rollback lose no board
    and change no order. *)
Theorem boards_closed_form
    (row_sums row_bombs col_sums col_bombs : list Z) (opened : gmap (Z * Z) Z)
    (arp : list (list (list Z))) :
  (N ≤ length col_sums)%nat → (N ≤ length col_bombs)%nat →
  mapM (λ r, _enumerate_row_patterns r row_sums row_bombs col_sums col_bombs opened)
       (range 0 N) = Some arp →
  _enumerate_all_boards row_sums row_bombs col_sums col_bombs opened
  = Some (filter (cols_exact col_sums col_bombs) (choices arp)).
Proof.
  intros Hcs Hcb (Hrs & Hrb & ->)%row_patterns_mapM.
  unfold _enumerate_all_boards.
  by rewrite enumerate_all_boards_run_closed_ge.
Qed.

Lemma boards_closed_form_witness :
  _enumerate_all_boards [6; 6; 5; 5; 5] [0; 0; 0; 0; 0] [6; 6; 5; 5; 5] [0; 0; 0; 0; 0] ∅
  = Some (filter (cols_exact [6; 6; 5; 5; 5] [0; 0; 0; 0; 0])
            (choices [[[1; 1; 1; 1; 2]; [1; 1; 1; 2; 1]; [1; 1; 2; 1; 1];
                       [1; 2; 1; 1; 1]; [2; 1; 1; 1; 1]];
                      [[1; 1; 1; 1; 2]; [1; 1; 1; 2; 1]; [1; 1; 2; 1; 1];
                       [1; 2; 1; 1; 1]; [2; 1; 1; 1; 1]];
                      [[1; 1; 1; 1; 1]]; [[1; 1; 1; 1; 1]]; [[1; 1; 1; 1; 1]]])).
Proof.
  apply boards_closed_form; [unfold N; cbn; lia..|]. vm_compute. reflexivity.
Defined.

(** X9: the boards come in strictly increasing order of Python's [<] on
    lists of rows. *)
Theorem boards_sorted
    (row_sums row_bombs col_sums col_bombs : list Z) (opened : gmap (Z * Z) Z)
    (sols : list Grid) :
  (N ≤ length row_sums)%nat → (N ≤ length row_bombs)%nat →
  (N ≤ length col_sums)%nat → (N ≤ length col_bombs)%nat →
  _enumerate_all_boards row_sums row_bombs col_sums col_bombs opened = Some sols →
  StronglySorted board_lt sols.
Proof.
  intros Hrs Hrb Hcs Hcb. unfold _enumerate_all_boards.
  rewrite enumerate_all_boards_run_closed_ge by done. cbn [fmap option_fmap option_map fst].
  intros Hs. apply (inj Some) in Hs. subst sols.
  eapply StronglySorted_sublist; [apply sublist_filter|].
  apply choices_sorted, Forall_fmap, Forall_forall. intros r _. apply dfs_sorted.
Qed.

Lemma boards_sorted_witness :
  StronglySorted board_lt
    [[[1; 2; 1; 1; 1]; [2; 1; 1; 1; 1]; [1; 1; 1; 1; 1]; [1; 1; 1; 1; 1];
      [1; 1; 1; 1; 1]];
     [[2; 1; 1; 1; 1]; [1; 2; 1; 1; 1]; [1; 1; 1; 1; 1]; [1; 1; 1; 1; 1];
      [1; 1; 1; 1; 1]]].
Proof.
  apply (boards_sorted [6; 6; 5; 5; 5] [0; 0; 0; 0; 0] [6; 6; 5; 5; 5] [0; 0; 0; 0; 0] ∅);
    [unfold N; cbn; lia..|].
  vm_compute. reflexivity.
Defined.

(** *** The rollback *)

(** X10: the search restores what it mutates: when [dfs_row(0)] returns, the
    working grid and the column totals [col_sum] and [col_bz] are as they
    were before the call, and only [solutions] has grown. *)
Theorem search_restores_state
    (row_sums row_bombs col_sums col_bombs : list Z) (opened : gmap (Z * Z) Z)
    (arp : list (list (list Z))) :
  (N ≤ length col_sums)%nat → (N ≤ length col_bombs)%nat →
  mapM (λ r, _enumerate_row_patterns r row_sums row_bombs col_sums col_bombs opened)
       (range 0 N) = Some arp →
  ∃ st,
    dfs_row col_sums col_bombs arp 0 (init_store opened) = Some st
    ∧ grid st = grid (init_store opened)
    ∧ col_sum st = col_sum (init_store opened)
    ∧ col_bz st = col_bz (init_store opened)
    ∧ st_opened st = opened.
Proof.
  intros Hcs Hcb (Hrs & Hrb & ->)%row_patterns_mapM.
  rewrite <- dfs_row_take, init_store_at.
  destruct (dfs_row_sublist (take N col_sums) (take N col_bombs)
              ltac:(by apply length_take_le) ltac:(by apply length_take_le) opened
              (row_patterns_of row_sums row_bombs opened <$> range 0 N) [] [])
    as (L & Hrun & _).
  - by rewrite length_fmap.
  - constructor.
  - cbn [length]. rewrite drop_0, grid0_eq.
    apply Forall2_fmap, Forall_Forall2_diag, Forall_forall.
    intros r _. apply row_patterns_of_fit.
  - cbn [length] in Hrun. rewrite Hrun. eexists. split; [reflexivity|]. done.
Qed.

Lemma search_restores_state_witness :
  ∃ st,
    dfs_row [6; 6; 5; 5; 5] [0; 0; 0; 0; 0]
      [[[1; 1; 1; 1; 2]; [1; 1; 1; 2; 1]; [1; 1; 2; 1; 1]; [1; 2; 1; 1; 1];
        [2; 1; 1; 1; 1]];
       [[1; 1; 1; 1; 2]; [1; 1; 1; 2; 1]; [1; 1; 2; 1; 1]; [1; 2; 1; 1; 1];
        [2; 1; 1; 1; 1]];
       [[1; 1; 1; 1; 1]]; [[1; 1; 1; 1; 1]]; [[1; 1; 1; 1; 1]]] 0 (init_store ∅)
    = Some st
    ∧ grid st = grid (init_store ∅)
    ∧ col_sum st = col_sum (init_store ∅)
    ∧ col_bz st = col_bz (init_store ∅)
    ∧ st_opened st = ∅.
Proof.
  apply (search_restores_state [6; 6; 5; 5; 5] [0; 0; 0; 0; 0] [6; 6; 5; 5; 5]
           [0; 0; 0; 0; 0] ∅); [unfold N; cbn; lia..|].
  vm_compute. reflexivity.
Defined.

(** *** The test of a pattern against the grid *)



(** ** Further properties of the posteriors *)

Section pipeline_ge.
Context {F : Type} `{FloatOps F}.
Variables row_sums row_bombs col_sums col_bombs : list Z.
Hypothesis Hrs : (N ≤ length row_sums)%nat.
Hypothesis Hrb : (N ≤ length row_bombs)%nat.
Hypothesis Hcs : (N ≤ length col_sums)%nat.
Hypothesis Hcb : (N ≤ length col_bombs)%nat.
Variable opened : gmap (Z * Z) Z.

(** The pipeline on constraint lists of five entries or more. *)
Lemma pipeline_ge :
  ∃ L, enumerate_all_boards_run row_sums row_bombs col_sums col_bombs opened
       = Some (L, opened)
     ∧ NoDup L
     ∧ (∀ b, b ∈ L →
          Forall2 (λ p pats, p ∈ pats) b
                  (row_patterns_of row_sums row_bombs opened <$> range 0 N))
     ∧ compute_posteriors_run (F:=F) row_sums row_bombs col_sums col_bombs opened
       = Some (match L with [] => [] | _ => posteriors_of opened L end,
               Z.of_nat (length L), opened)
     ∧ (∀ b rc, b ∈ L → rc ∈ targets_of opened →
          ∃ v, grid_val b rc.1 rc.2 = Some v ∧ 0 ≤ v ≤ 3)
     ∧ (∀ rc, rc ∈ targets_of opened →
          tally_sum (tally_of L rc) = Z.of_nat (length L)).
Proof.
  assert (length (take N row_sums) = N) as Hrs' by (by apply length_take_le).
  assert (length (take N row_bombs) = N) as Hrb' by (by apply length_take_le).
  assert (length (take N col_sums) = N) as Hcs' by (by apply length_take_le).
  assert (length (take N col_bombs) = N) as Hcb' by (by apply length_take_le).
  destruct (compute_posteriors_run_spec (F:=F) _ _ _ _ Hrs' Hrb' Hcs' Hcb' opened)
    as (L & Hrun & Hnd & HL & Hpost & Hcount).
  rewrite enumerate_all_boards_run_take in Hrun.
  unfold compute_posteriors_run in Hpost.
  rewrite enumerate_all_boards_run_take in Hpost.
  exists L. split; [done|]. split; [done|].
  assert (∀ b, b ∈ L →
            Forall2 (λ p pats, p ∈ pats) b
                    (row_patterns_of row_sums row_bombs opened <$> range 0 N)) as Hrows.
  { intros b [Hb _]%HL.
    erewrite list_fmap_ext; [exact Hb|]. intros i r Hr. symmetry.
    apply row_patterns_of_take. apply list_elem_of_lookup_2 in Hr.
    by apply range5_elem. }
  split; [done|]. split; [exact Hpost|].
  assert (∀ b rc, b ∈ L → rc ∈ targets_of opened →
            ∃ v, grid_val b rc.1 rc.2 = Some v ∧ 0 ≤ v ≤ 3) as Hvals.
  { intros b rc [Hb _]%HL Hrc.
    by apply (board_target_values _ _ _ _ Hrs' Hrb' Hcs' Hcb' opened b rc). }
  split; [done|].
  intros rc Hrc. apply tally_sum_of. intros g Hg. by apply Hvals.
Qed.

End pipeline_ge.

(** X12: with five entries or more in every constraint list,
    [_enumerate_all_boards] and [compute_posteriors] raise for no revealed
    map, also one with keys outside the grid or with values outside 0..3,
    and the count that [compute_posteriors] returns is the number of
    boards. *)
Theorem pipeline_never_raises {F : Type} `{FloatOps F}
    (row_sums row_bombs col_sums col_bombs : list Z) (opened : gmap (Z * Z) Z) :
  (N ≤ length row_sums)%nat → (N ≤ length row_bombs)%nat →
  (N ≤ length col_sums)%nat → (N ≤ length col_bombs)%nat →
  ∃ (sols : list Grid) (post : list (nat * nat * Posterior F)),
    _enumerate_all_boards row_sums row_bombs col_sums col_bombs opened = Some sols
    ∧ compute_posteriors row_sums row_bombs col_sums col_bombs opened
      = Some (post, Z.of_nat (length sols)).
Proof.
  intros Hrs Hrb Hcs Hcb.
  destruct (pipeline_ge (F:=F) row_sums row_bombs col_sums col_bombs
              Hrs Hrb Hcs Hcb opened) as (L & Hrun & _ & _ & Hpost & _).
  exists L. eexists. unfold _enumerate_all_boards, compute_posteriors.
  rewrite Hrun, Hpost. done.
Qed.

Lemma pipeline_never_raises_witness :
  ∃ (sols : list Grid) (post : list (nat * nat * Posterior QArith_base.Q)),
    _enumerate_all_boards [8; 5; 5; 5; 5; 7] [0; 0; 0; 0; 0] [5; 5; 5; 5; 5]
      [0; 0; 0; 0; 0; 0] {[ (0, 7) := 9 ]} = Some sols
    ∧ compute_posteriors (H:=Q_ops) [8; 5; 5; 5; 5; 7] [0; 0; 0; 0; 0] [5; 5; 5; 5; 5]
        [0; 0; 0; 0; 0; 0] {[ (0, 7) := 9 ]} = Some (post, Z.of_nat (length sols)).
Proof. apply (pipeline_never_raises (H:=Q_ops)); unfold N; cbn; lia. Defined.



(** *** Counts along a row *)

Lemma total_over_add (cs : list nat) (f g : nat → Z) :
  total_over cs (λ c, f c + g c) = total_over cs f + total_over cs g.
Proof.
  unfold total_over. induction cs as [|c cs IH]; cbn [foldr]; [done|]. rewrite IH. lia.
Qed.

Lemma total_over_ext (cs : list nat) (f g : nat → Z) :
  (∀ c, c ∈ cs → f c = g c) → total_over cs f = total_over cs g.
Proof.
  unfold total_over. induction cs as [|c cs IH]; intros Hfg; [done|]. cbn [foldr].
  rewrite (Hfg c) by left. f_equal. apply IH. intros c' Hc'. apply Hfg. by right.
Qed.

Lemma total_over_zero (cs : list nat) : total_over cs (λ _, 0) = 0.
Proof.
  unfold total_over. induction cs as [|c cs IH]; cbn [foldr]; [done|]. by rewrite IH.
Qed.

Lemma decide_Some_zero (x : Z) :
  (if decide (Some x = Some 0) then 1 else 0) = (if x =? 0 then 1 else 0).
Proof. case_decide; destruct (Z.eqb_spec x 0); simplify_eq; done. Qed.

(** The free cells of a row, read by their columns. *)
Lemma free_cells_total (r : nat) (opened : gmap (Z * Z) Z) (p : list Z) :
  length p = N →
  total_over (filter (λ c, opened !! coord r c = None) (range 0 N))
             (λ c, if decide (p !! c = Some 0) then 1 else 0)
  = free_bombs (row_fixed_of r opened) p
  ∧ total_over (filter (λ c, opened !! coord r c = None) (range 0 N))
               (λ c, default 0 (p !! c))
    = free_sum (row_fixed_of r opened) p.
Proof.
  intros Hp. list5 p Hp. unfold row_fixed_of, range, N.
  cbn [seq Nat.sub fmap list_fmap]. rewrite !filter_cons, filter_nil.
  destruct (opened !! coord r 0) as [v0|]; destruct (opened !! coord r 1) as [v1|];
    destruct (opened !! coord r 2) as [v2|]; destruct (opened !! coord r 3) as [v3|];
    destruct (opened !! coord r 4) as [v4|];
    repeat (first [rewrite decide_True by done | rewrite decide_False by done]);
    cbn [total_over foldr free_bombs free_sum lookup list_lookup from_option id];
    (split; [|lia]); by rewrite ?decide_Some_zero.
Qed.

Lemma count_val_cons (g : Grid) (sols : list Grid) (rc : nat * nat) (v : Z) :
  count_val (g :: sols) rc v
  = (if decide (grid_val g rc.1 rc.2 = Some v) then 1 else 0) + count_val sols rc v.
Proof.
  unfold count_val. rewrite filter_cons. case_decide; cbn [length]; lia.
Qed.

Lemma row_counts_list (r : nat) (opened : gmap (Z * Z) Z) (R Z0 : Z) (sols : list Grid) :
  (∀ b, b ∈ sols →
     ∃ p, b !! r = Some p ∧ fits (row_fixed_of r opened) p
          ∧ free_sum (row_fixed_of r opened) p = R
          ∧ free_bombs (row_fixed_of r opened) p = Z0) →
  total_over (filter (λ c, opened !! coord r c = None) (range 0 N))
             (λ c, count_val sols (r, c) 0)
  = Z.of_nat (length sols) * Z0
  ∧ total_over (filter (λ c, opened !! coord r c = None) (range 0 N))
               (λ c, count_val sols (r, c) 1 + 2 * count_val sols (r, c) 2
                     + 3 * count_val sols (r, c) 3)
    = Z.of_nat (length sols) * R.
Proof.
  induction sols as [|b sols IH]; intros Hall.
  - unfold count_val. cbn [filter list_filter length]. rewrite !total_over_zero. lia.
  - destruct IH as [IHb IHs]; [intros b' Hb'; apply Hall; by right|].
    destruct (Hall b) as (p & Hp & Hf & Hs & Hb); [left|].
    assert (length p = N) as Hlp
      by (rewrite (fits_length _ _ Hf); apply row_fixed_of_length).
    destruct (free_cells_total r opened p Hlp) as [Hfb Hfs].
    assert (∀ c, grid_val b r c = p !! c) as Hgv
      by (intros c; unfold grid_val; by rewrite Hp).
    split.
    + erewrite total_over_ext;
        [|intros c _; rewrite count_val_cons; cbn [fst snd]; rewrite Hgv; reflexivity].
      rewrite total_over_add, IHb, Hfb, Hb. cbn [length]. lia.
    + erewrite (total_over_ext _ _
                  (λ c, default 0 (p !! c)
                        + (count_val sols (r, c) 1 + 2 * count_val sols (r, c) 2
                           + 3 * count_val sols (r, c) 3))).
      * rewrite total_over_add, IHs, Hfs, Hs. cbn [length]. lia.
      * intros c [Hnone Hc%range5_elem]%list_elem_of_filter.
        rewrite !count_val_cons. cbn [fst snd]. rewrite !Hgv.
        destruct (lookup_lt_is_Some_2 p c) as [x Hx]; [lia|].
        pose proof (fits_lookup _ _ c None x Hf
                      (proj2 (row_fixed_of_lookup r c opened _)
                             (conj (eq_sym Hnone) Hc)) Hx) as Hx03.
        rewrite Hx. cbn [from_option id]. cbn beta iota in Hx03.
        assert (x = 0 ∨ x = 1 ∨ x = 2 ∨ x = 3) as [-> | [-> | [-> | ->]]] by lia;
          repeat case_decide; simplify_eq; lia.
Qed.

(** X14: along the cells of a row that are not revealed, the numbers of
    boards with a bomb at the cell add up to the number of boards times the
    remaining bombs of the row, and the values of the cells over all boards
    add up to the number of boards times the remaining sum, as
    [_row_remaining] returns them. *)
Theorem row_counts_total
    (row_sums row_bombs col_sums col_bombs : list Z) (opened : gmap (Z * Z) Z)
    (sols : list Grid) (r : nat) (R Z0 : Z) (k : nat) (cs : list nat) :
  (N ≤ length row_sums)%nat → (N ≤ length row_bombs)%nat →
  (N ≤ length col_sums)%nat → (N ≤ length col_bombs)%nat →
  (r < N)%nat →
  _enumerate_all_boards row_sums row_bombs col_sums col_bombs opened = Some sols →
  _row_remaining r row_sums row_bombs opened = Some (R, Z0, k, cs) →
  total_over cs (λ c, count_val sols (r, c) 0) = Z.of_nat (length sols) * Z0
  ∧ total_over cs (λ c, count_val sols (r, c) 1 + 2 * count_val sols (r, c) 2
                        + 3 * count_val sols (r, c) 3)
    = Z.of_nat (length sols) * R.
Proof.
  intros Hrs Hrb Hcs Hcb Hr Hsols Hrem.
  destruct (pipeline_ge (F:=QArith_base.Q) (H:=Q_ops) row_sums row_bombs col_sums col_bombs
              Hrs Hrb Hcs Hcb opened) as (L & Hrun & _ & Hrows & _).
  unfold _enumerate_all_boards in Hsols. rewrite Hrun in Hsols.
  cbn [fmap option_fmap option_map fst] in Hsols. apply (inj Some) in Hsols as <-.
  unfold _row_remaining in Hrem.
  destruct (row_sums !! r) as [s|] eqn:Hs; [|done].
  destruct (row_bombs !! r) as [b|] eqn:Hb; [|done].
  cbn [mbind option_bind] in Hrem. injection Hrem as <- <- <- <-.
  apply row_counts_list. intros g Hg.
  specialize (Hrows g Hg). rewrite Forall2_fmap_r in Hrows.
  destruct (Forall2_lookup_r _ _ _ r r Hrows) as (p & Hp & Hin);
    [by apply range5_lookup|].
  unfold compose, row_patterns_of in Hin.
  rewrite (list_lookup_total_correct _ _ _ Hs), (list_lookup_total_correct _ _ _ Hb) in Hin.
  apply dfs_sound in Hin as (q & -> & Hf & Hsum & Hbombs). cbn [app] in Hp.
  by exists q.
Qed.

Lemma row_counts_total_witness :
  ∃ sols,
    _enumerate_all_boards [6; 6; 5; 5; 5] [0; 0; 0; 0; 0] [6; 6; 5; 5; 5] [0; 0; 0; 0; 0] ∅
    = Some sols
    ∧ total_over [0; 1; 2; 3; 4]%nat (λ c, count_val sols (0%nat, c) 0)
      = Z.of_nat (length sols) * 0
    ∧ total_over [0; 1; 2; 3; 4]%nat
        (λ c, count_val sols (0%nat, c) 1 + 2 * count_val sols (0%nat, c) 2
              + 3 * count_val sols (0%nat, c) 3)
      = Z.of_nat (length sols) * 6.
Proof.
  assert (∃ sols,
            _enumerate_all_boards [6; 6; 5; 5; 5] [0; 0; 0; 0; 0] [6; 6; 5; 5; 5]
              [0; 0; 0; 0; 0] ∅ = Some sols) as [sols Hsols]
    by (eexists; vm_compute; reflexivity).
  exists sols. split; [exact Hsols|].
  apply (row_counts_total [6; 6; 5; 5; 5] [0; 0; 0; 0; 0] [6; 6; 5; 5; 5] [0; 0; 0; 0; 0] ∅
           sols 0 6 0 5 [0; 1; 2; 3; 4]%nat); try (unfold N; cbn; lia).
  - exact Hsols.
  - vm_compute. reflexivity.
Defined.

(** The keys of the posterior map are cells that are not revealed. *)
Lemma posterior_keys_targets {F : Type} `{FloatOps F}
    (row_sums row_bombs col_sums col_bombs : list Z) (opened : gmap (Z * Z) Z)
    (post : list (nat * nat * Posterior F)) (n : Z) (rc : nat * nat) (rec : Posterior F) :
  (N ≤ length row_sums)%nat → (N ≤ length row_bombs)%nat →
  (N ≤ length col_sums)%nat → (N ≤ length col_bombs)%nat →
  compute_posteriors row_sums row_bombs col_sums col_bombs opened = Some (post, n) →
  (rc, rec) ∈ post →
  (rc.1 < N)%nat ∧ (rc.2 < N)%nat ∧ opened !! coord rc.1 rc.2 = None.
Proof.
  intros Hrs Hrb Hcs Hcb Hpost Hin.
  destruct (pipeline_ge (F:=F) row_sums row_bombs col_sums col_bombs
              Hrs Hrb Hcs Hcb opened) as (L & _ & _ & _ & Hrun & _).
  unfold compute_posteriors in Hpost. rewrite Hrun in Hpost.
  cbn [fmap option_fmap option_map fst] in Hpost. injection Hpost as <- <-.
  destruct L as [|g L']; [by apply elem_of_nil in Hin|].
  unfold posteriors_of in Hin. apply list_elem_of_fmap in Hin as ([r c] & [= -> ->] & Hrc).
  by apply targets_of_elem in Hrc.
Qed.

Lemma compute_posteriors_total {F : Type} `{FloatOps F}
    (row_sums row_bombs col_sums col_bombs : list Z) (opened : gmap (Z * Z) Z) :
  (N ≤ length row_sums)%nat → (N ≤ length row_bombs)%nat →
  (N ≤ length col_sums)%nat → (N ≤ length col_bombs)%nat →
  is_Some (compute_posteriors (F:=F) row_sums row_bombs col_sums col_bombs opened).
Proof.
  intros Hrs Hrb Hcs Hcb.
  destruct (pipeline_ge (F:=F) row_sums row_bombs col_sums col_bombs
              Hrs Hrb Hcs Hcb opened) as (L & _ & _ & _ & Hrun & _).
  unfold compute_posteriors. by rewrite Hrun.
Qed.

(** ** Further properties of the recommendation *)

Lemma foldl_min_in {A} (lt : A → A → bool) (x0 : A) (rest : list A) :
  foldl (λ best y, if lt y best then y else best) x0 rest ∈ x0 :: rest.
Proof.
  revert x0. induction rest as [|y rest IH]; intros x0; cbn [foldl]; [left|].
  destruct (lt y x0).
  - right. apply IH.
  - specialize (IH x0). apply elem_of_cons in IH as [-> | Hin]; [left|].
    right. by right.
Qed.

Lemma choose_next_safest_in {F : Type} `{FloatOps F}
    (post : list (nat * nat * Posterior F)) (kv : nat * nat * Posterior F) :
  choose_next_safest post = Some kv → kv ∈ post.
Proof.
  destruct post as [|kv0 rest]; [done|]. cbn [choose_next_safest].
  intros [= <-]. apply foldl_min_in.
Qed.

(** X15: the cell that [choose_next_safest] picks from the map of
    [compute_posteriors] is a cell of the grid that is not revealed, and its
    record counts every board; there is no pick exactly when there is no
    board or no cell is left. *)
Theorem recommendation_unrevealed {F : Type} `{FloatOps F}
    (row_sums row_bombs col_sums col_bombs : list Z) (opened : gmap (Z * Z) Z)
    (post : list (nat * nat * Posterior F)) (n : Z) :
  (N ≤ length row_sums)%nat → (N ≤ length row_bombs)%nat →
  (N ≤ length col_sums)%nat → (N ≤ length col_bombs)%nat →
  compute_posteriors row_sums row_bombs col_sums col_bombs opened = Some (post, n) →
  (choose_next_safest post = None
   ↔ n = 0 ∨ ∀ r c, (r < N)%nat → (c < N)%nat → opened !! coord r c ≠ None)
  ∧ ∀ rc rec, choose_next_safest post = Some (rc, rec) →
      (rc.1 < N)%nat ∧ (rc.2 < N)%nat ∧ opened !! coord rc.1 rc.2 = None
      ∧ (rc, rec) ∈ post ∧ total rec = n ∧ 0 < n.
Proof.
  intros Hrs Hrb Hcs Hcb Hpost.
  destruct (pipeline_ge (F:=F) row_sums row_bombs col_sums col_bombs
              Hrs Hrb Hcs Hcb opened) as (L & _ & _ & _ & Hrun & _ & Hsum).
  unfold compute_posteriors in Hpost. rewrite Hrun in Hpost.
  cbn [fmap option_fmap option_map fst] in Hpost. injection Hpost as <- <-.
  split.
  - destruct L as [|g L']; [split; [by left | done]|].
    unfold posteriors_of. cbn [length].
    destruct (targets_of opened) as [|[r c] l] eqn:Ht.
    + split; [|done]. intros _. right. intros r c Hr Hc Hnone.
      assert ((r, c) ∈ targets_of opened) as Hin by (by apply targets_of_elem).
      rewrite Ht in Hin. by apply elem_of_nil in Hin.
    + split; [done|]. intros [Hn | Hall]; [lia|].
      assert ((r, c) ∈ targets_of opened) as Hin by (rewrite Ht; left).
      apply targets_of_elem in Hin as (Hr & Hc & Hnone). by destruct (Hall r c).
  - intros rc rec Hin%choose_next_safest_in.
    destruct L as [|g L']; [by apply elem_of_nil in Hin|].
    pose proof Hin as Hin'.
    unfold posteriors_of in Hin. apply list_elem_of_fmap in Hin as (rc' & [= -> ->] & Hrc).
    pose proof Hrc as Hrc'. destruct rc' as [r c].
    apply targets_of_elem in Hrc as (Hr & Hc & Hnone).
    cbn [fst snd posterior_of total].
    split; [done|]. split; [done|]. split; [done|]. split; [done|].
    rewrite (Hsum _ Hrc'). split; [done|]. cbn [length]. lia.
Qed.

Lemma recommendation_unrevealed_witness :
  ∃ (post : list (nat * nat * Posterior QArith_base.Q)) (n : Z),
    compute_posteriors (H:=Q_ops) [6; 6; 5; 5; 5] [0; 0; 0; 0; 0] [6; 6; 5; 5; 5]
      [0; 0; 0; 0; 0] {[ (0, 0) := 2 ]} = Some (post, n)
    ∧ ∀ rc rec, choose_next_safest (H:=Q_ops) post = Some (rc, rec) →
        (rc.1 < N)%nat ∧ (rc.2 < N)%nat
        ∧ ({[ (0, 0) := 2 ]} : gmap (Z * Z) Z) !! coord rc.1 rc.2 = None
        ∧ (rc, rec) ∈ post ∧ total rec = n ∧ 0 < n.
Proof.
  assert (∃ (post : list (nat * nat * Posterior QArith_base.Q)) (n : Z),
            compute_posteriors (H:=Q_ops) [6; 6; 5; 5; 5] [0; 0; 0; 0; 0] [6; 6; 5; 5; 5]
              [0; 0; 0; 0; 0] {[ (0, 0) := 2 ]} = Some (post, n)) as (post & n & Hc)
    by (eexists _, _; vm_compute; reflexivity).
  exists post, n. split; [exact Hc|].
  apply (recommendation_unrevealed (H:=Q_ops) [6; 6; 5; 5; 5] [0; 0; 0; 0; 0]
           [6; 6; 5; 5; 5] [0; 0; 0; 0; 0] {[ (0, 0) := 2 ]} post n);
    [unfold N; cbn; lia..|exact Hc].
Defined.

(** *** The pick and the number of boards with a bomb *)

Section float_order.
Import QArith_base Qabs Qfield.
Local Open Scope Z_scope.

Lemma ratio_le_one (a n : Z) : a ≤ n → 0 < n → (ratio a n <= 1)%Q.
Proof.
  intros Ha Hn. unfold ratio. apply Qle_shift_div_r.
  - change 0%Q with (inject_Z 0). by rewrite <- Zlt_Qlt.
  - rewrite Qmult_1_l. by rewrite <- Zle_Qle.
Qed.

Lemma ratio_gap (a b n : Z) :
  a < b → 0 < n ≤ 1125899906842624 →
  (ratio a n + Qmake 1 1125899906842624 <= ratio b n)%Q.
Proof.
  intros Hab Hn.
  assert (ratio b n == ratio a n + ratio (b - a) n)%Q as ->.
  { unfold ratio. unfold Z.sub. rewrite inject_Z_plus, inject_Z_opp. field.
    intros Heq. apply (proj1 (inject_Z_injective _ 0)) in Heq. lia. }
  assert (Qmake 1 1125899906842624 <= ratio (b - a) n)%Q; [|Lqa.lra].
  unfold ratio. apply Qle_shift_div_l.
  - change 0%Q with (inject_Z 0). rewrite <- Zlt_Qlt. lia.
  - assert (inject_Z n <= inject_Z 1125899906842624)%Q as H1
      by (rewrite <- Zle_Qle; lia).
    assert (inject_Z 1 <= inject_Z (b - a))%Q as H2 by (rewrite <- Zle_Qle; lia).
    change (inject_Z 1125899906842624) with (1125899906842624 # 1)%Q in H1.
    change (inject_Z 1) with 1%Q in H2. Lqa.lra.
Qed.

Context {F : Type} `{FloatOps F} `{FloatValue F}.
Context `{!FloatRounding F} `{!FloatCompare F}.

(** The true division keeps the order of two counts of boards. *)
Lemma fdiv_int_strict (a b n : Z) :
  0 ≤ a → a < b → b ≤ n → 0 < n ≤ 1125899906842624 →
  fltb (fdiv_int a n) (fdiv_int b n) = true.
Proof.
  intros Ha Hab Hb Hn. apply fltb_value.
  destruct (fdiv_int_rounds a n) as [_ Hua]; [lia | lia|].
  destruct (fdiv_int_rounds b n) as [Hlb _]; [lia | lia|].
  pose proof (ratio_gap a b n Hab Hn) as Hgap.
  pose proof (ratio_le_one b n Hb (proj1 Hn)) as Hb1.
  pose proof (ratio_nonneg a n Ha (proj1 Hn)) as Ha0.
  generalize dependent (ratio a n). generalize dependent (ratio b n).
  intros qb Hlb Hb1 qa Hua Hgap Ha0. unfold float_u in *. Lqa.lra.
Qed.

(** Comparisons of values are the order of the floats. *)
Lemma FloatCompare_order : FloatOrder F.
Proof.
  split.
  - intros a. apply feqb_value. Lqa.lra.
  - intros a b. rewrite !feqb_value. Lqa.lra.
  - intros a b c. rewrite !feqb_value. Lqa.lra.
  - intros a b c. rewrite !fltb_value. Lqa.lra.
  - intros a b Hlt%fltb_value. apply (bool_false_iff _ _ (feqb_value a b)). Lqa.lra.
  - intros a b Hne. rewrite !fltb_value.
    assert (¬ Qeq (fval a) (fval b)) as Hne'
      by (intros Heq%feqb_value; congruence).
    destruct (Q_dec (fval a) (fval b)) as [[Hlt | Hgt] | Heq]; [by left | by right | done].
  - intros a a' b Heq%feqb_value. apply bool_eq_iff. rewrite !fltb_value. Lqa.lra.
  - intros a b b' Heq%feqb_value. apply bool_eq_iff. rewrite !fltb_value. Lqa.lra.
  - intros a b. apply bool_eq_iff. rewrite !fltb_value, !fneg_value. Lqa.lra.
  - intros a b. apply bool_eq_iff. rewrite !feqb_value, !fneg_value. Lqa.lra.
Qed.

End float_order.


Lemma Q_compare : FloatCompare QArith_base.Q (H:=Q_ops) (H0:=Q_value).
Proof.
  split.
  - apply Q_fltb_iff.
  - apply Q_feqb_iff.
  - intros a. cbn [fval Q_value fneg Q_ops]. reflexivity.
Qed.


(** ** Properties of the input validation *)

Lemma py_sum_line (l : list Z) : py_sum l = line_sum l.
Proof.
  unfold py_sum, line_sum.
  assert (∀ a, foldl Z.add a l = a + foldr Z.add 0 l) as Hgen.
  { induction l as [|x l IH]; intros a; cbn [foldl foldr]; [lia|]. rewrite IH. lia. }
  rewrite Hgen. lia.
Qed.

Ltac list5up l H :=
  let a := fresh l "0" in let b := fresh l "1" in let c := fresh l "2" in
  let d := fresh l "3" in let e := fresh l "4" in
  destruct l as [|a [|b [|c [|d [|e l]]]]];
  try (exfalso; cbn [length] in H; unfold N in H; lia); clear H.

Ltac step_check :=
  match goal with
  | |- context [negb ((?a <=? ?b) && (?c <=? ?d))] =>
      destruct (Z.leb_spec a b); cbn [andb negb];
      [destruct (Z.leb_spec c d); cbn [andb negb]|];
      try (split; [done|]; split; [done | intros; exfalso; lia])
  end.

Lemma sanity_check_closed (row_sums row_bombs col_sums col_bombs : list Z) :
  (N ≤ length row_sums)%nat → (N ≤ length row_bombs)%nat →
  (N ≤ length col_sums)%nat → (N ≤ length col_bombs)%nat →
  is_Some (sanity_check row_sums row_bombs col_sums col_bombs)
  ∧ (sanity_check row_sums row_bombs col_sums col_bombs = Some None
     ↔ py_sum row_sums = py_sum col_sums
       ∧ py_sum row_bombs = py_sum col_bombs
       ∧ ∀ i, (i < N)%nat →
           line_ok (row_bombs !!! i) (row_sums !!! i)
           ∧ line_ok (col_bombs !!! i) (col_sums !!! i)).
Proof.
  intros Hrs Hrb Hcs Hcb. unfold sanity_check.
  destruct (Z.eqb_spec (py_sum row_sums) (py_sum col_sums)) as [Hs|Hs]; cbn [negb];
    [|split; [done|]; split; [done | intros (? & _); done]].
  destruct (Z.eqb_spec (py_sum row_bombs) (py_sum col_bombs)) as [Hb|Hb]; cbn [negb];
    [|split; [done|]; split; [done | intros (_ & ? & _); done]].
  match goal with
  | |- is_Some ?X ∧ (_ ↔ ?A ∧ ?B ∧ ?C) =>
      cut (is_Some X ∧ (X = Some None ↔ C));
      [intros [? [? ?]]; split; [done|]; split; tauto|]
  end.
  clear Hs Hb.
  list5up row_sums Hrs. list5up row_bombs Hrb. list5up col_sums Hcs. list5up col_bombs Hcb.
  assert (∀ P : nat → Prop,
            (∀ i, (i < N)%nat → P i) ↔ P 0%nat ∧ P 1%nat ∧ P 2%nat ∧ P 3%nat ∧ P 4%nat)
    as Hall.
  { intros P. split.
    - intros HP. repeat split; apply HP; unfold N; lia.
    - intros (? & ? & ? & ? & ?) i Hi. nat5 i Hi; done. }
  rewrite Hall. unfold line_ok, N.
  cbn [range seq Nat.sub for_in lookup list_lookup lookup_total list_lookup_total
       mbind option_bind].
  do 20 step_check.
  split; [done|]. split; [|done]. intros _. lia.
Qed.

Ltac step_lookup :=
  match goal with
  | |- context [?l !! ?i ≫= _] =>
      let E := fresh "E" in
      destruct (l !! i) eqn:E; cbn [mbind option_bind]; [|discriminate]
  | |- context [if negb ?t then _ else _] =>
      destruct t; cbn [negb]; [|discriminate]
  end.

(** A loop of [sanity_check] that runs to its end has read five bombs and
    five sums. *)
Lemma sanity_loop_lengths (bombs sums : list Z) (eb : nat → SanityError)
    (es : nat → Z → SanityError) :
  for_in (range 0 N) (λ (i : nat) (res : option SanityError),
    b ← bombs !! i;
    if negb ((0 <=? b) && (b <=? Z.of_nat N))
    then Some (Break (Some (eb i)))
    else
      let nb := Z.of_nat N - b in
      s ← sums !! i;
      if negb ((nb * 1 <=? s) && (s <=? nb * 3))
      then Some (Break (Some (es i nb)))
      else Some (Next res)) None = Some None →
  (N ≤ length bombs)%nat ∧ (N ≤ length sums)%nat.
Proof.
  cbn [range seq Nat.sub N for_in].
  do 20 step_lookup. intros _.
  split; match goal with
         | H : ?l !! 4%nat = Some _ |- (_ ≤ length ?l)%nat =>
             apply lookup_lt_Some in H; unfold N; lia
         end.
Qed.

Lemma sanity_check_lengths (row_sums row_bombs col_sums col_bombs : list Z) :
  sanity_check row_sums row_bombs col_sums col_bombs = Some None →
  (N ≤ length row_sums)%nat ∧ (N ≤ length row_bombs)%nat
  ∧ (N ≤ length col_sums)%nat ∧ (N ≤ length col_bombs)%nat.
Proof.
  unfold sanity_check.
  destruct (negb (_ =? _)); [discriminate|].
  destruct (negb (_ =? _)); [discriminate|].
  match goal with
  | |- ?loop ≫= _ = _ → _ => destruct loop as [[e|]|] eqn:Hrows
  end; cbn [mbind option_bind]; [discriminate | | discriminate].
  intros Hcols.
  apply sanity_loop_lengths in Hrows as [? ?].
  apply sanity_loop_lengths in Hcols as [? ?]. done.
Qed.

(** Sum and bombs of a line of cells 0..3. *)
Lemma line_bounds (l : list Z) :
  Forall (λ v, 0 ≤ v ≤ 3) l →
  0 ≤ bomb_count l ≤ Z.of_nat (length l)
  ∧ (Z.of_nat (length l) - bomb_count l) * 1 ≤ line_sum l
  ∧ line_sum l ≤ (Z.of_nat (length l) - bomb_count l) * 3.
Proof.
  induction 1 as [|x l Hx _ IH].
  - unfold bomb_count, line_sum. cbn. lia.
  - rewrite bomb_count_cons, line_sum_cons. cbn [length].
    destruct (Z.eqb_spec x 0); lia.
Qed.

Lemma valid_board_totals (row_sums row_bombs col_sums col_bombs : list Z)
    (opened : gmap (Z * Z) Z) (g : Grid) :
  length row_sums = N → length row_bombs = N →
  length col_sums = N → length col_bombs = N →
  valid_board row_sums row_bombs col_sums col_bombs opened g →
  line_sum row_sums = line_sum col_sums ∧ line_sum row_bombs = line_sum col_bombs.
Proof.
  intros Hrs Hrb Hcs Hcb (Hlen & Hrows & Hr & Hc & _).
  list5 g Hlen.
  assert (length g0 = N) as H0 by (apply Hrows; set_solver).
  assert (length g1 = N) as H1 by (apply Hrows; set_solver).
  assert (length g2 = N) as H2 by (apply Hrows; set_solver).
  assert (length g3 = N) as H3 by (apply Hrows; set_solver).
  assert (length g4 = N) as H4 by (apply Hrows; set_solver).
  list5 g0 H0. list5 g1 H1. list5 g2 H2. list5 g3 H3. list5 g4 H4.
  list5 row_sums Hrs. list5 row_bombs Hrb. list5 col_sums Hcs. list5 col_bombs Hcb.
  pose proof (Hr 0%nat _ eq_refl) as [R0b R0s].
  pose proof (Hr 1%nat _ eq_refl) as [R1b R1s].
  pose proof (Hr 2%nat _ eq_refl) as [R2b R2s].
  pose proof (Hr 3%nat _ eq_refl) as [R3b R3s].
  pose proof (Hr 4%nat _ eq_refl) as [R4b R4s].
  destruct (Hc 0%nat ltac:(unfold N; lia)) as [C0b C0s].
  destruct (Hc 1%nat ltac:(unfold N; lia)) as [C1b C1s].
  destruct (Hc 2%nat ltac:(unfold N; lia)) as [C2b C2s].
  destruct (Hc 3%nat ltac:(unfold N; lia)) as [C3b C3s].
  destruct (Hc 4%nat ltac:(unfold N; lia)) as [C4b C4s].
  clear Hrows Hr Hc.
  cbn [lookup list_lookup column fmap list_fmap from_option id] in *.
  simplify_eq. rewrite !nonbomb_sum_line, !bomb_count_cons, !line_sum_cons.
  unfold line_sum, bomb_count. cbn [foldr filter list_filter length].
  split; lia.
Qed.

Lemma valid_board_lines (row_sums row_bombs col_sums col_bombs : list Z)
    (opened : gmap (Z * Z) Z) (g : Grid) (i : nat) :
  valid_board row_sums row_bombs col_sums col_bombs opened g → (i < N)%nat →
  ∃ row col,
    row_bombs !! i = Some (bomb_count row) ∧ row_sums !! i = Some (line_sum row)
    ∧ col_bombs !! i = Some (bomb_count col) ∧ col_sums !! i = Some (line_sum col)
    ∧ length row = N ∧ length col = N
    ∧ Forall (λ v, 0 ≤ v ≤ 3) row ∧ Forall (λ v, 0 ≤ v ≤ 3) col.
Proof.
  intros (Hlen & Hrows & Hr & Hc & _) Hi.
  destruct (lookup_lt_is_Some_2 g i) as [row Hrow]; [lia|].
  destruct (Hr i row Hrow) as [Hb Hs]. destruct (Hc i Hi) as [Hcb Hcs].
  destruct (Hrows row) as [Hlrow Hvrow]; [by eapply list_elem_of_lookup_2|].
  exists row, (column g i). rewrite <- !nonbomb_sum_line.
  repeat split; try done.
  - unfold column. by rewrite length_fmap.
  - by apply Forall_forall.
  - unfold column. apply Forall_fmap, Forall_forall. intros row' Hin.
    destruct (Hrows row' Hin) as [Hl Hv]. unfold compose.
    destruct (lookup_lt_is_Some_2 row' i) as [v Hvi]; [lia|].
    rewrite Hvi. apply Hv. by eapply list_elem_of_lookup_2.
Qed.

Lemma line_ok_board (l : list Z) :
  length l = N → Forall (λ v, 0 ≤ v ≤ 3) l → line_ok (bomb_count l) (line_sum l).
Proof.
  intros Hl Hv. pose proof (line_bounds l Hv) as Hb. rewrite Hl in Hb.
  unfold line_ok. lia.
Qed.

(** X17: [sanity_check] returns no message for constraint lists of length 5
    that have a board: the check never turns down a puzzle that can be
    solved, whatever the revealed map. *)
Theorem sanity_check_accepts_solvable
    (row_sums row_bombs col_sums col_bombs : list Z) (opened : gmap (Z * Z) Z)
    (g : Grid) :
  length row_sums = N → length row_bombs = N →
  length col_sums = N → length col_bombs = N →
  valid_board row_sums row_bombs col_sums col_bombs opened g →
  sanity_check row_sums row_bombs col_sums col_bombs = Some None.
Proof.
  intros Hrs Hrb Hcs Hcb Hvb.
  apply sanity_check_closed; [lia..|].
  rewrite !py_sum_line.
  destruct (valid_board_totals _ _ _ _ _ _ Hrs Hrb Hcs Hcb Hvb) as [Hs Hb].
  split; [done|]. split; [done|]. intros i Hi.
  destruct (valid_board_lines _ _ _ _ _ _ i Hvb Hi)
    as (row & col & Hrb' & Hrs' & Hcb' & Hcs' & Hlr & Hlc & Hvr & Hvc).
  rewrite (list_lookup_total_correct _ _ _ Hrb'), (list_lookup_total_correct _ _ _ Hrs'),
    (list_lookup_total_correct _ _ _ Hcb'), (list_lookup_total_correct _ _ _ Hcs').
  split; by apply line_ok_board.
Qed.

Lemma sanity_check_accepts_solvable_witness :
  sanity_check [5; 5; 5; 5; 5] [0; 0; 0; 0; 0] [5; 5; 5; 5; 5] [0; 0; 0; 0; 0] = Some None.
Proof.
  apply (sanity_check_accepts_solvable [5; 5; 5; 5; 5] [0; 0; 0; 0; 0] [5; 5; 5; 5; 5]
           [0; 0; 0; 0; 0] ∅ (replicate 5 (replicate 5 1))); try reflexivity.
  split; [reflexivity|]. split; [|split; [|split]].
  - intros row Hrow. repeat (apply elem_of_cons in Hrow as [-> | Hrow]);
      try (by apply elem_of_nil in Hrow);
      (split; [reflexivity|]; intros v Hv;
       repeat (apply elem_of_cons in Hv as [-> | Hv]); try lia;
       by apply elem_of_nil in Hv).
  - intros r row Hr. do 5 (destruct r as [|r]; [by injection Hr as <-|]). done.
  - intros c Hc. do 5 (destruct c as [|c]; [done|]). unfold N in Hc. lia.
  - intros k v Hk. by rewrite lookup_empty in Hk.
Defined.

(** X18: [sanity_check] returns no message exactly when every list has five
    entries or more, the sums of the rows and of the columns agree over all
    entries, so do the bombs, and each of the first five rows and columns
    has between 0 and 5 bombs and a sum between one and three times the
    number of its cells without a bomb. *)
Theorem sanity_check_accepts_iff (row_sums row_bombs col_sums col_bombs : list Z) :
  sanity_check row_sums row_bombs col_sums col_bombs = Some None
  ↔ (N ≤ length row_sums)%nat ∧ (N ≤ length row_bombs)%nat
    ∧ (N ≤ length col_sums)%nat ∧ (N ≤ length col_bombs)%nat
    ∧ py_sum row_sums = py_sum col_sums
    ∧ py_sum row_bombs = py_sum col_bombs
    ∧ ∀ i, (i < N)%nat →
        line_ok (row_bombs !!! i) (row_sums !!! i)
        ∧ line_ok (col_bombs !!! i) (col_sums !!! i).
Proof.
  split.
  - intros Hs. destruct (sanity_check_lengths _ _ _ _ Hs) as (Hrs & Hrb & Hcs & Hcb).
    split; [done|]. split; [done|]. split; [done|]. split; [done|].
    by apply sanity_check_closed.
  - intros (Hrs & Hrb & Hcs & Hcb & Hrest). by apply sanity_check_closed.
Qed.

(** X19: [sanity_check] raises only when the totals agree and one of the
    lists has fewer than five entries; totals that differ are reported
    whatever the lengths are. *)
Theorem sanity_check_raises (row_sums row_bombs col_sums col_bombs : list Z) :
  (sanity_check row_sums row_bombs col_sums col_bombs = None →
   py_sum row_sums = py_sum col_sums ∧ py_sum row_bombs = py_sum col_bombs
   ∧ ((length row_sums < N)%nat ∨ (length row_bombs < N)%nat
      ∨ (length col_sums < N)%nat ∨ (length col_bombs < N)%nat))
  ∧ (py_sum row_sums ≠ py_sum col_sums →
     sanity_check row_sums row_bombs col_sums col_bombs
     = Some (Some (RowColSumMismatch (py_sum row_sums) (py_sum col_sums))))
  ∧ (py_sum row_sums = py_sum col_sums → py_sum row_bombs ≠ py_sum col_bombs →
     sanity_check row_sums row_bombs col_sums col_bombs
     = Some (Some (RowColBombMismatch (py_sum row_bombs) (py_sum col_bombs)))).
Proof.
  split; [|split].
  - intros Hnone.
    assert (py_sum row_sums = py_sum col_sums ∧ py_sum row_bombs = py_sum col_bombs)
      as [Hs Hb].
    { unfold sanity_check in Hnone.
      destruct (Z.eqb_spec (py_sum row_sums) (py_sum col_sums)); [|done].
      cbn [negb] in Hnone.
      destruct (Z.eqb_spec (py_sum row_bombs) (py_sum col_bombs)); done. }
    split; [done|]. split; [done|].
    destruct (decide (N ≤ length row_sums)%nat) as [Hrs|]; [|lia].
    destruct (decide (N ≤ length row_bombs)%nat) as [Hrb|]; [|lia].
    destruct (decide (N ≤ length col_sums)%nat) as [Hcs|]; [|lia].
    destruct (decide (N ≤ length col_bombs)%nat) as [Hcb|]; [|lia].
    destruct (sanity_check_closed _ _ _ _ Hrs Hrb Hcs Hcb) as [[x Hx] _]. congruence.
  - intros Hne. unfold sanity_check.
    by destruct (Z.eqb_spec (py_sum row_sums) (py_sum col_sums)).
  - intros Heq Hne. unfold sanity_check.
    destruct (Z.eqb_spec (py_sum row_sums) (py_sum col_sums)); [|done]. cbn [negb].
    by destruct (Z.eqb_spec (py_sum row_bombs) (py_sum col_bombs)).
Qed.

Lemma sanity_check_raises_witness :
  py_sum [5] = py_sum [5] ∧ py_sum [0] = py_sum [0]
  ∧ ((length [5] < N)%nat ∨ (length [0] < N)%nat
     ∨ (length [5] < N)%nat ∨ (length [0] < N)%nat).
Proof. apply (proj1 (sanity_check_raises [5] [0] [5] [0])). reflexivity. Defined.

Lemma row_fixed_of_none (r : nat) (opened : gmap (Z * Z) Z) :
  (∀ j, opened !! (Z.of_nat r, j) = None) →
  row_fixed_of r opened = replicate N None.
Proof.
  intros Hrow. unfold row_fixed_of, range, N. cbn [seq Nat.sub fmap list_fmap replicate].
  unfold coord. by rewrite !Hrow.
Qed.

(** X20: when [sanity_check] returns no message, every row without a
    revealed cell has a pattern: on the empty map the loop over the rows of
    [_enumerate_all_boards] does not take the early [return []]. *)
Theorem sanity_check_rows_feasible
    (row_sums row_bombs col_sums col_bombs : list Z) (opened : gmap (Z * Z) Z) (r : nat) :
  sanity_check row_sums row_bombs col_sums col_bombs = Some None →
  (r < N)%nat →
  (∀ j, opened !! (Z.of_nat r, j) = None) →
  ∃ pats,
    _enumerate_row_patterns r row_sums row_bombs col_sums col_bombs opened = Some pats
    ∧ pats ≠ [].
Proof.
  intros Hs Hr Hrow.
  destruct (sanity_check_lengths _ _ _ _ Hs) as (Hrs & Hrb & Hcs & Hcb).
  destruct (proj1 (proj2 (sanity_check_closed _ _ _ _ Hrs Hrb Hcs Hcb)) Hs)
    as (_ & _ & Hlines).
  destruct (Hlines r Hr) as [Hline _].
  unfold _enumerate_row_patterns, _row_remaining.
  rewrite (list_lookup_lookup_total_lt row_sums r) by lia.
  rewrite (list_lookup_lookup_total_lt row_bombs r) by lia.
  cbn [mbind option_bind]. eexists. split; [reflexivity|].
  rewrite opened_row_sum_none, opened_row_bombs_none by done.
  apply dfs_nonempty_iff. rewrite (row_fixed_of_none r opened Hrow).
  unfold feasible, line_ok in *.
  change (count_unfixed (replicate N None)) with (Z.of_nat N). lia.
Qed.

Lemma sanity_check_rows_feasible_witness :
  ∃ pats,
    _enumerate_row_patterns 0 [0; 5; 5; 5; 5] [5; 0; 0; 0; 0] [0; 5; 5; 5; 5]
      [5; 0; 0; 0; 0] ∅ = Some pats
    ∧ pats ≠ [].
Proof.
  apply sanity_check_rows_feasible; [reflexivity | unfold N; lia |].
  intros j. apply lookup_empty.
Defined.

(** ** The column bound and the completions of a column *)

Lemma fits_free (k : nat) (q : list Z) :
  fits (replicate k None) q
  ↔ length q = k ∧ Forall (λ v, 0 ≤ v ≤ 3) q.
Proof.
  revert q. induction k as [|k IH]; intros [|x q]; cbn [replicate fits length].
  - split; [by intros _ | done].
  - split; [done | by intros [? _]].
  - split; [done | by intros [? _]].
  - rewrite IH, Forall_cons. split.
    + intros (Hx & Hl & Hq). split; [by f_equal | done].
    + intros ([= Hl] & Hx & Hq). done.
Qed.

Lemma free_totals (k : nat) (q : list Z) :
  length q = k →
  free_sum (replicate k None) q = line_sum q
  ∧ free_bombs (replicate k None) q = bomb_count q.
Proof.
  revert q. induction k as [|k IH]; intros [|x q] Hl; try done.
  cbn [replicate free_sum free_bombs]. rewrite line_sum_cons, bomb_count_cons.
  destruct (IH q) as [-> ->]; [by injection Hl|]. done.
Qed.

Lemma count_unfixed_replicate (k : nat) : count_unfixed (replicate k None) = Z.of_nat k.
Proof.
  induction k as [|k IH]; [done|]. cbn [replicate]. rewrite count_unfixed_None, IH. lia.
Qed.

(** X21: the bound of [_col_bounds_so_far] is exact for a column on its own:
    it returns an interval that holds the target sum exactly when the
    [rows_left] cells still to fill can take values 0..3 that bring the
    bombs and the sum of the column to their targets. *)
Theorem col_bounds_exact (target_sum target_bombs partial_sum partial_bombs : Z)
    (rows_left : nat) :
  (∃ lo hi,
     _col_bounds_so_far target_sum target_bombs partial_sum partial_bombs
       (Z.of_nat rows_left) = Some (lo, hi)
     ∧ lo ≤ target_sum ≤ hi)
  ↔ ∃ cells : list Z,
      length cells = rows_left
      ∧ Forall (λ v, 0 ≤ v ≤ 3) cells
      ∧ partial_bombs + bomb_count cells = target_bombs
      ∧ partial_sum + line_sum cells = target_sum.
Proof.
  unfold _col_bounds_so_far. split.
  - intros (lo & hi & Hb & Hlo).
    destruct (_ || _) eqn:Hchk; [done|]. injection Hb as <- <-.
    apply orb_false_iff in Hchk as [H1 H2]. rewrite Z.gtb_ltb in H2.
    apply Z.ltb_ge in H1, H2.
    destruct (fits_exists (replicate rows_left None) (target_sum - partial_sum)
                (target_bombs - partial_bombs)) as (q & Hq & Hs & Hz).
    { unfold feasible. rewrite count_unfixed_replicate. lia. }
    apply fits_free in Hq as [Hl Hv]. destruct (free_totals _ _ Hl) as [Hfs Hfb].
    exists q. split; [done|]. split; [done|]. lia.
  - intros (cells & Hl & Hv & Hb & Hs).
    pose proof (line_bounds cells Hv) as Hbounds. rewrite Hl in Hbounds.
    rewrite range_check_false by lia. eexists _, _. split; [reflexivity|]. lia.
Qed.

(** ** Revealing a cell *)

Lemma row_lt_irrefl (p : list Z) : ¬ row_lt p p.
Proof. apply lex_lt_irrefl. intros x. lia. Qed.

Lemma row_lt_trans (a b c : list Z) : row_lt a b → row_lt b c → row_lt a c.
Proof. apply lex_lt_trans. intros x y z. lia. Qed.

Lemma board_lt_irrefl (b : Grid) : ¬ board_lt b b.
Proof. apply lex_lt_irrefl, row_lt_irrefl. Qed.

Lemma board_lt_trans (a b c : Grid) : board_lt a b → board_lt b c → board_lt a c.
Proof. apply lex_lt_trans, row_lt_trans. Qed.

(** Two lists of boards in increasing order with the same members are
    equal. *)
Lemma sorted_boards_eq (l1 l2 : list Grid) :
  StronglySorted board_lt l1 → StronglySorted board_lt l2 →
  (∀ b, b ∈ l1 ↔ b ∈ l2) → l1 = l2.
Proof.
  assert (∀ l, StronglySorted board_lt l → NoDup l) as Hnd.
  { induction 1 as [|x l Hl IH Hx]; constructor; [|done].
    intros Hin. apply (proj1 (Forall_forall _ _) Hx) in Hin.
    by apply board_lt_irrefl in Hin. }
  intros H1 H2 Hmem. apply (StronglySorted_unique_strong board_lt); [|done|done|].
  - intros x1 x2 _ _ H12 H21. destruct (board_lt_irrefl x1). by eapply board_lt_trans.
  - apply NoDup_Permutation; [by apply Hnd | by apply Hnd | done].
Qed.

Lemma valid_board_insert (row_sums row_bombs col_sums col_bombs : list Z)
    (opened : gmap (Z * Z) Z) (r c : nat) (v : Z) (b : Grid) :
  opened !! coord r c = None →
  valid_board row_sums row_bombs col_sums col_bombs (<[coord r c := v]> opened) b
  ↔ valid_board row_sums row_bombs col_sums col_bombs opened b
    ∧ grid_val b r c = Some v.
Proof.
  intros Hnone. unfold valid_board. split.
  - intros (Hlen & Hrows & Hr & Hc & Hop). split.
    + split; [done|]. split; [done|]. split; [done|]. split; [done|].
      intros k w Hk. apply Hop. rewrite lookup_insert_ne; [done|]. congruence.
    + destruct (Hop (coord r c) v) as (r' & c' & Heq & Hv);
        [apply lookup_insert_eq|].
      by apply coord_inj in Heq as [<- <-].
  - intros [(Hlen & Hrows & Hr & Hc & Hop) Hv].
    split; [done|]. split; [done|]. split; [done|]. split; [done|].
    intros k w Hk. destruct (decide (coord r c = k)) as [<- | Hne].
    + rewrite lookup_insert_eq in Hk. injection Hk as <-. by exists r, c.
    + rewrite lookup_insert_ne in Hk by done. by apply Hop.
Qed.

Section boards_valid.
Variables row_sums row_bombs col_sums col_bombs : list Z.
Hypothesis Hrs : length row_sums = N.
Hypothesis Hrb : length row_bombs = N.
Hypothesis Hcs : length col_sums = N.
Hypothesis Hcb : length col_bombs = N.

(** The boards of a revealed map of the data model, in their order. *)
Lemma boards_valid_sorted (opened : gmap (Z * Z) Z) :
  wf_opened opened →
  ∃ L, _enumerate_all_boards row_sums row_bombs col_sums col_bombs opened = Some L
     ∧ StronglySorted board_lt L
     ∧ ∀ b, b ∈ L ↔ valid_board row_sums row_bombs col_sums col_bombs opened b.
Proof.
  intros Hwf. unfold _enumerate_all_boards.
  rewrite enumerate_all_boards_run_closed_ge by lia.
  cbn [fmap option_fmap option_map fst]. eexists. split; [reflexivity|]. split.
  - eapply StronglySorted_sublist; [apply sublist_filter|].
    apply choices_sorted, Forall_fmap, Forall_forall. intros r _. apply dfs_sorted.
  - intros b. rewrite list_elem_of_filter, choices_elem.
    rewrite <- (picked_rows_valid row_sums row_bombs col_sums col_bombs
                  Hrs Hrb Hcs Hcb opened Hwf b). tauto.
Qed.

End boards_valid.

(** X22: revealing a value at a cell that was not revealed keeps, in their
    order, the boards that hold the value at the cell: the new list of
    boards is the old list filtered by the answer, and the count that
    [compute_posteriors] then returns is the count that the tally of the
    cell had for the value. *)
Theorem reveal_filters_boards {F : Type} `{FloatOps F}
    (row_sums row_bombs col_sums col_bombs : list Z) (opened : gmap (Z * Z) Z)
    (r c : nat) (v : Z) (sols : list Grid) :
  length row_sums = N → length row_bombs = N →
  length col_sums = N → length col_bombs = N →
  wf_opened opened →
  (r < N)%nat → (c < N)%nat → 0 ≤ v ≤ 3 →
  opened !! coord r c = None →
  _enumerate_all_boards row_sums row_bombs col_sums col_bombs opened = Some sols →
  _enumerate_all_boards row_sums row_bombs col_sums col_bombs (<[coord r c := v]> opened)
  = Some (filter (λ b, grid_val b r c = Some v) sols)
  ∧ ∃ post : list (nat * nat * Posterior F),
      compute_posteriors row_sums row_bombs col_sums col_bombs (<[coord r c := v]> opened)
      = Some (post, count_val sols (r, c) v).
Proof.
  intros Hrs Hrb Hcs Hcb Hwf Hr Hc Hv Hnone Hsols.
  destruct (boards_valid_sorted row_sums row_bombs col_sums col_bombs
              Hrs Hrb Hcs Hcb opened Hwf) as (L & HL & Hsorted & Hmem).
  rewrite HL in Hsols. apply (inj Some) in Hsols as <-.
  destruct (boards_valid_sorted row_sums row_bombs col_sums col_bombs
              Hrs Hrb Hcs Hcb (<[coord r c := v]> opened))
    as (L' & HL' & Hsorted' & Hmem'); [by apply wf_opened_put|].
  assert (L' = filter (λ b, grid_val b r c = Some v) L) as ->.
  { apply sorted_boards_eq; [done | |].
    - eapply StronglySorted_sublist; [apply sublist_filter | done].
    - intros b. rewrite Hmem', list_elem_of_filter, Hmem, valid_board_insert by done.
      tauto. }
  split; [done|].
  destruct (pipeline_ge (F:=F) row_sums row_bombs col_sums col_bombs
              ltac:(lia) ltac:(lia) ltac:(lia) ltac:(lia) (<[coord r c := v]> opened))
    as (L2 & Hrun2 & _ & _ & Hpost & _).
  unfold _enumerate_all_boards in HL'. rewrite Hrun2 in HL'.
  cbn [fmap option_fmap option_map fst] in HL'. apply (inj Some) in HL' as ->.
  unfold compute_posteriors. rewrite Hpost. eexists. reflexivity.
Qed.

Lemma reveal_filters_boards_witness :
  ∃ sols,
    _enumerate_all_boards [6; 6; 5; 5; 5] [0; 0; 0; 0; 0] [6; 6; 5; 5; 5] [0; 0; 0; 0; 0] ∅
    = Some sols
    ∧ _enumerate_all_boards [6; 6; 5; 5; 5] [0; 0; 0; 0; 0] [6; 6; 5; 5; 5]
        [0; 0; 0; 0; 0] (<[coord 0 0 := 2]> ∅)
      = Some (filter (λ b, grid_val b 0 0 = Some 2) sols)
    ∧ ∃ post : list (nat * nat * Posterior QArith_base.Q),
        compute_posteriors (H:=Q_ops) [6; 6; 5; 5; 5] [0; 0; 0; 0; 0] [6; 6; 5; 5; 5]
          [0; 0; 0; 0; 0] (<[coord 0 0 := 2]> ∅)
        = Some (post, count_val sols (0%nat, 0%nat) 2).
Proof.
  assert (∃ sols,
            _enumerate_all_boards [6; 6; 5; 5; 5] [0; 0; 0; 0; 0] [6; 6; 5; 5; 5]
              [0; 0; 0; 0; 0] ∅ = Some sols) as [sols Hsols]
    by (eexists; vm_compute; reflexivity).
  exists sols. split; [exact Hsols|].
  apply (reveal_filters_boards (H:=Q_ops)); try reflexivity; try (unfold N; lia);
    [apply wf_opened_empty | exact Hsols].
Defined.

(** ** Properties of the interactive loop *)

Lemma answer_in_range (v : Z) : v ∈ [0; 1; 2; 3] ↔ 0 ≤ v ≤ 3.
Proof.
  split.
  - intros Hv. repeat (apply elem_of_cons in Hv as [-> | Hv]); try lia.
    by apply elem_of_nil in Hv.
  - intros Hv. assert (v = 0 ∨ v = 1 ∨ v = 2 ∨ v = 3) as [-> | [-> | [-> | ->]]] by lia;
      set_solver.
Qed.

Lemma wf_opened_size (opened : gmap (Z * Z) Z) :
  wf_opened opened → (size opened ≤ 25)%nat.
Proof.
  intros Hwf.
  set (full := list_to_map ((λ rc : nat * nat, (coord rc.1 rc.2, ()))
                              <$> (r ← range 0 N; c ← range 0 N; [(r, c)]))
               : gmap (Z * Z) ()).
  rewrite <- (map_size_fmap (λ _, ()) opened).
  transitivity (size full); [apply map_subseteq_size | by vm_compute].
  apply map_subseteq_spec. intros [i j] [] Hk. rewrite lookup_fmap in Hk.
  destruct (opened !! (i, j)) as [v|] eqn:E; [|done].
  destruct (Hwf i j v E) as (Hi & Hj & _). unfold N in Hi, Hj.
  assert (i = 0 ∨ i = 1 ∨ i = 2 ∨ i = 3 ∨ i = 4) as Hi' by lia.
  assert (j = 0 ∨ j = 1 ∨ j = 2 ∨ j = 3 ∨ j = 4) as Hj' by lia.
  destruct Hi' as [-> | [-> | [-> | [-> | ->]]]];
    destruct Hj' as [-> | [-> | [-> | [-> | ->]]]]; by vm_compute.
Qed.

Section game.
Context {F : Type} `{FloatOps F}.
Variable parse_ints : string → option (list Z).
Variables strip lower : string → string.
Variable int_of_string : string → option Z.

Section loop.
Variables row_sums row_bombs col_sums col_bombs : list Z.
Hypothesis Hrs : (N ≤ length row_sums)%nat.
Hypothesis Hrb : (N ≤ length row_bombs)%nat.
Hypothesis Hcs : (N ≤ length col_sums)%nat.
Hypothesis Hcb : (N ≤ length col_bombs)%nat.

Lemma game_loop_spec (inputs : list string) :
  ∀ (opened : gmap (Z * Z) Z) (step : Z) (out : list (Output F))
    (opened' : gmap (Z * Z) Z) (step' : Z) (out' : list (Output F)),
    wf_opened opened → no_bomb opened →
    game_loop strip lower int_of_string row_sums row_bombs col_sums col_bombs
      inputs opened step out = Some (opened', step', out') →
    wf_opened opened'
    ∧ opened ⊆ opened'
    ∧ Z.of_nat (size opened') - Z.of_nat (size opened) = step' - step
    ∧ (∀ k k', opened' !! k = Some 0 → opened' !! k' = Some 0 → k = k')
    ∧ ∃ more,
        out' = out ++ more
        ∧ (OutNoRecommendation ∉ more)
        ∧ (∀ k v, opened' !! k = Some v →
             opened !! k = Some v
             ∨ ∃ s rc st, OutRecommend s rc st ∈ more ∧ k = coord rc.1 rc.2)
        ∧ ((∃ k, opened' !! k = Some 0) ↔ last more = Some OutGameOver).
Proof.
  assert (∀ (opened : gmap (Z * Z) Z) (more : list (Output F)) (x : Output F),
            no_bomb opened → x ≠ OutGameOver →
            ((∃ k, opened !! k = Some 0) ↔ last (more ++ [x]) = Some OutGameOver))
    as Hnb.
  { intros opened more x Hno Hx. rewrite last_snoc. split.
    - intros [k Hk]. by destruct (Hno k 0 Hk).
    - intros [= ->]. done. }
  induction inputs as [|line inputs IH];
    intros opened step out opened' step' out' Hwf Hno Hrun; cbn [game_loop] in Hrun;
    destruct (compute_posteriors row_sums row_bombs col_sums col_bombs opened)
      as [[post nsol]|] eqn:Hpost; try done; cbn [mbind option_bind] in Hrun;
    (destruct post as [|kv post'];
     [injection Hrun as <- <- <-; split; [done|]; split; [done|]; split; [lia|];
      split; [by intros k k' Hk%Hno|];
      exists [OutBoard opened; OutNoSolution];
      split; [by rewrite <- app_assoc|]; split; [set_solver|]; split; [by left|];
      by apply (Hnb opened [OutBoard opened])|]);
    destruct (choose_next_safest (kv :: post')) as [[best_rc st]|] eqn:Hbest;
    try done.
  pose proof (choose_next_safest_in _ _ Hbest) as Hin.
  destruct (posterior_keys_targets _ _ _ _ _ _ _ _ _ Hrs Hrb Hcs Hcb Hpost Hin)
    as (Hr & Hc & Hnone).
  clear Hin Hbest Hpost.
  set (pre := [OutBoard opened; OutBoardCount nsol; OutRecommend (step + 1) best_rc st])
    in *.
  assert (((out ++ [OutBoard opened]) ++ [OutBoardCount nsol])
            ++ [OutRecommend (step + 1) best_rc st] = out ++ pre) as Hpre
    by (by rewrite <- !app_assoc).
  rewrite Hpre in Hrun. clear Hpre.
  destruct (decide (lower (lower (strip line)) = "q")) as [Hq | Hq].
  { injection Hrun as <- <- <-. split; [done|]. split; [done|]. split; [lia|].
    split; [by intros k k' Hk%Hno|].
    exists (pre ++ [OutUserQuit]). split; [by rewrite <- app_assoc|].
    split; [set_solver|]. split; [by left|]. by apply Hnb. }
  assert (∀ opened1 step1 out1,
            game_loop strip lower int_of_string row_sums row_bombs col_sums col_bombs
              inputs opened step ((out ++ pre) ++ [OutBadValue])
            = Some (opened1, step1, out1) →
            wf_opened opened1
            ∧ opened ⊆ opened1
            ∧ Z.of_nat (size opened1) - Z.of_nat (size opened) = step1 - step
            ∧ (∀ k k', opened1 !! k = Some 0 → opened1 !! k' = Some 0 → k = k')
            ∧ ∃ more,
                out1 = out ++ more
                ∧ (OutNoRecommendation ∉ more)
                ∧ (∀ k v, opened1 !! k = Some v →
                     opened !! k = Some v
                     ∨ ∃ s rc st, OutRecommend s rc st ∈ more ∧ k = coord rc.1 rc.2)
                ∧ ((∃ k, opened1 !! k = Some 0) ↔ last more = Some OutGameOver))
    as Hbad.
  { intros opened1 step1 out1 Hrun1.
    destruct (IH _ _ _ _ _ _ Hwf Hno Hrun1)
      as (Hwf1 & Hsub1 & Hsize1 & Huniq & more & -> & Hnr & Hrec & Hbomb).
    split; [done|]. split; [done|]. split; [done|]. split; [done|].
    exists (pre ++ [OutBadValue] ++ more). split; [by rewrite <- !app_assoc|].
    split; [set_solver|]. split.
    - intros k v Hk. destruct (Hrec k v Hk) as [? | (s & rc & st' & Hs & ->)];
        [by left|]. right. exists s, rc, st'. split; [set_solver | done].
    - rewrite Hbomb. destruct more as [|x more] using rev_ind.
      + cbn [last]. rewrite app_nil_r. unfold pre. cbn. split; done.
      + by rewrite !app_assoc, !last_snoc. }
  destruct (int_of_string (lower (strip line))) as [v|]; [|by apply Hbad].
  destruct (bool_decide (v ∈ [0; 1; 2; 3])) eqn:Hv; cbn [negb] in Hrun;
    [|by apply Hbad].
  apply bool_decide_eq_true, answer_in_range in Hv. clear Hbad.
  set (opened2 := <[coord best_rc.1 best_rc.2 := v]> opened) in *.
  assert (wf_opened opened2) as Hwf2 by (by apply wf_opened_put).
  assert (opened ⊆ opened2) as Hsub2 by (by apply insert_subseteq).
  assert (size opened2 = S (size opened)) as Hsize2
    by (by apply map_size_insert_None).
  assert (∀ k w, opened2 !! k = Some w →
            opened !! k = Some w ∨ (k = coord best_rc.1 best_rc.2 ∧ w = v)) as Hkeys.
  { intros k w Hk. unfold opened2 in Hk.
    destruct (decide (coord best_rc.1 best_rc.2 = k)) as [<- | Hne].
    - rewrite lookup_insert_eq in Hk. injection Hk as <-. by right.
    - rewrite lookup_insert_ne in Hk by done. by left. }
  destruct (Z.eqb_spec v 0) as [-> | Hv0].
  - injection Hrun as <- <- <-. split; [done|]. split; [done|]. split; [lia|].
    split.
    { intros k k' Hk Hk'.
      destruct (Hkeys k 0 Hk) as [?%Hno | [-> _]]; [done|].
      destruct (Hkeys k' 0 Hk') as [?%Hno | [-> _]]; done. }
    exists (pre ++ [OutGameOver]). split; [by rewrite <- app_assoc|].
    split; [set_solver|]. split.
    + intros k w Hk. destruct (Hkeys k w Hk) as [? | [-> ->]]; [by left|].
      right. exists (step + 1), best_rc, st. split; [set_solver | done].
    + rewrite last_snoc. split; [done|]. intros _.
      exists (coord best_rc.1 best_rc.2). apply lookup_insert_eq.
  - assert (no_bomb opened2) as Hno2.
    { intros k w Hk. destruct (Hkeys k w Hk) as [Hk' | [-> ->]]; [by eapply Hno | done]. }
    destruct (IH _ _ _ _ _ _ Hwf2 Hno2 Hrun)
      as (Hwf' & Hsub' & Hsize' & Huniq & more & -> & Hnr & Hrec & Hbomb).
    split; [done|]. split; [by etrans|]. split; [lia|]. split; [done|].
    exists (pre ++ more). split; [by rewrite <- app_assoc|].
    split; [set_solver|]. split.
    + intros k w Hk. destruct (Hrec k w Hk) as [Hk2 | (s & rc & st' & Hs & ->)].
      * destruct (Hkeys k w Hk2) as [? | [-> ->]]; [by left|].
        right. exists (step + 1), best_rc, st. split; [set_solver | done].
      * right. exists s, rc, st'. split; [set_solver | done].
    + rewrite Hbomb. destruct more as [|x more] using rev_ind.
      * cbn [last]. rewrite app_nil_r. unfold pre. cbn. split; done.
      * by rewrite !app_assoc, !last_snoc.
Qed.

Lemma game_loop_quit (quit : string) (answers : list string) :
  lower (lower (strip quit)) = "q" →
  ∀ (opened : gmap (Z * Z) Z) (step : Z) (out : list (Output F)),
    wf_opened opened →
    is_Some (game_loop strip lower int_of_string row_sums row_bombs col_sums col_bombs
               (answers ++ [quit]) opened step out).
Proof.
  intros Hquit. induction answers as [|line answers IH]; intros opened step out Hwf;
    cbn [app game_loop];
    destruct (compute_posteriors_total (F:=F) row_sums row_bombs col_sums col_bombs
                opened Hrs Hrb Hcs Hcb) as [[post nsol] Hpost];
    rewrite Hpost; cbn [mbind option_bind];
    (destruct post as [|kv post']; [done|]);
    destruct (choose_next_safest (kv :: post')) as [[best_rc st]|] eqn:Hbest;
    try done.
  - by rewrite decide_True.
  - destruct (decide (lower (lower (strip line)) = "q")); [done|].
    destruct (int_of_string (lower (strip line))) as [v|]; [|by apply IH].
    destruct (bool_decide (v ∈ [0; 1; 2; 3])) eqn:Hv; cbn [negb]; [|by apply IH].
    apply bool_decide_eq_true, answer_in_range in Hv.
    destruct (v =? 0); [done|]. apply IH.
    pose proof (choose_next_safest_in _ _ Hbest) as Hin.
    destruct (posterior_keys_targets _ _ _ _ _ _ _ _ _ Hrs Hrb Hcs Hcb Hpost Hin)
      as (Hr & Hc & _).
    by apply wf_opened_put.
Qed.

End loop.

(** The start of [interactive_game]: four lines are read and checked. *)
Lemma interactive_game_inv (inputs : list string)
    (res : gmap (Z * Z) Z * Z * list (Output F)) :
  interactive_game parse_ints strip lower int_of_string inputs = Some res →
  ∃ l1 l2 l3 l4 rest row_sums row_bombs col_sums col_bombs err,
    inputs = l1 :: l2 :: l3 :: l4 :: rest
    ∧ parse_ints l1 = Some row_sums ∧ parse_ints l2 = Some row_bombs
    ∧ parse_ints l3 = Some col_sums ∧ parse_ints l4 = Some col_bombs
    ∧ sanity_check row_sums row_bombs col_sums col_bombs = Some err
    ∧ match err with
      | Some e => res = (∅, 0, [OutBanner; OutAskConstraints; OutContradiction e])
      | None =>
          game_loop strip lower int_of_string row_sums row_bombs col_sums col_bombs
            rest ∅ 0 [OutBanner; OutAskConstraints] = Some res
      end.
Proof.
  unfold interactive_game, read_line. intros Hrun.
  destruct inputs as [|l1 [|l2 [|l3 [|l4 rest]]]]; cbn [mbind option_bind] in Hrun;
    try done;
    destruct (parse_ints l1) as [row_sums|] eqn:H1; cbn [mbind option_bind] in Hrun;
    try done;
    destruct (parse_ints l2) as [row_bombs|] eqn:H2; cbn [mbind option_bind] in Hrun;
    try done;
    destruct (parse_ints l3) as [col_sums|] eqn:H3; cbn [mbind option_bind] in Hrun;
    try done;
    destruct (parse_ints l4) as [col_bombs|] eqn:H4; cbn [mbind option_bind] in Hrun;
    try done.
  destruct (sanity_check row_sums row_bombs col_sums col_bombs) as [err|] eqn:Hs;
    [|done]. cbn [mbind option_bind] in Hrun.
  exists l1, l2, l3, l4, rest, row_sums, row_bombs, col_sums, col_bombs, err.
  repeat (split; [done|]). destruct err as [e|]; [by injection Hrun as <-|done].
Qed.

Lemma interactive_game_spec (inputs : list string) (opened' : gmap (Z * Z) Z)
    (step' : Z) (out' : list (Output F)) :
  interactive_game parse_ints strip lower int_of_string inputs
  = Some (opened', step', out') →
  wf_opened opened'
  ∧ Z.of_nat (size opened') = step'
  ∧ (∀ k k', opened' !! k = Some 0 → opened' !! k' = Some 0 → k = k')
  ∧ (OutNoRecommendation ∉ out')
  ∧ (∀ k v, opened' !! k = Some v →
       ∃ s rc st, OutRecommend s rc st ∈ out' ∧ k = coord rc.1 rc.2)
  ∧ ((∃ k, opened' !! k = Some 0) ↔ last out' = Some OutGameOver).
Proof.
  intros (l1 & l2 & l3 & l4 & rest & row_sums & row_bombs & col_sums & col_bombs & err
          & -> & _ & _ & _ & _ & Hs & Hrun)%interactive_game_inv.
  destruct err as [e|].
  - injection Hrun as -> -> ->. split; [apply wf_opened_empty|].
    split; [by rewrite map_size_empty|]. split; [by intros k k' Hk|].
    split; [set_solver|]. split; [by intros k v Hk|].
    cbn. split; [by intros [k Hk] | done].
  - apply sanity_check_lengths in Hs as (Hrs & Hrb & Hcs & Hcb).
    destruct (game_loop_spec _ _ _ _ Hrs Hrb Hcs Hcb _ _ _ _ _ _ _
                wf_opened_empty ltac:(by intros k v Hk) Hrun)
      as (Hwf & _ & Hsize & Huniq & more & -> & Hnr & Hrec & Hbomb).
    rewrite map_size_empty in Hsize.
    split; [done|]. split; [lia|]. split; [done|]. split; [set_solver|]. split.
    + intros k v Hk. destruct (Hrec k v Hk) as [Hk' | (s & rc & st & Hin & ->)];
        [by rewrite lookup_empty in Hk'|].
      exists s, rc, st. split; [set_solver | done].
    + rewrite Hbomb. destruct more as [|x more] using rev_ind; [cbn; split; done|].
      by rewrite !app_assoc, !last_snoc.
Qed.

(** X23: when [interactive_game] ends, the revealed cells are cells of the
    grid with values 0..3 that the game recommended, their number is the
    counter [step], and at most 25 answers were taken. *)
Theorem game_reveals_recommended (inputs : list string) (opened' : gmap (Z * Z) Z)
    (step' : Z) (out' : list (Output F)) :
  interactive_game parse_ints strip lower int_of_string inputs
  = Some (opened', step', out') →
  wf_opened opened'
  ∧ Z.of_nat (size opened') = step'
  ∧ 0 ≤ step' ≤ 25
  ∧ ∀ k v, opened' !! k = Some v →
      ∃ s rc st, OutRecommend s rc st ∈ out' ∧ k = coord rc.1 rc.2.
Proof.
  intros (Hwf & Hsize & _ & _ & Hrec & _)%interactive_game_spec.
  pose proof (wf_opened_size _ Hwf). split; [done|]. split; [done|].
  split; [lia | done].
Qed.

(** X24: the game goes on after no bomb: at most one revealed cell holds a
    bomb, and one does exactly when the last thing printed is the game
    over. *)
Theorem game_ends_at_bomb (inputs : list string) (opened' : gmap (Z * Z) Z)
    (step' : Z) (out' : list (Output F)) :
  interactive_game parse_ints strip lower int_of_string inputs
  = Some (opened', step', out') →
  (∀ k k', opened' !! k = Some 0 → opened' !! k' = Some 0 → k = k')
  ∧ ((∃ k, opened' !! k = Some 0) ↔ last out' = Some OutGameOver).
Proof. intros (_ & _ & Huniq & _ & _ & Hbomb)%interactive_game_spec. done. Qed.

(** X25: the branch [best is None] of the loop is never taken: when the
    posterior map is not empty, [choose_next_safest] picks a cell. *)
Theorem game_always_recommends (inputs : list string) (opened' : gmap (Z * Z) Z)
    (step' : Z) (out' : list (Output F)) :
  interactive_game parse_ints strip lower int_of_string inputs
  = Some (opened', step', out') →
  OutNoRecommendation ∉ out'.
Proof. intros (_ & _ & _ & Hnr & _)%interactive_game_spec. done. Qed.

(** X26: once the four lines of constraints are read and [sanity_check]
    returns, the game raises only when [input] has no line left: if the
    last line quits, the game returns for every list of answers before
    it. *)
Theorem game_raises_only_for_input (l1 l2 l3 l4 quit : string) (answers : list string)
    (row_sums row_bombs col_sums col_bombs : list Z) :
  parse_ints l1 = Some row_sums → parse_ints l2 = Some row_bombs →
  parse_ints l3 = Some col_sums → parse_ints l4 = Some col_bombs →
  is_Some (sanity_check row_sums row_bombs col_sums col_bombs) →
  lower (lower (strip quit)) = "q" →
  is_Some (interactive_game parse_ints strip lower int_of_string
             (l1 :: l2 :: l3 :: l4 :: answers ++ [quit])).
Proof.
  intros H1 H2 H3 H4 [err Hs] Hquit. unfold interactive_game, read_line.
  cbn [mbind option_bind]. rewrite H1. cbn [mbind option_bind].
  rewrite H2. cbn [mbind option_bind]. rewrite H3. cbn [mbind option_bind].
  rewrite H4. cbn [mbind option_bind]. rewrite Hs. cbn [mbind option_bind].
  destruct err as [e|]; [done|].
  apply sanity_check_lengths in Hs as (Hrs & Hrb & Hcs & Hcb).
  apply game_loop_quit; [done..|apply wf_opened_empty].
Qed.

End game.

Lemma game_reveals_recommended_witness :
  ∃ (opened' : gmap (Z * Z) Z) (step' : Z) (out' : list (Output QArith_base.Q)),
    interactive_game (H:=Q_ops) digits_of id id digit_of
      ["66555"; "00000"; "66555"; "00000"; "1"; "x"; "q"]%string
    = Some (opened', step', out')
    ∧ wf_opened opened'
    ∧ Z.of_nat (size opened') = step'
    ∧ 0 ≤ step' ≤ 25
    ∧ ∀ k v, opened' !! k = Some v →
        ∃ s rc st, OutRecommend s rc st ∈ out' ∧ k = coord rc.1 rc.2.
Proof.
  assert (∃ (opened' : gmap (Z * Z) Z) (step' : Z) (out' : list (Output QArith_base.Q)),
            interactive_game (H:=Q_ops) digits_of id id digit_of
              ["66555"; "00000"; "66555"; "00000"; "1"; "x"; "q"]%string
            = Some (opened', step', out')) as (opened' & step' & out' & Hrun)
    by (eexists _, _, _; vm_compute; reflexivity).
  exists opened', step', out'. split; [exact Hrun|].
  apply (game_reveals_recommended (H:=Q_ops) digits_of id id digit_of _ _ _ _ Hrun).
Defined.

Lemma game_ends_at_bomb_witness :
  ∃ (opened' : gmap (Z * Z) Z) (step' : Z) (out' : list (Output QArith_base.Q)),
    interactive_game (H:=Q_ops) digits_of id id digit_of
      ["66555"; "00000"; "66555"; "00000"; "1"; "0"; "2"]%string
    = Some (opened', step', out')
    ∧ (∀ k k', opened' !! k = Some 0 → opened' !! k' = Some 0 → k = k')
    ∧ ((∃ k, opened' !! k = Some 0) ↔ last out' = Some OutGameOver).
Proof.
  assert (∃ (opened' : gmap (Z * Z) Z) (step' : Z) (out' : list (Output QArith_base.Q)),
            interactive_game (H:=Q_ops) digits_of id id digit_of
              ["66555"; "00000"; "66555"; "00000"; "1"; "0"; "2"]%string
            = Some (opened', step', out')) as (opened' & step' & out' & Hrun)
    by (eexists _, _, _; vm_compute; reflexivity).
  exists opened', step', out'. split; [exact Hrun|].
  apply (game_ends_at_bomb (H:=Q_ops) digits_of id id digit_of _ _ _ _ Hrun).
Defined.

Lemma game_always_recommends_witness :
  ∃ (opened' : gmap (Z * Z) Z) (step' : Z) (out' : list (Output QArith_base.Q)),
    interactive_game (H:=Q_ops) digits_of id id digit_of
      ["66555"; "00000"; "66555"; "00000"; "1"; "q"]%string
    = Some (opened', step', out')
    ∧ OutNoRecommendation ∉ out'.
Proof.
  assert (∃ (opened' : gmap (Z * Z) Z) (step' : Z) (out' : list (Output QArith_base.Q)),
            interactive_game (H:=Q_ops) digits_of id id digit_of
              ["66555"; "00000"; "66555"; "00000"; "1"; "q"]%string
            = Some (opened', step', out')) as (opened' & step' & out' & Hrun)
    by (eexists _, _, _; vm_compute; reflexivity).
  exists opened', step', out'. split; [exact Hrun|].
  apply (game_always_recommends (H:=Q_ops) digits_of id id digit_of _ _ _ _ Hrun).
Defined.

Lemma game_raises_only_for_input_witness :
  is_Some (interactive_game (H:=Q_ops) digits_of id id digit_of
             ("66555" :: "00000" :: "66555" :: "00000" :: ["1"; "7"; "x"] ++ ["q"])%string).
Proof.
  apply (game_raises_only_for_input (H:=Q_ops) digits_of id id digit_of
           "66555" "00000" "66555" "00000" "q" ["1"; "7"; "x"]%string
           [6; 6; 5; 5; 5] [0; 0; 0; 0; 0] [6; 6; 5; 5; 5] [0; 0; 0; 0; 0]);
    try reflexivity.
  vm_compute. by eexists.
Defined.
